(** * SDE_CRA: the interval timer [ECtimes] and its report

    A shallow embedding of class [ECtimes] of [SDE_CRA.py] (its methods
    [__init__], [time_stamp] and [time_report]) and the properties of the
    timer and of the text it reports.

    The script is Python 2 (it uses [basestring], and [time_report] sorts the
    list returned by [dict.keys()] in place), so the embedding follows the
    Python 2.7 semantics of the operations the class uses:
    - [datetime.now()] is a naive datetime with microsecond resolution; a
      datetime is the integer number of microseconds on the calendar axis and
      a [timedelta] an integer number of microseconds.  The clock reading is
      an explicit argument of [time_stamp].
    - a list compares lexicographically, strings compare bytewise;
    - [timedelta.total_seconds()] is the true division of the microseconds by
      [10**6], rounded to the nearest binary64 value, and ["{}".format] of a
      float is [str] of it: twelve significant digits.
    - [dict] is a finite map; an exception is the result [None].

    The methods are embedded twice.  First on values: the log is the list
    of its stamps, [time_stamp] and [time_report] are functions of it, and
    the properties of the report are proved there.  Then on a store of list
    objects, where [append] and [sort] work in place through references;
    the second embedding computes the text of the first and shows which
    objects a call changes.

    A datetime lies between the years 1 and 9999, and on a sorted series
    the sum that [time_report] accumulates is at most the span of its
    timestamps ([pair_sum_bounds]), far inside the range of [timedelta]:
    integers without a bound stand for both types.

    The rest of the script ([list_datasets], the wrappers of the tools,
    [rebuild_indexes], [get_sde_id], [perform_maintenance], [main]) and the
    two loops of [run_sde_cra.py] ([analyze_by_fc], [rebuild_by_fc]) are
    embedded as pieces of script in a monad of state, exceptions and a trace
    of the calls made to [arcpy], [logging] and [print]; what the world
    outside answers is a parameter of every statement.  [run] of
    [run_sde_cra.py], which configures [logging] and the mail handler, is
    not embedded. *)

From Stdlib Require Import ZArith Ascii String List.
From stdpp Require Import base option list sorting strings gmap fin_maps.

Local Open Scope Z_scope.

(** ** Floats as Python 2.7 prints them *)

Module PyFloat.

(** Integer quotient [n / d] ([0 < d]) rounded to nearest, ties to even. *)
Definition div_rne (n d : Z) : Z :=
  let q := n / d in
  let r := n mod d in
  if 2 * r <? d then q
  else if d <? 2 * r then q + 1
  else if Z.even q then q else q + 1.

(** A finite binary64 value: [(-1)^neg * mant * 2^exp], with
    [2^52 <= mant < 2^53] unless the value is zero. *)
Record float := Float { f_neg : bool; f_mant : Z; f_exp : Z }.

(** [n / d] on integers with [from __future__ import division] semantics,
    as [timedelta.total_seconds] computes it: the quotient correctly
    rounded to binary64 ([0 < d]; the quotients of this program are far
    from the overflow and the subnormal range). *)
Definition true_divide (n d : Z) : float :=
  if n =? 0 then Float false 0 0 else
  let a := Z.abs n in
  let k := Z.log2 a - Z.log2 d in
  let f := if d * 2 ^ Z.max 0 k <=? a * 2 ^ Z.max 0 (- k) then k else k - 1 in
  let e := f - 52 in
  let m := div_rne (a * 2 ^ Z.max 0 (- e)) (d * 2 ^ Z.max 0 e) in
  if m =? 2 ^ 53 then Float (n <? 0) (2 ^ 52) (e + 1) else Float (n <? 0) m e.

Definition digit (d : Z) : ascii := ascii_of_nat (48 + Z.to_nat d).

Fixpoint digits_go (fuel : nat) (n : Z) (acc : list Z) : list Z :=
  match fuel with
  | O => acc
  | S fuel' =>
      if n <? 10 then n :: acc else digits_go fuel' (n / 10) (n mod 10 :: acc)
  end.

(** The decimal digits of [n >= 0], most significant first. *)
Definition digits (n : Z) : list Z :=
  digits_go (S (Z.to_nat (Z.log2 n))) n [].

Fixpoint strip_zeros (l : list Z) : list Z :=
  match l with
  | 0 :: l' => strip_zeros l'
  | _ => l
  end.

Definition strip_trailing_zeros (l : list Z) : list Z :=
  rev (strip_zeros (rev l)).

Definition show (l : list Z) : string := string_of_list_ascii (map digit l).

(** [str(x)] of Python 2.7: format code ['g'] with precision 12, the
    exponent form when the decimal point falls before [1e-4] or at
    [1e11] and beyond, and [".0"] added to an integral value. *)
Definition float_str (x : float) : string :=
  if f_mant x =? 0 then "0.0" else
  let N := f_mant x * 2 ^ Z.max 0 (f_exp x) in
  let D := 2 ^ Z.max 0 (- f_exp x) in
  let x0 := Z.of_nat (length (digits N)) - Z.of_nat (length (digits D)) in
  let X := if D * 10 ^ Z.max 0 x0 <=? N * 10 ^ Z.max 0 (- x0) then x0 else x0 - 1 in
  let q := div_rne (N * 10 ^ Z.max 0 (11 - X)) (D * 10 ^ Z.max 0 (X - 11)) in
  let '(q, X) := if q =? 10 ^ 12 then (10 ^ 11, X + 1) else (q, X) in
  let ds := strip_trailing_zeros (digits q) in
  let decpt := X + 1 in
  let body :=
    if (decpt <=? -4) || (11 <? decpt) then
      let frac := match ds with _ :: (_ :: _) as r => "." +:+ show r | _ => "" end in
      let ex := Z.abs X in
      show (firstn 1 ds) +:+ frac +:+ "e" +:+ (if X <? 0 then "-" else "+")
        +:+ (if ex <? 10 then "0" else "") +:+ show (digits ex)
    else if decpt <=? 0 then
      "0." +:+ show (repeat 0 (Z.to_nat (- decpt))) +:+ show ds
    else if Z.of_nat (length ds) <=? decpt then
      show ds +:+ show (repeat 0 (Z.to_nat decpt - length ds)) +:+ ".0"
    else
      show (firstn (Z.to_nat decpt) ds) +:+ "." +:+ show (skipn (Z.to_nat decpt) ds) in
  if f_neg x then "-" +:+ body else body.

End PyFloat.

(** ** The data of the timer *)

(** A naive [datetime], in microseconds. *)
Definition datetime : Type := Z.

(** A [timedelta], in microseconds; [timedelta()] is [0]. *)
Definition timedelta : Type := Z.

(** [timedelta.total_seconds()] *)
Definition total_seconds (d : timedelta) : PyFloat.float :=
  PyFloat.true_divide d 1000000.

(** One element of [lst_time]: the list [[group, dt.now(), stst, text]]. *)
Record stamp := Stamp {
  st_group : string;
  st_time : datetime;
  st_stst : string;
  st_text : string
}.

(** The slice [stamp[1:]], the list [[time, stst, text]] that [time_report]
    files under the group of the stamp. *)
Record slice := Slice {
  sl_time : datetime;
  sl_stst : string;
  sl_text : string
}.

Definition slice1 (s : stamp) : slice :=
  Slice (st_time s) (st_stst s) (st_text s).

(** An instance of the class: its attribute [lst_time]. *)
Record ECtimes := { lst_time : list stamp }.

Global Instance stamp_eq_dec : EqDecision stamp.
Proof. solve_decision. Defined.

Global Instance slice_eq_dec : EqDecision slice.
Proof. solve_decision. Defined.

(** The newline character of ["\n"]. *)
Definition nl : string := String (ascii_of_nat 10) EmptyString.

(** The marker that replaces a phase other than ['start'] and ['stop']; in
    the code it is the literal ['stst']. *)
Definition sentinel : string := "stst".

(** ** Python helpers *)

(** [d.keys()] *)
Definition keys {A} (d : gmap string A) : list string := (map_to_list d).*1.

(** Lexicographic comparison of two [[time, stst, text]] lists. *)
Definition slice_compare (a b : slice) : comparison :=
  match sl_time a ?= sl_time b with
  | Eq =>
      match String.compare (sl_stst a) (sl_stst b) with
      | Eq => String.compare (sl_text a) (sl_text b)
      | c => c
      end
  | c => c
  end.

Definition slice_le (a b : slice) : Prop := slice_compare a b ≠ Gt.

Global Instance slice_le_dec : RelDecision slice_le.
Proof. intros a b. unfold slice_le. apply _. Defined.

(** [list.sort()] on a list of strings and on a list of slices. *)
Definition sort_strings : list string → list string := merge_sort String.le.
Definition sort_slices : list slice → list slice := merge_sort slice_le.

(** [l[::2]] *)
Fixpoint step2 {A} (l : list A) : list A :=
  match l with
  | [] => []
  | [x] => [x]
  | x :: _ :: l' => x :: step2 l'
  end.

(** A [for] loop whose body may raise. *)
Fixpoint foldlM {A B} (f : B → A → option B) (b : B) (l : list A) : option B :=
  match l with
  | [] => Some b
  | x :: l' => b' ← f b x; foldlM f b' l'
  end.

(** ** The methods of [ECtimes] *)

(** [ECtimes.__init__] *)
Definition init : ECtimes := {| lst_time := [] |}.

(** [ECtimes.time_stamp]; [now] is what [dt.now()] returns. *)
Definition time_stamp (now : datetime) (self : ECtimes)
    (group stst text : string) : ECtimes * Z :=
  let stst := if decide (stst ∉ ["start"; "stop"]) then sentinel else stst in
  ({| lst_time := lst_time self ++ [Stamp group now stst text] |}, 0).

(** The body of the first loop of [time_report]. *)
Definition group_step (dic_groups : gmap string (list slice)) (stamp : stamp)
    : gmap string (list slice) :=
  let dic_groups :=
    if decide (st_group stamp ∉ keys dic_groups)
    then <[st_group stamp := []]> dic_groups
    else dic_groups in
  alter (λ series, series ++ [slice1 stamp]) (st_group stamp) dic_groups.

Definition group_stamps (l : list stamp) : gmap string (list slice) :=
  foldl group_step ∅ l.

(** The body of the loop over [range(len(series))[::2]]. *)
Definition walk_step (series : list slice) (deltatime : timedelta) (i : nat)
    : option timedelta :=
  a ← series !! i;
  if decide (sl_stst a = "start") then
    b ← series !! (i + 1)%nat;
    if decide (sl_stst b = "stop") then
      let dur_s := sl_time b - sl_time a in
      Some (deltatime + dur_s)
    else Some deltatime
  else Some deltatime.

Definition pair_walk (series : list slice) : option timedelta :=
  foldlM (walk_step series) 0 (step2 (seq 0 (length series))).

(** ["group: {} = {} seconds".format(group, deltatime.total_seconds())] *)
Definition format_line (group : string) (deltatime : timedelta) : string :=
  "group: " +:+ group +:+ " = "
    +:+ PyFloat.float_str (total_seconds deltatime) +:+ " seconds".

(** The body of the second loop of [time_report]. *)
Definition report_step (group : string) (series : list slice)
    (dic_report : gmap string string) : option (gmap string string) :=
  if decide (length series `mod` 2 = 1)%nat then Some dic_report
  else
    let series := sort_slices series in
    deltatime ← pair_walk series;
    Some (<[group := format_line group deltatime]> dic_report).

Definition analyse (dic_groups : gmap string (list slice))
    : option (gmap string string) :=
  map_fold (λ group series acc, acc ≫= report_step group series)
    (Some ∅) dic_groups.

(** The sorted keys of the report and the last loop of [time_report]. *)
Definition rep_keys (dic_report : gmap string string) : list string :=
  sort_strings (keys dic_report).

Definition compile (dic_report : gmap string string) : option string :=
  foldlM (λ str_report key_r,
            line ← dic_report !! key_r; Some (str_report +:+ nl +:+ line))
    "" (rep_keys dic_report).

(** [ECtimes.time_report]: the instance after the call and the text. *)
Definition time_report (self : ECtimes) : option (ECtimes * string) :=
  let dic_groups := group_stamps (lst_time self) in
  dic_report ← analyse dic_groups;
  str_report ← compile dic_report;
  Some (self, str_report).

(** Recording a list of [(now, group, stst, text)] calls in order. *)
Definition record (self : ECtimes) (c : datetime * string * string * string)
    : ECtimes :=
  let '(now, group, stst, text) := c in
  (time_stamp now self group stst text).1.

(** ** The same methods on the store of list objects

    [lst_time], every stamp, every slice [stamp[1:]] and every series of
    [dic_groups] is a list object with an identity; [append] and [sort]
    change such an object in place and every holder of a reference sees the
    change.  Strings and datetimes are immutable values. *)

Module Heap.

Inductive value :=
| VStr (s : string)
| VTime (t : datetime)
| VRef (a : nat).

Global Instance value_eq_dec : EqDecision value.
Proof. solve_decision. Defined.

(** The list objects, by address; a new object takes the next address. *)
Abbreviation heap := (list (list value)).

(** [list()] and list displays. *)
Definition alloc (h : heap) (o : list value) : heap * nat :=
  (h ++ [o], length h).

(** The list a value refers to. *)
Definition deref (h : heap) (v : value) : option (list value) :=
  match v with
  | VRef a => h !! a
  | _ => None
  end.

(** An instance: the address its attribute [lst_time] holds. *)
Record instance := { self_lst_time : nat }.

(** [ECtimes.__init__] *)
Definition init (h : heap) : heap * instance :=
  let '(h, a) := alloc h [] in (h, {| self_lst_time := a |}).

(** [ECtimes.time_stamp] *)
Definition time_stamp (now : datetime) (h : heap) (self : instance)
    (group stst text : string) : option (heap * Z) :=
  let stst := if decide (stst ∉ ["start"; "stop"]) then sentinel else stst in
  let '(h, stamp) := alloc h [VStr group; VTime now; VStr stst; VStr text] in
  lst ← h !! self_lst_time self;
  Some (<[self_lst_time self := lst ++ [VRef stamp]]> h, 0).

(** The body of the first loop: [dic_groups] maps a group to the address of
    its series. *)
Definition group_step (st : heap * gmap string nat) (stamp : value)
    : option (heap * gmap string nat) :=
  let '(h, dic_groups) := st in
  o ← deref h stamp;
  k ← o !! 0%nat;
  match k with
  | VStr g =>
      let '(h, dic_groups) :=
        if decide (g ∉ keys dic_groups)
        then let '(h, a) := alloc h [] in (h, <[g := a]> dic_groups)
        else (h, dic_groups) in
      series ← dic_groups !! g;
      let '(h, sl) := alloc h (drop 1 o) in
      l ← h !! series;
      Some (<[series := l ++ [VRef sl]]> h, dic_groups)
  | _ => None
  end.

(** The list [[time, stst, text]] as a slice. *)
Definition decode_slice (o : list value) : option slice :=
  match o with
  | [VTime t; VStr p; VStr x] => Some (Slice t p x)
  | _ => None
  end.

(** [series.sort()]: the references of the series, reordered by the lists
    they refer to. *)
Definition sort_refs (h : heap) (refs : list value) : option (list value) :=
  items ← mapM (λ v, o ← deref h v; s ← decode_slice o; Some (s, v)) refs;
  Some (merge_sort (λ x y, slice_le x.1 y.1) items).*2.

Definition walk_step (h : heap) (series : list value) (deltatime : timedelta)
    (i : nat) : option timedelta :=
  a ← series !! i ≫= deref h;
  p ← a !! 1%nat;
  if decide (p = VStr "start") then
    b ← series !! (i + 1)%nat ≫= deref h;
    q ← b !! 1%nat;
    if decide (q = VStr "stop") then
      tb ← b !! 0%nat;
      ta ← a !! 0%nat;
      match tb, ta with
      | VTime tb, VTime ta => Some (deltatime + (tb - ta))
      | _, _ => None
      end
    else Some deltatime
  else Some deltatime.

Definition pair_walk (h : heap) (series : list value) : option timedelta :=
  foldlM (walk_step h series) 0 (step2 (seq 0 (length series))).

(** The body of the second loop. *)
Definition report_step (group : string) (series : nat)
    (st : heap * gmap string string) : option (heap * gmap string string) :=
  let '(h, dic_report) := st in
  refs ← h !! series;
  if decide (length refs `mod` 2 = 1)%nat then Some (h, dic_report)
  else
    sorted ← sort_refs h refs;
    let h := <[series := sorted]> h in
    deltatime ← pair_walk h sorted;
    Some (h, <[group := format_line group deltatime]> dic_report).

Definition analyse (h : heap) (dic_groups : gmap string nat)
    : option (heap * gmap string string) :=
  map_fold (λ group series acc, acc ≫= report_step group series)
    (Some (h, ∅)) dic_groups.

(** [ECtimes.time_report]: the store after the call and the text. *)
Definition time_report (h : heap) (self : instance) : option (heap * string) :=
  stamps ← h !! self_lst_time self;
  '(h, dic_groups) ← foldlM group_step (h, ∅) stamps;
  '(h, dic_report) ← analyse h dic_groups;
  str_report ← compile dic_report;
  Some (h, str_report).

(** Recording a list of calls in order on a new instance. *)
Definition record (st : option (heap * instance))
    (c : datetime * string * string * string) : option (heap * instance) :=
  '(h, self) ← st;
  let '(now, group, stst, text) := c in
  '(h, _) ← time_stamp now h self group stst text;
  Some (h, self).

End Heap.

(** What the store holds at an address: a slice, a stamp, a series, the log
    of an instance. *)
Definition slice_at (h : Heap.heap) (r : nat) (s : slice) : Prop :=
  h !! r = Some [Heap.VTime (sl_time s); Heap.VStr (sl_stst s);
                 Heap.VStr (sl_text s)].

Definition stamp_at (h : Heap.heap) (r : nat) (s : stamp) : Prop :=
  h !! r = Some [Heap.VStr (st_group s); Heap.VTime (st_time s);
                 Heap.VStr (st_stst s); Heap.VStr (st_text s)].

Definition series_at (h : Heap.heap) (loc : nat) (ss : list slice) : Prop :=
  ∃ refs, h !! loc = Some (Heap.VRef <$> refs) ∧ Forall2 (slice_at h) refs ss.

Definition log_at (h : Heap.heap) (self : Heap.instance) (l : list stamp)
    : Prop :=
  ∃ refs, h !! Heap.self_lst_time self = Some (Heap.VRef <$> refs) ∧
          Forall2 (stamp_at h) refs l.

(** The groups of the first loop in the store: the store extends the store
    [h0] of the call, the series are new objects, one per group, and each
    holds the slices of its group up to their order. *)
Definition groups_at (h0 h : Heap.heap) (dic : gmap string nat)
    (m : gmap string (list slice)) : Prop :=
  (∃ ext, h = h0 ++ ext) ∧
  (∀ g loc, dic !! g = Some loc → (length h0 ≤ loc)%nat) ∧
  (∀ g1 g2 loc, dic !! g1 = Some loc → dic !! g2 = Some loc → g1 = g2) ∧
  (∀ g, option_Forall2 (λ loc ss, ∃ ss', ss' ≡ₚ ss ∧ series_at h loc ss')
          (dic !! g) (m !! g)).

(** ** What the loops compute, in the terms of the statements *)

(** The slices of the stamps of one group, in the order of recording. *)
Definition entries (g : string) (l : list stamp) : list slice :=
  slice1 <$> filter (λ s, st_group s = g) l.

(** What one pair [series[i], series[i+1]] adds to [deltatime]. *)
Definition pair_delta (a b : slice) : timedelta :=
  if decide (sl_stst a = "start" ∧ sl_stst b = "stop")
  then sl_time b - sl_time a else 0.

Fixpoint pair_sum (series : list slice) : timedelta :=
  match series with
  | a :: b :: rest => pair_delta a b + pair_sum rest
  | _ => 0
  end.

(** The [deltatime] of a group, when the group is not skipped. *)
Definition duration (series : list slice) : option timedelta :=
  if decide (length series `mod` 2 = 1)%nat then None
  else Some (pair_sum (sort_slices series)).

(** The [deltatime] that [time_report] accumulates for label [g]: [None]
    when the label has no stamp or is skipped. *)
Definition duration_of (self : ECtimes) (g : string) : option timedelta :=
  series ← group_stamps (lst_time self) !! g; duration series.

(** The text of a list of lines, as the last loop builds it. *)
Definition join_lines (lines : list string) : string :=
  foldr (λ line acc, nl +:+ line +:+ acc) "" lines.

(** The line of a group in [dic_report], when the group is not skipped. *)
Definition line_of (g : string) (series : list slice) : option string :=
  format_line g <$> duration series.

(** [dic_report] once the second loop is over. *)
Definition dic_report_of (self : ECtimes) : gmap string string :=
  map_imap line_of (group_stamps (lst_time self)).

(** The lines of the report in the order of the text, each with its key. *)
Definition lines_of (dic_report : gmap string string) (ks : list string)
    : list (string * string) :=
  omap (λ k, pair k <$> dic_report !! k) ks.

Definition report_lines (self : ECtimes) : list (string * string) :=
  lines_of (dic_report_of self) (rep_keys (dic_report_of self)).

(** ** Sequences of (start, stop) pairs *)

(** The series made of the given pairs of events, pair after pair. *)
Definition flat_pairs (ps : list (slice * slice)) : list slice :=
  ps ≫= λ p, [p.1; p.2].

Definition well_formed (p : slice * slice) : Prop :=
  sl_stst p.1 = "start" ∧ sl_stst p.2 = "stop".

(** The sum of [stop_i - start_i] over the pairs. *)
Definition exact_sum (ps : list (slice * slice)) : timedelta :=
  foldr (λ p acc, (sl_time p.2 - sl_time p.1) + acc) 0 ps.

(** Sorted by timestamp alone. *)
Definition by_time (a b : slice) : Prop := sl_time a ≤ sl_time b.


(** The instance whose log keeps the stamps of group [g] only. *)
Definition only (g : string) (self : ECtimes) : ECtimes :=
  {| lst_time := filter (λ s, st_group s = g) (lst_time self) |}.

(** The stamps of group [g] whose phase is ['start'] or ['stop']. *)
Definition start_stop_events (g : string) (self : ECtimes) : list stamp :=
  filter (λ s, st_group s = g ∧ st_stst s ∈ ["start"; "stop"]) (lst_time self).

(** ** Recordings *)

Definition scenario : ECtimes :=
  foldl record init
    [(0, "build", "start", ""); (5000000, "build", "stop", "");
     (2000000, "deploy", "start", ""); (9000000, "deploy", "stop", "")]%string.

(** The recording of [scenario] on a new instance in an empty store. *)
Definition heap_scenario : Heap.heap * Heap.instance :=
  default (Heap.init [])
    (foldl Heap.record (Some (Heap.init []))
       [(0, "build", "start", ""); (5000000, "build", "stop", "");
        (2000000, "deploy", "start", ""); (9000000, "deploy", "stop", "")]%string).

(** The recording of [scenario] with the label ["deploy"] first. *)
Definition scenario_deploy_first : ECtimes :=
  foldl record init
    [(2000000, "deploy", "start", ""); (9000000, "deploy", "stop", "");
     (0, "build", "start", ""); (5000000, "build", "stop", "")]%string.

(** Four events of one label recorded in chronological order, the first
    stop and the second start sharing their timestamp. *)
Definition tied : ECtimes :=
  foldl record init
    [(0, "x", "start", ""); (5000000, "x", "stop", "");
     (5000000, "x", "start", ""); (9000000, "x", "stop", "")]%string.

Definition tied_pairs : list (slice * slice) :=
  [(Slice 0 "start" "", Slice 5000000 "stop" "");
   (Slice 5000000 "start" "", Slice 9000000 "stop" "")].

(** Two pairs of one label, of 5 and 4 seconds, three seconds apart, with
    the events of another label recorded in between. *)
Definition gapped : ECtimes :=
  foldl record init
    [(0, "x", "start", ""); (1000000, "y", "start", "");
     (5000000, "x", "stop", ""); (8000000, "x", "start", "");
     (9000000, "y", "stop", ""); (12000000, "x", "stop", "")]%string.

Definition gapped_pairs : list (slice * slice) :=
  [(Slice 0 "start" "", Slice 5000000 "stop" "");
   (Slice 8000000 "start" "", Slice 12000000 "stop" "")].

(** One start and one event with an invalid phase under one label. *)
Definition start_and_other : ECtimes :=
  foldl record init [(0, "x", "start", ""); (1000000, "x", "pause", "")]%string.

(** Two starts, then one stop: three events. *)
Definition start_start_stop : ECtimes :=
  foldl record init
    [(0, "x", "start", ""); (1000000, "x", "start", "");
     (2000000, "x", "stop", "")]%string.

(** Two events of one label, both recorded with an invalid phase. *)
Definition two_others : ECtimes :=
  foldl record init [(0, "x", "pause", ""); (1000000, "x", "resume", "")]%string.

(** A stop sorted before its start, followed by a well-formed pair. *)
Definition stop_first : ECtimes :=
  foldl record init
    [(0, "x", "stop", ""); (1000000, "x", "start", "");
     (2000000, "x", "start", ""); (5000000, "x", "stop", "")]%string.

(** The events of ["A"] recorded between those of ["B"]. *)
Definition interleaved : ECtimes :=
  foldl record init
    [(0, "A", "start", ""); (1000000, "B", "start", "");
     (3000000, "A", "stop", ""); (4000000, "B", "stop", "");
     (6000000, "A", "start", "")]%string.

Definition not_interleaved : ECtimes :=
  foldl record init
    [(1000000, "B", "start", ""); (4000000, "B", "stop", "")]%string.

(** A start, a stop two seconds later, and an invalid phase after each. *)
Definition marker_between : ECtimes :=
  foldl record init
    [(0, "x", "start", ""); (1000000, "x", "pause", "");
     (2000000, "x", "stop", ""); (3000000, "x", "pause", "")]%string.

(** One start, one event with an invalid phase, one stop, and nothing else. *)
Definition start_pause_stop : ECtimes :=
  foldl record init
    [(0, "x", "start", ""); (1000000, "x", "pause", "");
     (2000000, "x", "stop", "")]%string.

(** ** The maintenance script: values, events and the world outside

    The rest of [SDE_CRA.py] and the two loops of [run_sde_cra.py] call
    [arcpy], [re], [logging], [print], [socket] and the clock.  What these
    answer is not in the source: an environment [env] gives the answer of
    every call from the events so far, so a statement about the script
    holds whatever the database, the clock and the regular expressions
    do.  The calls themselves, with their arguments and in their order, are
    events of a trace. *)

(** The Python values the script passes around. *)
Inductive pyval :=
| PStr (s : string)
| PList (l : list string)
| PBool (b : bool)
| PNone.

Global Instance pyval_eq_dec : EqDecision pyval.
Proof. solve_decision. Defined.

Inductive exn :=
| ExecuteError
| TypeError
| IndexError
| AttributeError
| UnboundLocalError
| KeyError
| OtherError (name : string).

Global Instance exn_eq_dec : EqDecision exn.
Proof. solve_decision. Defined.

Inductive event :=
| SetWorkspace (ws : string)
| Arcpy (name : string) (args : list pyval) (kwargs : list (string * pyval))
| Log (level : string) (msg : string)
| Print (msg : string).

Global Instance event_eq_dec : EqDecision event.
Proof. solve_decision. Defined.

(** What [re.search(pattern, string)] gives: an error for a bad pattern, no
    match, or a match with its groups ([None] outside the pattern's groups,
    [Some None] for a group that took no part in the match). *)
Inductive re_result :=
| ReError
| ReNoMatch
| ReMatch (group : nat → option (option string)).

Inductive result (A : Type) :=
| Ok (a : A)
| Raise (e : exn).

Arguments Ok {A} a.
Arguments Raise {A} e.

(** The answers of the world outside, each from the events so far:
    - [arcpy.Describe]: the [dataType] of the workspace and, under database
      authentication, the [user] of its connection;
    - the [arcpy.List...] functions: a list of names, or [None];
    - [arcpy.da.ListVersions]: the names of the versions;
    - the tools and switches of [arcpy], whose value the script drops: the
      exception they raise, if any;
    - [arcpy.GetMessages()];
    and the clock, the host name, [re.search] and the texts of [str] and
    [repr] on datetimes, timedeltas, lists and exceptions. *)
Record env := {
  arcpy_describe : list event → string → result (string * option string);
  arcpy_list : list event → string → list pyval → list (string * pyval)
               → result (option (list string));
  arcpy_versions : list event → string → result (list string);
  arcpy_run : list event → string → list pyval → option exn;
  arcpy_messages : list event → result string;
  dt_now : nat → datetime;
  gethostname : string;
  re_search : string → string → re_result;
  str_datetime : datetime → string;
  str_timedelta : timedelta → string;
  str_list : list string → string;
  repr_exn : exn → string
}.

(** The state a run works on: the events so far, the number of clock
    readings taken, [arcpy.env.workspace] and the timer of
    [perform_maintenance]. *)
Record world := World {
  w_trace : list event;
  w_ticks : nat;
  w_workspace : string;
  w_timer : ECtimes
}.

(** A piece of script: from a world to the world after it and its value or
    the exception it raised. *)
Definition M (A : Type) : Type := world → world * result A.

Definition ret_M {A} (a : A) : M A := λ w, (w, Ok a).

Definition bind_M {A B} (m : M A) (k : A → M B) : M B :=
  λ w, match m w with
       | (w', Ok a) => k a w'
       | (w', Raise e) => (w', Raise e)
       end.

Definition raise {A} (e : exn) : M A := λ w, (w, Raise e).

Notation "x ←← m ;; k" := (bind_M m (λ x, k))
  (at level 100, m at next level, right associativity,
   format "'[v' x  ←←  m ;;  '/' k ']'").
Notation "m ;;; k" := (bind_M m (λ _, k))
  (at level 100, right associativity, format "'[v' m ;;;  '/' k ']'").

(** [try: body except ...: handler] *)
Definition try_except {A} (body : M A) (handler : exn → M A) : M A :=
  λ w, match body w with
       | (w', Ok a) => (w', Ok a)
       | (w', Raise e) => handler e w'
       end.

(** A loop that carries a value from one round to the next. *)
Fixpoint fold_M {A B} (f : B → A → M B) (b : B) (l : list A) : M B :=
  match l with
  | [] => ret_M b
  | x :: l' => bind_M (f b x) (λ b', fold_M f b' l')
  end.

(** [for x in l: body] *)
Fixpoint for_each {A} (l : list A) (body : A → M unit) : M unit :=
  match l with
  | [] => ret_M tt
  | x :: l' => body x ;;; for_each l' body
  end.

Definition emit (e : event) : M unit :=
  λ w, (World (w_trace w ++ [e]) (w_ticks w) (w_workspace w) (w_timer w), Ok tt).

(** ** Python helpers of the script *)

(** [kw in s] on strings. *)
Fixpoint contains_str (kw s : string) : bool :=
  String.prefix kw s ||
  match s with
  | EmptyString => false
  | String _ s' => contains_str kw s'
  end.

(** [kw in x] *)
Definition py_in (kw : string) (x : pyval) : result bool :=
  match x with
  | PStr s => Ok (contains_str kw s)
  | PList l => Ok (bool_decide (kw ∈ l))
  | _ => Raise TypeError
  end.

(** [str(n)] of an integer. *)
Definition str_int (n : Z) : string :=
  if n <? 0 then "-" +:+ PyFloat.show (PyFloat.digits (- n))
  else PyFloat.show (PyFloat.digits n).

(** [s[:-2]] *)
Definition drop_last2 (s : string) : string :=
  string_of_list_ascii (take (length (list_ascii_of_string s) - 2)
                          (list_ascii_of_string s)).

(** [s.split(c)] for a separator of one character. *)
Fixpoint split_go (c : ascii) (cur : string) (s : string) : list string :=
  match s with
  | EmptyString => [String.rev cur]
  | String a s' =>
      if decide (a = c) then String.rev cur :: split_go c EmptyString s'
      else split_go c (String a cur) s'
  end.

Definition split (c : ascii) (s : string) : list string :=
  split_go c EmptyString s.

(** The backslash, the separator of [conn.split]. *)
Definition backslash : ascii := ascii_of_nat 92.

(** [l[-1:]] *)
Definition last_slice {A} (l : list A) : list A :=
  drop (length l - 1) l.

(** [l[i]] for an integer index: negative indices count from the end. *)
Definition py_index {A} (l : list A) (i : Z) : option A :=
  if 0 <=? i then l !! Z.to_nat i
  else if - Z.of_nat (length l) <=? i then l !! Z.to_nat (Z.of_nat (length l) + i)
  else None.

(** [range(a, b)] *)
Definition py_range (a b : Z) : list Z :=
  (λ k, a + Z.of_nat k) <$> seq 0 (Z.to_nat (b - a)).

Section script.

Variable E : env.

(** [str(x)] and ["{}".format(x)] *)
Definition fmt (x : pyval) : string :=
  match x with
  | PStr s => s
  | PList l => str_list E l
  | PBool true => "True"
  | PBool false => "False"
  | PNone => "None"
  end.

(** A call of [arcpy]: the call is an event whether it returns or raises. *)
Definition called (name : string) (args : list pyval)
    (kwargs : list (string * pyval)) (w : world) : world :=
  World (w_trace w ++ [Arcpy name args kwargs]) (w_ticks w) (w_workspace w)
    (w_timer w).

Definition answer {A} (r : result A) (w : world) : world * result A := (w, r).

Definition describe (ws : string) : M (string * option string) :=
  λ w, answer (arcpy_describe E (w_trace w) ws) (called "Describe" [PStr ws] [] w).

Definition arcpy_List (name : string) (args : list pyval)
    (kwargs : list (string * pyval)) : M (option (list string)) :=
  λ w, answer (arcpy_list E (w_trace w) name args kwargs)
         (called name args kwargs w).

Definition ListVersions (con : string) : M (list string) :=
  λ w, answer (arcpy_versions E (w_trace w) con)
         (called "da.ListVersions" [PStr con] [] w).

Definition arcpy_tool (name : string) (args : list pyval) : M unit :=
  λ w, answer (match arcpy_run E (w_trace w) name args with
               | None => Ok tt
               | Some e => Raise e
               end)
         (called name args [] w).

Definition GetMessages : M string :=
  λ w, answer (arcpy_messages E (w_trace w)) (called "GetMessages" [] [] w).

(** [dt.now()] *)
Definition now : M datetime :=
  λ w, (World (w_trace w) (S (w_ticks w)) (w_workspace w) (w_timer w),
        Ok (dt_now E (w_ticks w))).

Definition log (level msg : string) : M unit := emit (Log level msg).

Definition print (msg : string) : M unit := emit (Print msg).

(** [arcpy.env.workspace = workspace] and the reading of it. *)
Definition set_workspace (ws : string) : M unit :=
  λ w, (World (w_trace w ++ [SetWorkspace ws]) (w_ticks w) ws (w_timer w), Ok tt).

Definition get_workspace : M string := λ w, (w, Ok (w_workspace w)).

(** [timer = ECtimes()], [timer.time_stamp(...)], [timer.time_report()] *)
Definition new_timer : M unit :=
  λ w, (World (w_trace w) (w_ticks w) (w_workspace w) init, Ok tt).

Definition timer_stamp (group stst text : string) : M unit :=
  t ←← now ;;
  λ w, (World (w_trace w) (w_ticks w) (w_workspace w)
          (time_stamp t (w_timer w) group stst text).1, Ok tt).

Definition timer_report : M string :=
  λ w, match time_report (w_timer w) with
       | Some (self, text) =>
           (World (w_trace w) (w_ticks w) (w_workspace w) self, Ok text)
       | None => (w, Raise (OtherError "time_report"))
       end.

(** [a + b] and [a += b] on what the [List...] functions return. *)
Definition add_lists (a b : option (list string)) : M (list string) :=
  match a, b with
  | Some a, Some b => ret_M (a ++ b)
  | _, _ => raise TypeError
  end.

(** [for x in l] on what a [List...] function returns. *)
Definition iter (l : option (list string)) : M (list string) :=
  match l with
  | Some l => ret_M l
  | None => raise TypeError
  end.

(** [list_datasets] *)
Definition list_datasets (workspace : string) : M (list string) :=
  set_workspace workspace ;;;
  ws ←← get_workspace ;;
  d ←← describe ws ;;
  (if decide (d.1 ≠ "Workspace")
   then log "error" "Workspace not recognised - something is wrong. Please check your TNS settings."
   else ret_M tt) ;;;
  ws ←← get_workspace ;;
  d ←← describe ws ;;
  user_name ←← (match d.2 with
                | Some user => ret_M user
                | None => raise AttributeError
                end) ;;
  let all_users := user_name +:+ ".*" in
  tables ←← arcpy_List "ListTables" [PStr all_users] [] ;;
  fcs ←← arcpy_List "ListFeatureClasses" [PStr all_users] [] ;;
  data_lst ←← add_lists tables fcs ;;
  rasters ←← arcpy_List "ListRasters" [PStr all_users] [] ;;
  data_lst ←← add_lists (Some data_lst) rasters ;;
  datasets ←← arcpy_List "ListDatasets" [PStr all_users] [] ;;
  datasets ←← iter datasets ;;
  fold_M (λ data_lst dataset,
            more ←← arcpy_List "ListFeatureClasses" []
                      [("feature_dataset", PStr dataset)] ;;
            add_lists (Some data_lst) more)
    data_lst datasets.

(** [analyze_data_owner] *)
Definition analyze_data_owner (workspace : string) (data_lst : pyval) : M Z :=
  arcpy_tool "AnalyzeDatasets_management"
    [PStr workspace; PStr "NO_SYSTEM"; data_lst; PStr "ANALYZE_BASE";
     PStr "ANALYZE_DELTA"; PStr "ANALYZE_ARCHIVE"] ;;;
  ret_M 0.

(** [analyze_sde] *)
Definition analyze_sde (workspace : string) : M Z :=
  arcpy_tool "AnalyzeDatasets_management" [PStr workspace; PStr "SYSTEM"] ;;;
  ret_M 0.

(** [compress] *)
Definition compress (workspace : string) : M Z :=
  arcpy_tool "Compress_management" [PStr workspace] ;;;
  ret_M 0.

(** [rebuild_indexes] *)
Definition rebuild_indexes (workspace : string) (data_lst : pyval) : M Z :=
  try_except
    (log "debug" ("rebuild: " +:+ workspace +:+ ", " +:+ fmt data_lst) ;;;
     (if decide (data_lst = PStr "" ∨ data_lst = PList [])
      then arcpy_tool "RebuildIndexes_management"
             [PStr workspace; PStr "SYSTEM"; PStr ""; PStr "ALL"]
      else arcpy_tool "RebuildIndexes_management"
             [PStr workspace; PStr "NO_SYSTEM"; data_lst; PStr "ALL"]) ;;;
     log "info" ("      > Rebuild successful: " +:+ fmt data_lst) ;;;
     ret_M 0)
    (λ x,
       if decide (x = ExecuteError) then
         log "error" ("      > ExecuteError is: " +:+ repr_exn E x) ;;;
         ret_M 1
       else
         log "error" ("      > Non-arcpy problem with: " +:+ fmt data_lst
                         +:+ repr_exn E x) ;;;
         msgs ←← GetMessages ;;
         log "error" msgs ;;;
         ret_M 1).

(** [get_sde_id]; the result is a string, or [None] for a group that took
    no part in the match. *)
Definition get_sde_id (pattern string : String.string) (n : nat) : M pyval :=
  match re_search E pattern string with
  | ReError => raise (OtherError "re.error")
  | ReMatch group =>
      match group n with
      | Some (Some s) => ret_M (PStr s)
      | Some None => ret_M PNone
      | None => raise IndexError
      end
  | ReNoMatch => ret_M (PStr string)
  end.

(** [individual_analyze], the switch at the top of the module. *)
Definition individual_analyze : bool := false.

(** [kw in mode] *)
Definition in_mode (kw : string) (mode : pyval) : M bool :=
  match py_in kw mode with
  | Ok b => ret_M b
  | Raise e => raise e
  end.

(** [a or b] *)
Definition or_M (a b : M bool) : M bool :=
  x ←← a ;; if x then ret_M true else b.

(** [prefix + x] *)
Definition concat_str (prefix : string) (x : pyval) : M string :=
  match x with
  | PStr s => ret_M (prefix +:+ s)
  | _ => raise TypeError
  end.

(** [dict_conn2versions[con]]; the dictionary is bound only once the list
    of data sets was built. *)
Definition lookup_data (dict_conn2versions : option (gmap string (list string)))
    (con : string) : M (list string) :=
  match dict_conn2versions with
  | None => raise UnboundLocalError
  | Some d =>
      match d !! con with
      | Some data_lst => ret_M data_lst
      | None => raise KeyError
      end
  end.

(** [str(dt.now() - start)[:-2]] *)
Definition since (start : datetime) : M string :=
  t ←← now ;; ret_M (drop_last2 (str_timedelta E (t - start))).

(** The head of [perform_maintenance]: the greeting, the timer, the
    versions of every connection. *)
Definition pm_greet (con_dba : string) (con_geo mode : pyval)
    : M (datetime * list string) :=
  log "info" ("Running perform_maintenance() on " +:+ gethostname E) ;;;
  new_timer ;;;
  t0 ←← now ;;
  timer_stamp "Initialize" "start" "Start of Main()" ;;;
  log "info" " * Auto Compress SDE - Main *" ;;;
  log "info" ("   Start time: " +:+ str_datetime E t0) ;;;
  log "info" ("   Connection DB admin: " +:+ con_dba) ;;;
  log "info" ("   Connection data owners: " +:+ fmt con_geo) ;;;
  log "info" ("   Mode: " +:+ fmt mode) ;;;
  con_geo ←← (match con_geo with
              | PStr s => ret_M [s]
              | PList l => ret_M l
              | _ => raise TypeError
              end) ;;
  for_each con_geo (λ con,
    lst_versions ←← ListVersions con ;;
    if decide (1 < length lst_versions)%nat
    then log "info" ("        Current versions (any but SDE.DEFAULT will prevent optimal compression): "
                       +:+ str_list E lst_versions)
    else log "info" ("        No edit versions for " +:+ con +:+ ".")) ;;;
  timer_stamp "Initialize" "stop" "Start of Main()" ;;;
  ret_M (t0, con_geo).

(** Block new connections to the database, and kick the users. *)
Definition pm_block (con_dba : string) (mode : pyval) : M unit :=
  (b ←← in_mode "block" mode ;;
   if b then arcpy_tool "AcceptConnections" [PStr con_dba; PBool false]
   else ret_M tt) ;;;
  (b ←← in_mode "kick" mode ;;
   if b then arcpy_tool "DisconnectUser" [PStr con_dba; PStr "ALL"]
   else ret_M tt).

(** Step 1: the data sets of every data owner. *)
Definition pm_list_data (con_geo : list string) (mode : pyval)
    : M (option (gmap string (list string))) :=
  if decide (mode ≠ PList ["report"]) then
    log "info" "   1. Get List Of Data Sets" ;;;
    timer_stamp "list_data" "start" "" ;;;
    d ←← fold_M (λ d con,
                   data_lst ←← list_datasets con ;;
                   ret_M (<[con := data_lst]> d))
           (∅ : gmap string (list string)) con_geo ;;
    timer_stamp "list_data" "stop" "" ;;;
    ret_M (Some d)
  else ret_M None.

(** Step 1b: the first analyze. *)
Definition pm_analyze1 (con_dba : string) (con_geo : list string)
    (mode : pyval) (sde_id_match_pattern : string)
    (dict_conn2versions : option (gmap string (list string))) : M unit :=
  b ←← or_M (in_mode "acra" mode) (in_mode "aca" mode) ;;
  if b then
    log "info" "   1b. Analyze" ;;;
    for_each con_geo (λ con,
      log "info" ("      " +:+ con) ;;;
      data_lst ←← lookup_data dict_conn2versions con ;;
      if decide (0 < length data_lst)%nat then
        sde_id ←← get_sde_id sde_id_match_pattern con 1 ;;
        label ←← concat_str "analyze1_" sde_id ;;
        timer_stamp label "start" "" ;;;
        (if individual_analyze then
           data_lst ←← lookup_data dict_conn2versions con ;;
           for_each data_lst (λ fc,
             start ←← now ;;
             analyze_data_owner con (PStr fc) ;;;
             d ←← since start ;;
             log "debug" ("Duration of " +:+ fc +:+ " in " +:+ con +:+ ": " +:+ d))
         else
           start ←← now ;;
           data_lst ←← lookup_data dict_conn2versions con ;;
           analyze_data_owner con (PList data_lst) ;;;
           d ←← since start ;;
           log "error" ("Duration of all fcs in " +:+ con +:+ ": " +:+ d)) ;;;
        label ←← concat_str "analyze1_" sde_id ;;
        timer_stamp label "stop" ""
      else log "info" ("Skipping empty data: " +:+ con)) ;;;
    timer_stamp "analyze1_sde" "start" "" ;;;
    analyze_sde con_dba ;;;
    timer_stamp "analyze1_sde" "stop" ""
  else ret_M tt.

(** Step 2: the compress. *)
Definition pm_compress (con_dba : string) (mode : pyval) : M unit :=
  b ←← or_M (in_mode "cra" mode) (or_M (in_mode "acra" mode)
         (or_M (in_mode "aca" mode) (in_mode "compress" mode))) ;;
  if b then
    log "info" "   2. Compress" ;;;
    timer_stamp "compress" "start" "" ;;;
    compress con_dba ;;;
    timer_stamp "compress" "stop" ""
  else ret_M tt.

(** Step 3: the rebuild of the indexes. *)
Definition pm_rebuild (con_dba : string) (con_geo : list string)
    (mode : pyval) (sde_id_match_pattern : string)
    (dict_conn2versions : option (gmap string (list string))) : M unit :=
  b ←← or_M (in_mode "cra" mode) (or_M (in_mode "acra" mode)
         (in_mode "rebuild" mode)) ;;
  if b then
    log "info" "   3. Rebuild Indexes" ;;;
    for_each con_geo (λ con,
      data_lst ←← lookup_data dict_conn2versions con ;;
      if decide (0 < length data_lst)%nat then
        sde_id ←← get_sde_id sde_id_match_pattern con 1 ;;
        label ←← concat_str "rebuild_index_" sde_id ;;
        timer_stamp label "start" "" ;;;
        t ←← now ;;
        log "info" ("   Start time rebuild indexes: " +:+ str_datetime E t) ;;;
        data_lst ←← lookup_data dict_conn2versions con ;;
        rebuild_indexes con (PList data_lst) ;;;
        label ←← concat_str "rebuild_index_" sde_id ;;
        timer_stamp label "stop" ""
      else log "info" ("Skipping empty data: " +:+ con)) ;;;
    timer_stamp "rebuild_index_sde" "start" "" ;;;
    rebuild_indexes con_dba (PStr "") ;;;
    timer_stamp "rebuild_index_sde" "stop" ""
  else ret_M tt.

(** Step 4: the second analyze. *)
Definition pm_analyze2 (con_dba : string) (con_geo : list string)
    (mode : pyval) (sde_id_match_pattern : string)
    (dict_conn2versions : option (gmap string (list string))) : M unit :=
  b ←← or_M (in_mode "cra" mode) (or_M (in_mode "acra" mode)
         (or_M (in_mode "aca" mode) (in_mode "analyze" mode))) ;;
  if b then
    log "info" "   4. Analyze" ;;;
    for_each con_geo (λ con,
      data_lst ←← lookup_data dict_conn2versions con ;;
      if decide (0 < length data_lst)%nat then
        sde_id ←← get_sde_id sde_id_match_pattern con 1 ;;
        label ←← concat_str "analyze2_" sde_id ;;
        timer_stamp label "start" "" ;;;
        t ←← now ;;
        log "info" ("   Start time analyze: " +:+ str_datetime E t) ;;;
        data_lst ←← lookup_data dict_conn2versions con ;;
        analyze_data_owner con (PList data_lst) ;;;
        label ←← concat_str "analyze2_" sde_id ;;
        timer_stamp label "stop" ""
      else ret_M tt) ;;;
    timer_stamp "analyze2_sde" "start" "" ;;;
    analyze_sde con_dba ;;;
    timer_stamp "analyze2_sde" "stop" ""
  else ret_M tt.

(** Allow the database to begin accepting connections again. *)
Definition pm_unblock (con_dba : string) (mode : pyval) : M unit :=
  b ←← in_mode "block" mode ;;
  if b then arcpy_tool "AcceptConnections" [PStr con_dba; PBool true]
  else ret_M tt.

(** Compile and log the profiling report. *)
Definition pm_report (mode : pyval) : M unit :=
  b ←← in_mode "report" mode ;;
  if b then
    log "info" " * Compile a report" ;;;
    time_profile_report ←← timer_report ;;
    log "info" ("Time profile report:" +:+ time_profile_report)
  else ret_M tt.

(** All done: the end time and the duration of the script. *)
Definition pm_done (t0 : datetime) : M unit :=
  tz ←← now ;;
  let duration := tz - t0 in
  log "info" ("End time: " +:+ str_datetime E tz) ;;;
  log "info" ("Python script duration (h:mm:ss.dddd): "
                +:+ drop_last2 (str_timedelta E duration)).

(** [perform_maintenance] *)
Definition perform_maintenance (con_dba : string) (con_geo mode : pyval)
    (sde_id_match_pattern : string) : M unit :=
  r ←← pm_greet con_dba con_geo mode ;;
  let '(t0, con_geo) := r in
  pm_block con_dba mode ;;;
  timer_stamp "main" "start" "" ;;;
  dict_conn2versions ←← pm_list_data con_geo mode ;;
  pm_analyze1 con_dba con_geo mode sde_id_match_pattern dict_conn2versions ;;;
  pm_compress con_dba mode ;;;
  pm_rebuild con_dba con_geo mode sde_id_match_pattern dict_conn2versions ;;;
  pm_analyze2 con_dba con_geo mode sde_id_match_pattern dict_conn2versions ;;;
  timer_stamp "main" "stop" "" ;;;
  pm_unblock con_dba mode ;;;
  pm_report mode ;;;
  pm_done t0.

(** [main]; [file] is [__file__] and [argv] is [sys.argv]. *)
Definition main (file : string) (argv : list string) : M unit :=
  match argv with
  | [_; a1; a2; a3; a4] =>
      perform_maintenance a1 (PStr a2) (PStr a3) a4
  | _ => print ("Usage: " +:+ file +:+ " CONN_SDE CONN_DO MODE ID_REGEX")
  end.

(** The loop of [analyze_by_fc] and [rebuild_by_fc] over
    [range(first, 1+last)]; [tool] is what the round runs on the data set
    of index [i]. *)
Definition by_fc_round (what : string) (tool : string → M Z)
    (conn : string) (conn2versions_lst : list string) (i : Z) : M unit :=
  start ←← now ;;
  fc ←← (match py_index conn2versions_lst i with
         | Some fc => ret_M fc
         | None => raise IndexError
         end) ;;
  print (str_int i +:+ ": Running " +:+ what +:+ " on " +:+ fc +:+ " in "
           +:+ str_list E (last_slice (split backslash conn)) +:+ ", started "
           +:+ str_datetime E start +:+ "...") ;;;
  fc ←← (match py_index conn2versions_lst i with
         | Some fc => ret_M fc
         | None => raise IndexError
         end) ;;
  tool fc ;;;
  t ←← now ;;
  print ("      Duration:  " +:+ str_timedelta E (t - start)).

(** The rounds over the sorted list, when it is not empty; [last = -1]
    stands for its last index. *)
Definition by_fc_rounds (what : string) (tool : string → M Z)
    (conn : string) (conn2versions_lst : list string) (first last : Z)
    : M unit :=
  if decide (0 < length conn2versions_lst)%nat then
    last ←← (if decide (last = -1) then
               let last := Z.of_nat (length conn2versions_lst) - 1 in
               print ("  Indexes " +:+ str_int first +:+ "-" +:+ str_int last) ;;;
               ret_M last
             else ret_M last) ;;
    for_each (py_range first (1 + last))
      (by_fc_round what tool conn conn2versions_lst)
  else ret_M tt.

Definition by_fc (intro what : string) (tool : string → M Z)
    (conn : string) (first last : Z) : M unit :=
  print (intro +:+ ", one feature class at a time, indexes "
           +:+ str_int first +:+ "-" +:+ str_int last +:+ "...") ;;;
  t0 ←← now ;;
  log "info" ("Start time: " +:+ str_datetime E t0) ;;;
  data_lst ←← list_datasets conn ;;
  let conn2versions_lst := sort_strings data_lst in
  by_fc_rounds what tool conn conn2versions_lst first last ;;;
  tz ←← now ;;
  let duration := tz - t0 in
  log "info" ("End time: " +:+ str_datetime E tz) ;;;
  log "info" ("Python script duration (h:mm:ss.dddd): "
                +:+ drop_last2 (str_timedelta E duration)).

(** [analyze_by_fc] of [run_sde_cra.py] *)
Definition analyze_by_fc (conn : string) (first last : Z) : M unit :=
  by_fc "Analyzing data sets" "Analyze"
    (λ fc, analyze_data_owner conn (PStr fc)) conn first last.

(** [rebuild_by_fc] of [run_sde_cra.py] *)
Definition rebuild_by_fc (conn : string) (first last : Z) : M unit :=
  by_fc "Rebuilding indexes for data sets" "Rebuild Indexes"
    (λ fc, rebuild_indexes conn (PList [fc])) conn first last.

End script.

(** ** Runs of the script, in the terms of the statements *)

(** Every run of [m], whether it returns or raises, takes a world to one
    related to it by [R]. *)
Definition steps {A} (R : relation world) (m : M A) : Prop :=
  ∀ w w' r, m w = (w', r) → R w w'.

(** No run of [m] raises [e]. *)
Definition never {A} (e : exn) (m : M A) : Prop :=
  ∀ w w', m w ≠ (w', Raise e).

(** The events of a run, all of them in [φ]. *)
Definition emits (φ : event → Prop) : relation world :=
  λ w w', ∃ new, w_trace w' = w_trace w ++ new ∧ Forall φ new.

(** [arcpy.AcceptConnections(_, True)] *)
Definition releases (e : event) : bool :=
  match e with
  | Arcpy "AcceptConnections" [_; PBool true] _ => true
  | _ => false
  end.

(** A record of level [info] whose text starts with ['T'], as the one of
    the time profile does. *)
Definition is_report_log (e : event) : bool :=
  match e with
  | Log "info" (String "T" _) => true
  | _ => false
  end.

(** An event that is not the release of the block and not the report. *)
Definition quiet (e : event) : Prop :=
  releases e = false ∧ is_report_log e = false.

(** An event that is no call of [arcpy] but of one of [names]. *)
Definition arcpy_in (names : list string) (e : event) : bool :=
  match e with
  | Arcpy name _ _ => bool_decide (name ∈ names)
  | _ => true
  end.

(** What [perform_maintenance] calls between the block and its release. *)
Definition blocked_calls : list string :=
  ["DisconnectUser"; "Describe"; "ListTables"; "ListFeatureClasses";
   "ListRasters"; "ListDatasets"; "AnalyzeDatasets_management";
   "Compress_management"; "RebuildIndexes_management"; "GetMessages"].

(** The calls of the three tools. *)
Definition is_tool (e : event) : bool :=
  match e with
  | Arcpy name _ _ =>
      bool_decide (name ∈ ["AnalyzeDatasets_management"; "Compress_management";
                           "RebuildIndexes_management"])
  | _ => false
  end.

Definition tool_calls (tr : list event) : list event :=
  filter (λ e, is_tool e) tr.

(** The world outside never answers a call with the exception [e]. *)
Definition env_never (E : env) (e : exn) : Prop :=
  (∀ tr ws, arcpy_describe E tr ws ≠ Raise e) ∧
  (∀ tr name args kwargs, arcpy_list E tr name args kwargs ≠ Raise e) ∧
  (∀ tr con, arcpy_versions E tr con ≠ Raise e) ∧
  (∀ tr name args, arcpy_run E tr name args ≠ Some e) ∧
  (∀ tr, arcpy_messages E tr ≠ Raise e).

(** [dict_conn2versions] is bound and has a key for every connection. *)
Definition covers (dict_conn2versions : option (gmap string (list string)))
    (con_geo : list string) : Prop :=
  ∃ d, dict_conn2versions = Some d ∧ ∀ con, con ∈ con_geo → is_Some (d !! con).

(** What [list_datasets] collects when the listings answer by [db] and the
    workspace is connected as [user]: the tables, the feature classes and
    the rasters of the user, then the feature classes of each of the user's
    feature datasets, in the order of the listings. *)
Definition datasets_of
    (db : string → list pyval → list (string * pyval) → list string)
    (user : string) : list string :=
  let all_users := user +:+ ".*" in
  db "ListTables" [PStr all_users] []
    ++ db "ListFeatureClasses" [PStr all_users] []
    ++ db "ListRasters" [PStr all_users] []
    ++ (db "ListDatasets" [PStr all_users] [] ≫= λ dataset,
          db "ListFeatureClasses" [] [("feature_dataset", PStr dataset)]).

(** The calls of [list_datasets] in that case, in their order. *)
Definition listing_calls
    (db : string → list pyval → list (string * pyval) → list string)
    (ws dtype user : string) : list event :=
  let all_users := user +:+ ".*" in
  [SetWorkspace ws; Arcpy "Describe" [PStr ws] []]
    ++ (if decide (dtype ≠ "Workspace")
        then [Log "error" "Workspace not recognised - something is wrong. Please check your TNS settings."]
        else [])
    ++ [Arcpy "Describe" [PStr ws] [];
        Arcpy "ListTables" [PStr all_users] [];
        Arcpy "ListFeatureClasses" [PStr all_users] [];
        Arcpy "ListRasters" [PStr all_users] [];
        Arcpy "ListDatasets" [PStr all_users] []]
    ++ ((λ dataset, Arcpy "ListFeatureClasses" []
                      [("feature_dataset", PStr dataset)])
          <$> db "ListDatasets" [PStr all_users] []).

(** The tool calls of a run are [ts], in this order. *)
Definition calls (ts : list event) : relation world :=
  λ w w', ∃ new, w_trace w' = w_trace w ++ new ∧ tool_calls new = ts.

(** The call of [analyze_data_owner] for one feature class and the call of
    [rebuild_indexes] for the list of one feature class. *)
Definition analyze_call (conn fc : string) : event :=
  Arcpy "AnalyzeDatasets_management"
    [PStr conn; PStr "NO_SYSTEM"; PStr fc; PStr "ANALYZE_BASE";
     PStr "ANALYZE_DELTA"; PStr "ANALYZE_ARCHIVE"] [].

Definition rebuild_call (conn fc : string) : event :=
  Arcpy "RebuildIndexes_management"
    [PStr conn; PStr "NO_SYSTEM"; PList [fc]; PStr "ALL"] [].

(** The data sets of indexes [first] to [last] of a list; [last = -1]
    stands for the last index. *)
Definition planned (l : list string) (first last : Z) : list string :=
  let last := if decide (last = -1) then Z.of_nat (length l) - 1 else last in
  take (Z.to_nat (1 + last - first)) (drop (Z.to_nat first) l).

(** A tool that returns on every data set, with its call. *)
Definition tool_returns (tool : string → M Z) (call : string → event) : Prop :=
  ∀ fc w, ∃ w' z, tool fc w = (w', Ok z) ∧ calls [call fc] w w'.










(** ** A sample world

    A database connected as ["GEO"] with two tables, one feature dataset and
    its feature class; [user] is the user of the connection, if any, and
    [tools] the exception the three tools raise, if any.  The clock gives one
    second to every reading. *)
Definition sample_db (name : string) (args : list pyval)
    (kwargs : list (string * pyval)) : list string :=
  if decide (name = "ListTables") then ["GEO.ROADS"; "GEO.ADDRESSES"]
  else if decide (name = "ListDatasets") then ["GEO.BASE"]
  else if decide (name = "ListFeatureClasses" ∧ kwargs ≠ [])
       then ["GEO.BUILDINGS"]
  else [].

Definition sample_world_outside (user : option string) (tools : option exn)
    : env := {|
  arcpy_describe := λ _ _, Ok ("Workspace", user);
  arcpy_list := λ _ name args kwargs, Ok (Some (sample_db name args kwargs));
  arcpy_versions := λ _ _, Ok ["SDE.DEFAULT"];
  arcpy_run := λ _ name _,
    if bool_decide (name ∈ ["AnalyzeDatasets_management"; "Compress_management";
                            "RebuildIndexes_management"])
    then tools else None;
  arcpy_messages := λ _, Ok "messages";
  dt_now := λ i, Z.of_nat i * 1000000;
  gethostname := "host";
  re_search := λ _ _, ReNoMatch;
  str_datetime := str_int;
  str_timedelta := str_int;
  str_list := λ l, "[" +:+ String.concat ", " l +:+ "]";
  repr_exn := λ _, "ExecuteError()"
|}.

Definition sample_env : env := sample_world_outside (Some "GEO") None.

Definition failing_env : env :=
  sample_world_outside (Some "GEO") (Some ExecuteError).

Definition os_auth_env : env := sample_world_outside None None.

Definition sample_world : world := World [] 0 "" init.

(** ** The steps a mode asks for *)

(** [kw in mode], for a mode that is a string or a list. *)
Definition has (kw : string) (mode : pyval) : bool :=
  match py_in kw mode with
  | Ok b => b
  | Raise _ => false
  end.

(** [kw1 in mode or kw2 in mode or ...] *)
Definition has_any (kws : list string) (mode : pyval) : bool :=
  existsb (λ kw, has kw mode) kws.

(** The calls of the tools on the connection of the administrator. *)
Definition sde_analyze (con_dba : string) : event :=
  Arcpy "AnalyzeDatasets_management" [PStr con_dba; PStr "SYSTEM"] [].

Definition sde_compress (con_dba : string) : event :=
  Arcpy "Compress_management" [PStr con_dba] [].

Definition sde_rebuild (con_dba : string) : event :=
  Arcpy "RebuildIndexes_management"
    [PStr con_dba; PStr "SYSTEM"; PStr ""; PStr "ALL"] [].

(** ** Sample values of [str] on seconds *)

(** [str(d.total_seconds())] for a few durations, in microseconds: whole
    seconds, fractions, the thirteenth digit rounded away (ties to even),
    and the two exponent forms. *)
Lemma total_seconds_str_samples :
  (λ d, PyFloat.float_str (total_seconds d)) <$>
    [0; 5000000; 7000000; 100000; 1500000; -1500000; 86399999999;
     1234567123456; 1234567890625; 99999999999000000; 100000000000000000;
     100; 12]
  = ["0.0"; "5.0"; "7.0"; "0.1"; "1.5"; "-1.5"; "86399.999999";
     "1234567.12346"; "1234567.89062"; "99999999999.0"; "1e+11";
     "0.0001"; "1.2e-05"].
Proof. by vm_compute. Qed.

(** ** The orders behind [list.sort()] *)

Section orders.

Lemma string_compare_refl (s : string) : String.compare s s = Eq.
Proof.
  induction s as [|a s IH]; simpl; [done|].
  unfold Ascii.compare. by rewrite N.compare_refl.
Qed.

Lemma string_compare_Lt (s1 s2 : string) :
  String.compare s1 s2 = Lt ↔ String.le s1 s2 ∧ s1 ≠ s2.
Proof.
  unfold String.le, String.leb. split.
  - intros Hc. rewrite Hc. split; [done|].
    intros ->. by rewrite string_compare_refl in Hc.
  - intros [Hle Hne]. destruct (String.compare s1 s2) eqn:Hc; [|done..].
    by apply String.compare_eq_iff in Hc.
Qed.

Lemma string_compare_Gt (s1 s2 : string) :
  String.compare s1 s2 = Gt ↔ ¬ String.le s1 s2.
Proof.
  unfold String.le, String.leb.
  destruct (String.compare s1 s2); simpl; naive_solver.
Qed.

(** The list order on slices, spelled out component by component. *)
Lemma slice_le_spec (a b : slice) :
  slice_le a b ↔
    sl_time a < sl_time b ∨
    sl_time a = sl_time b ∧
      (String.le (sl_stst a) (sl_stst b) ∧ sl_stst a ≠ sl_stst b ∨
       sl_stst a = sl_stst b ∧ String.le (sl_text a) (sl_text b)).
Proof.
  unfold slice_le, slice_compare.
  destruct (Z.compare_spec (sl_time a) (sl_time b)) as [Ht|Ht|Ht].
  - destruct (String.compare (sl_stst a) (sl_stst b)) eqn:Hs.
    + apply String.compare_eq_iff in Hs.
      destruct (String.compare (sl_text a) (sl_text b)) eqn:Hx.
      * apply String.compare_eq_iff in Hx. rewrite Hx.
        split; [|done]. intros _. right. split; [done|]. by right.
      * apply string_compare_Lt in Hx as [Hx _]. naive_solver.
      * apply string_compare_Gt in Hx. split; [done|].
        intros [?|[_ [[_ ?]|[_ ?]]]]; [lia|done..].
    + apply string_compare_Lt in Hs as [? ?].
      split; [|done]. intros _. right. split; [done|]. by left.
    + apply string_compare_Gt in Hs. split; [done|].
      intros [?|[_ [[? _]|[Heq _]]]]; [lia|done|].
      destruct Hs. by rewrite Heq.
  - naive_solver.
  - split; [done|]. intros [?|[? _]]; lia.
Qed.

Global Instance slice_le_refl : Reflexive slice_le.
Proof. intros a. apply slice_le_spec. right. split; [done|]. by right. Qed.

Global Instance slice_le_trans : Transitive slice_le.
Proof.
  intros a b c. rewrite !slice_le_spec.
  intros [?|[Hab Hab']] [?|[Hbc Hbc']]; [left; lia..|].
  right. split; [lia|].
  destruct Hab' as [[H1 H2]|[H1 H2]], Hbc' as [[H3 H4]|[H3 H4]].
  - left. split; [by etrans|]. intros Heq. rewrite Heq in H1.
    apply H4. by apply (anti_symm String.le).
  - left. rewrite <-H3. done.
  - left. rewrite H1. done.
  - right. split; [congruence|]. by etrans.
Qed.

Global Instance slice_le_antisymm : AntiSymm (=) slice_le.
Proof.
  intros [ta sa xa] [tb sb xb]. rewrite !slice_le_spec. simpl.
  intros [?|[Ht H1]] [?|[Ht' H2]]; try lia. clear Ht'. subst tb.
  assert (sa = sb) as ->.
  { destruct H1 as [[? _]|[? _]]; [|done].
    destruct H2 as [[? _]|[? _]]; [|done].
    by apply (anti_symm String.le). }
  f_equal. destruct H1 as [[_ ?]|[_ ?]]; [done|].
  destruct H2 as [[_ ?]|[_ ?]]; [done|].
  by apply (anti_symm String.le).
Qed.

Global Instance slice_le_total : Total slice_le.
Proof.
  intros a b. rewrite !slice_le_spec.
  destruct (Z.lt_total (sl_time a) (sl_time b)) as [?|[Ht|?]]; [auto| |auto].
  destruct (decide (sl_stst a = sl_stst b)) as [Hs|Hs].
  - destruct (total String.le (sl_text a) (sl_text b)); naive_solver.
  - destruct (total String.le (sl_stst a) (sl_stst b)); naive_solver.
Qed.

End orders.

(** ** The loops of [time_report] *)

Section loops.

Lemma list_ind2 {A} (P : list A → Prop) :
  P [] → (∀ x, P [x]) → (∀ x y l, P l → P (x :: y :: l)) → ∀ l, P l.
Proof.
  intros Hnil Hone Hcons l.
  assert (P l ∧ ∀ x, P (x :: l)) as [? _]; [|done].
  induction l as [|y l [IH1 IH2]]; split; auto.
Qed.

Lemma mod2_SS (n : nat) : (S (S n) `mod` 2 = n `mod` 2)%nat.
Proof.
  replace (S (S n)) with (n + 1 * 2)%nat by lia. apply Nat.Div0.mod_add.
Qed.

Lemma mod2_S (n : nat) : (S n `mod` 2 = 1 ↔ n `mod` 2 ≠ 1)%nat.
Proof.
  replace (S n) with (n + 1)%nat by lia.
  rewrite Nat.Div0.add_mod.
  pose proof (Nat.mod_upper_bound n 2 ltac:(lia)) as Hlt.
  destruct (n `mod` 2)%nat as [|[|k]] eqn:Hmod; [by cbn| by cbn |lia].
Qed.

Lemma string_app_assoc (s1 s2 s3 : string) :
  (s1 +:+ s2) +:+ s3 = s1 +:+ s2 +:+ s3.
Proof.
  induction s1 as [|a s1 IH]; [done|].
  change (String a ((s1 +:+ s2) +:+ s3) = String a (s1 +:+ s2 +:+ s3)).
  by rewrite IH.
Qed.

Lemma string_app_nil_r (s : string) : s +:+ "" = s.
Proof.
  induction s as [|a s IH]; [done|].
  change (String a (s +:+ "") = String a s). by rewrite IH.
Qed.

Lemma elem_of_keys {A} (d : gmap string A) (g : string) :
  g ∈ keys d ↔ is_Some (d !! g).
Proof.
  unfold keys. rewrite list_elem_of_fmap. split.
  - intros [[k x] [-> Hin]]. apply elem_of_map_to_list in Hin. by exists x.
  - intros [x Hx]. exists (g, x). split; [done|]. by apply elem_of_map_to_list.
Qed.

Lemma NoDup_keys {A} (d : gmap string A) : NoDup (keys d).
Proof. apply NoDup_fst_map_to_list. Qed.

(** *** The first loop *)

Lemma group_step_lookup (m : gmap string (list slice)) (s : stamp) (g : string) :
  group_step m s !! g =
    if decide (st_group s = g)
    then Some (default [] (m !! g) ++ [slice1 s])
    else m !! g.
Proof.
  unfold group_step. destruct (decide (st_group s = g)) as [<-|Hne].
  - rewrite lookup_alter_eq. case_decide as Hk.
    + rewrite lookup_insert_eq.
      rewrite elem_of_keys, <-eq_None_not_Some in Hk. by rewrite Hk.
    + apply elem_of_keys in Hk as [x ->]. done.
  - rewrite lookup_alter_ne by done. case_decide; [|done].
    by rewrite lookup_insert_ne.
Qed.

Lemma group_stamps_lookup (l : list stamp) (g : string) :
  group_stamps l !! g =
    if decide (entries g l = []) then None else Some (entries g l).
Proof.
  unfold group_stamps, entries.
  induction l as [|s l IH] using rev_ind; [done|].
  rewrite foldl_snoc, group_step_lookup, IH, filter_app, fmap_app.
  destruct (decide (st_group s = g)) as [Hg|Hg].
  - rewrite filter_cons_True, filter_nil by done. simpl.
    set (E := slice1 <$> filter (λ s, st_group s = g) l).
    rewrite (decide_False (P := E ++ [slice1 s] = []))
      by (intros [_ ?]%app_eq_nil; done).
    clear IH. by destruct (decide (E = [])) as [->|].
  - rewrite filter_cons_False, filter_nil by done. simpl.
    by rewrite app_nil_r.
Qed.

(** *** The pair walk *)

Lemma walk_step_pair (pre : list slice) (a b : slice) (rest : list slice)
    (d : timedelta) :
  walk_step (pre ++ a :: b :: rest) d (length pre) = Some (d + pair_delta a b).
Proof.
  unfold walk_step, pair_delta.
  rewrite (list_lookup_middle pre (b :: rest) a (length pre) eq_refl). simpl.
  assert ((pre ++ a :: b :: rest) !! (length pre + 1)%nat = Some b) as Hb.
  { rewrite lookup_app_r by lia.
    by replace (length pre + 1 - length pre)%nat with 1%nat by lia. }
  destruct (decide (sl_stst a = "start")) as [Ha|Ha].
  - rewrite Hb. simpl. destruct (decide (sl_stst b = "stop")) as [Hb'|Hb'].
    + by rewrite decide_True.
    + rewrite decide_False by (by intros [_ ?]). f_equal. lia.
  - rewrite decide_False by (by intros [? _]). f_equal. lia.
Qed.

Lemma pair_walk_from (rest pre : list slice) (d : timedelta) :
  (length rest `mod` 2 = 0)%nat →
  foldlM (walk_step (pre ++ rest)) d (step2 (seq (length pre) (length rest)))
    = Some (d + pair_sum rest).
Proof.
  revert pre d. induction rest as [|x|a b rest IH] using list_ind2;
    intros pre d Hlen.
  - simpl. f_equal. lia.
  - done.
  - cbn [length seq step2 foldlM pair_sum].
    rewrite walk_step_pair. simpl.
    replace (pre ++ a :: b :: rest) with ((pre ++ [a; b]) ++ rest)
      by (by rewrite <-app_assoc).
    replace (S (S (length pre))) with (length (pre ++ [a; b]))
      by (rewrite length_app; simpl; lia).
    rewrite IH.
    + f_equal. lia.
    + rewrite <-(mod2_SS (length rest)). exact Hlen.
Qed.

Lemma pair_walk_even (series : list slice) :
  (length series `mod` 2 = 0)%nat → pair_walk series = Some (pair_sum series).
Proof. intros Hlen. apply (pair_walk_from series [] 0 Hlen). Qed.

(** *** The second loop *)

Lemma sort_slices_perm (series : list slice) : sort_slices series ≡ₚ series.
Proof. apply merge_sort_Permutation. Qed.

Lemma sort_slices_sorted (series : list slice) :
  Sorted slice_le (sort_slices series).
Proof. apply (Sorted_merge_sort slice_le). Qed.

(** Whatever algorithm sorts the series, the result is this one. *)
Lemma sort_slices_unique (series sorted : list slice) :
  series ≡ₚ sorted → Sorted slice_le sorted → sort_slices series = sorted.
Proof.
  intros Hp Hs. apply (Sorted_unique slice_le); [apply sort_slices_sorted|done|].
  by rewrite sort_slices_perm.
Qed.

Lemma mod2_cases (n : nat) : (n `mod` 2 ≠ 1 → n `mod` 2 = 0)%nat.
Proof. pose proof (Nat.mod_upper_bound n 2). lia. Qed.

Lemma report_step_spec (g : string) (series : list slice)
    (acc : gmap string string) :
  report_step g series acc =
    Some (match line_of g series with
          | Some line => <[g := line]> acc
          | None => acc
          end).
Proof.
  unfold report_step, line_of, duration. case_decide as Hodd; [done|].
  rewrite pair_walk_even; [done|].
  rewrite (Permutation_length (sort_slices_perm series)).
  by apply mod2_cases.
Qed.

Lemma analyse_spec (m : gmap string (list slice)) :
  analyse m = Some (map_imap line_of m).
Proof.
  unfold analyse.
  apply (map_fold_weak_ind (λ r m, r = Some (map_imap line_of m))).
  - by rewrite map_imap_empty.
  - intros g series m' r Hg ->. simpl.
    rewrite report_step_spec, map_imap_insert. f_equal.
    destruct (line_of g series); [done|].
    symmetry. apply delete_id. by rewrite map_lookup_imap, Hg.
Qed.

Lemma dic_report_lookup (self : ECtimes) (g : string) :
  dic_report_of self !! g = format_line g <$> duration_of self g.
Proof.
  unfold dic_report_of, duration_of. rewrite map_lookup_imap.
  by destruct (group_stamps (lst_time self) !! g).
Qed.

Lemma duration_of_entries (self : ECtimes) (g : string) :
  duration_of self g =
    if decide (entries g (lst_time self) = []) then None
    else duration (entries g (lst_time self)).
Proof.
  unfold duration_of. rewrite group_stamps_lookup. by case_decide.
Qed.

(** *** The sorted keys and the last loop *)

Lemma rep_keys_perm (d : gmap string string) : rep_keys d ≡ₚ keys d.
Proof. apply merge_sort_Permutation. Qed.

Lemma elem_of_rep_keys (d : gmap string string) (g : string) :
  g ∈ rep_keys d ↔ is_Some (d !! g).
Proof. by rewrite rep_keys_perm, elem_of_keys. Qed.

Lemma rep_keys_sorted (d : gmap string string) :
  StronglySorted (strict String.le) (rep_keys d).
Proof.
  assert (StronglySorted String.le (rep_keys d)) as Hs.
  { apply (StronglySorted_merge_sort String.le). }
  assert (NoDup (rep_keys d)) as Hn.
  { rewrite rep_keys_perm. apply NoDup_keys. }
  induction Hs as [|k ks Hs IH Hall]; [constructor|].
  apply NoDup_cons in Hn as [Hk Hn].
  constructor; [by apply IH|].
  apply Forall_forall. intros k' Hk'.
  rewrite Forall_forall in Hall. split; [by apply Hall|].
  intros Hle. destruct Hk.
  by rewrite (anti_symm String.le k k' (Hall _ Hk') Hle).
Qed.

Lemma lines_of_fst (d : gmap string string) (ks : list string) :
  (∀ k, k ∈ ks → is_Some (d !! k)) → (lines_of d ks).*1 = ks.
Proof.
  induction ks as [|k ks IH]; intros Hks; [done|].
  destruct (Hks k) as [x Hx]; [left|].
  unfold lines_of in *. simpl. rewrite Hx. simpl. f_equal.
  apply IH. intros k' ?. apply Hks. by right.
Qed.

Lemma elem_of_lines_of (d : gmap string string) (ks : list string)
    (g line : string) :
  (g, line) ∈ lines_of d ks ↔ g ∈ ks ∧ d !! g = Some line.
Proof.
  unfold lines_of. rewrite list_elem_of_omap. split.
  - intros (k & Hk & Heq). destruct (d !! k) eqn:Hd; simplify_eq/=. done.
  - intros [Hk Hd]. exists g. by rewrite Hd.
Qed.

Lemma compile_from (d : gmap string string) (ks : list string) (acc : string) :
  (∀ k, k ∈ ks → is_Some (d !! k)) →
  foldlM (λ str_report key_r,
            line ← d !! key_r; Some (str_report +:+ nl +:+ line)) acc ks
    = Some (acc +:+ join_lines (lines_of d ks).*2).
Proof.
  revert acc. induction ks as [|k ks IH]; intros acc Hks.
  - simpl. by rewrite string_app_nil_r.
  - destruct (Hks k) as [x Hx]; [left|].
    unfold lines_of in *. simpl. rewrite Hx. simpl.
    rewrite IH by (intros k' ?; apply Hks; by right).
    by rewrite !string_app_assoc.
Qed.

Lemma compile_spec (d : gmap string string) :
  compile d = Some (join_lines (lines_of d (rep_keys d)).*2).
Proof.
  unfold compile. rewrite compile_from; [done|].
  intros k. by rewrite elem_of_rep_keys.
Qed.

(** *** The method as a whole *)

Lemma time_report_spec (self : ECtimes) :
  time_report self = Some (self, join_lines (report_lines self).*2).
Proof.
  unfold time_report. rewrite analyse_spec. simpl.
  by rewrite compile_spec.
Qed.

Lemma report_lines_fst (self : ECtimes) :
  (report_lines self).*1 = rep_keys (dic_report_of self).
Proof. apply lines_of_fst. intros k. by rewrite elem_of_rep_keys. Qed.

Lemma elem_of_report_lines (self : ECtimes) (g line : string) :
  (g, line) ∈ report_lines self ↔
    ∃ d, duration_of self g = Some d ∧ line = format_line g d.
Proof.
  unfold report_lines.
  rewrite elem_of_lines_of, elem_of_rep_keys, dic_report_lookup.
  destruct (duration_of self g) as [d|]; simpl; split.
  - intros [_ [= <-]]. by exists d.
  - intros (d' & [= <-] & ->). eauto.
  - by intros [_ ?].
  - by intros (? & ? & _).
Qed.

Lemma report_labels (self : ECtimes) (g : string) :
  g ∈ (report_lines self).*1 ↔ is_Some (duration_of self g).
Proof.
  rewrite report_lines_fst, elem_of_rep_keys, dic_report_lookup.
  by rewrite fmap_is_Some.
Qed.

End loops.

(** ** Pairs, permutations and the groups of other labels *)

Section pairs.

Lemma pair_sum_app (pre rest : list slice) :
  (length pre `mod` 2 = 0)%nat →
  pair_sum (pre ++ rest) = pair_sum pre + pair_sum rest.
Proof.
  induction pre as [|x|a b pre IH] using list_ind2; intros Hlen.
  - simpl. lia.
  - done.
  - cbn [app pair_sum]. rewrite IH; [lia|].
    rewrite <-(mod2_SS (length pre)). exact Hlen.
Qed.

Lemma length_app_even {A} (l1 l2 : list A) :
  (length l1 `mod` 2 = 0 → length l2 `mod` 2 = 0 →
   length (l1 ++ l2) `mod` 2 = 0)%nat.
Proof.
  intros H1 H2. rewrite length_app, Nat.Div0.add_mod, H1, H2. done.
Qed.

Lemma length_flat_pairs (ps : list (slice * slice)) :
  (length (flat_pairs ps) `mod` 2 = 0)%nat.
Proof.
  induction ps as [|p ps IH]; [done|].
  change (flat_pairs (p :: ps)) with (p.1 :: p.2 :: flat_pairs ps).
  cbn [length]. by rewrite mod2_SS.
Qed.

Lemma pair_sum_flat_pairs (ps : list (slice * slice)) :
  Forall well_formed ps → pair_sum (flat_pairs ps) = exact_sum ps.
Proof.
  induction 1 as [|p ps Hp _ IH]; [done|].
  change (flat_pairs (p :: ps)) with (p.1 :: p.2 :: flat_pairs ps).
  cbn [pair_sum exact_sum foldr]. fold (exact_sum ps). rewrite IH.
  unfold pair_delta. by rewrite decide_True.
Qed.

(** A series without any ['start'] accumulates nothing. *)
Lemma pair_sum_no_start (series : list slice) :
  Forall (λ a, sl_stst a ≠ "start") series → pair_sum series = 0.
Proof.
  induction series as [|x|a b rest IH] using list_ind2; intros Hall;
    [done..|].
  apply Forall_cons in Hall as [Ha Hall]. apply Forall_cons in Hall as [_ Hall].
  cbn [pair_sum]. rewrite IH by done. unfold pair_delta.
  rewrite decide_False; [done|]. by intros [? _].
Qed.

Lemma slice_le_time (a b : slice) : slice_le a b → sl_time a ≤ sl_time b.
Proof. rewrite slice_le_spec. intros [?|[? _]]; lia. Qed.

(** On a sorted series the pairs are disjoint intervals in ascending order:
    [deltatime] never leaves the span of the timestamps, which for datetimes
    is far inside the range of [timedelta]. *)
Lemma pair_sum_bounds (series : list slice) (lo hi : Z) :
  lo ≤ hi →
  Sorted slice_le series →
  Forall (λ a, lo ≤ sl_time a ≤ hi) series →
  0 ≤ pair_sum series ≤ hi - lo.
Proof.
  intros Hlohi Hsorted%Sorted_StronglySorted; [|apply _]. revert lo Hlohi.
  induction series as [|x|a b rest IH] using list_ind2;
    intros lo Hlohi Hall; [simpl; lia..|].
  apply StronglySorted_inv in Hsorted as [Hsorted Ha].
  apply StronglySorted_inv in Hsorted as [Hsorted Hb].
  apply Forall_cons in Ha as [Hab%slice_le_time _].
  apply Forall_cons in Hall as [Hla Hall].
  apply Forall_cons in Hall as [Hlb Hall].
  assert (0 ≤ pair_sum rest ≤ hi - sl_time b) as Hrest.
  { apply IH; [done|lia|].
    rewrite Forall_forall in Hall, Hb. apply Forall_forall. intros c Hc.
    specialize (Hall c Hc). specialize (Hb c Hc).
    apply slice_le_time in Hb. lia. }
  cbn [pair_sum]. unfold pair_delta. case_decide; lia.
Qed.

Lemma start_le_stop : String.le "start" "stop".
Proof. by vm_compute. Qed.


(** A label whose sorted series is a sequence of (start, stop) pairs. *)
Lemma duration_of_pairs (self : ECtimes) (g : string)
    (ps : list (slice * slice)) :
  ps ≠ [] →
  Forall well_formed ps →
  entries g (lst_time self) ≡ₚ flat_pairs ps →
  Sorted slice_le (flat_pairs ps) →
  duration_of self g = Some (exact_sum ps).
Proof.
  intros Hne Hwf Hperm Hsorted.
  rewrite duration_of_entries. rewrite decide_False.
  - unfold duration. rewrite (Permutation_length Hperm).
    rewrite decide_False by (rewrite length_flat_pairs; lia).
    rewrite (sort_slices_unique _ _ Hperm Hsorted).
    by rewrite pair_sum_flat_pairs.
  - intros Hnil. rewrite Hnil in Hperm. apply Permutation_nil_l in Hperm.
    destruct ps; [done|discriminate].
Qed.

(** A pair that holds an event stored with the marker adds nothing. *)
Lemma pair_delta_marker (a b : slice) :
  sl_stst a = sentinel ∨ sl_stst b = sentinel → pair_delta a b = 0.
Proof.
  intros Hm. unfold pair_delta. rewrite decide_False; [done|].
  intros [Ha Hb]. destruct Hm as [Hm|Hm]; rewrite Hm in *; discriminate.
Qed.

Lemma entries_only (g : string) (self : ECtimes) :
  entries g (lst_time (only g self)) = entries g (lst_time self).
Proof.
  unfold entries, only. simpl. f_equal.
  induction (lst_time self) as [|s l IH]; [done|].
  rewrite filter_cons. case_decide.
  - by rewrite !filter_cons_True, IH.
  - done.
Qed.

Lemma entries_perm (g : string) (l l' : list stamp) :
  l ≡ₚ l' → entries g l ≡ₚ entries g l'.
Proof. intros Hp. unfold entries. by rewrite Hp. Qed.

Lemma duration_perm (series series' : list slice) :
  series ≡ₚ series' → duration series = duration series'.
Proof.
  intros Hp. unfold duration. rewrite (Permutation_length Hp).
  case_decide; [done|]. do 2 f_equal.
  apply sort_slices_unique; [|apply sort_slices_sorted].
  by rewrite sort_slices_perm.
Qed.

Lemma duration_of_perm (self self' : ECtimes) (g : string) :
  entries g (lst_time self) ≡ₚ entries g (lst_time self') →
  duration_of self g = duration_of self' g.
Proof.
  intros Hp. rewrite !duration_of_entries.
  destruct (decide (entries g (lst_time self) = [])) as [Hnil|Hne].
  - rewrite Hnil in Hp. apply Permutation_nil_l in Hp.
    by rewrite decide_True.
  - rewrite decide_False; [by apply duration_perm|].
    intros Hnil. rewrite Hnil in Hp. by apply Permutation_nil_r in Hp.
Qed.

Lemma report_lines_perm (self self' : ECtimes) :
  lst_time self ≡ₚ lst_time self' → report_lines self = report_lines self'.
Proof.
  intros Hp. unfold report_lines.
  assert (dic_report_of self = dic_report_of self') as ->; [|done].
  apply map_eq. intros g. rewrite !dic_report_lookup. f_equal.
  by apply duration_of_perm, entries_perm.
Qed.

End pairs.

(** ** The store: what the calls change *)

Section store.

Implicit Types (h : Heap.heap) (ss : list slice) (refs : list nat).

Local Arguments Nat.modulo : simpl never.

Lemma refs_not_slice (refs : list nat) (s : slice) :
  Heap.VRef <$> refs
    ≠ [Heap.VTime (sl_time s); Heap.VStr (sl_stst s); Heap.VStr (sl_text s)].
Proof. by destruct refs. Qed.

Lemma refs_not_stamp (refs : list nat) (s : stamp) :
  Heap.VRef <$> refs
    ≠ [Heap.VStr (st_group s); Heap.VTime (st_time s);
       Heap.VStr (st_stst s); Heap.VStr (st_text s)].
Proof. by destruct refs. Qed.

Lemma slice_at_app h (ext : Heap.heap) r s :
  slice_at h r s → slice_at (h ++ ext) r s.
Proof. unfold slice_at. intros Hr. by apply lookup_app_l_Some. Qed.

Lemma stamp_at_app h (ext : Heap.heap) r s :
  stamp_at h r s → stamp_at (h ++ ext) r s.
Proof. unfold stamp_at. intros Hr. by apply lookup_app_l_Some. Qed.

Lemma slice_at_insert h loc refs (o : list Heap.value) r s :
  h !! loc = Some (Heap.VRef <$> refs) →
  slice_at h r s → slice_at (<[loc := o]> h) r s.
Proof.
  unfold slice_at. intros Hloc Hr. rewrite list_lookup_insert_ne; [done|].
  intros <-. rewrite Hloc in Hr. injection Hr as Hr.
  by apply refs_not_slice in Hr.
Qed.

Lemma stamp_at_insert h loc refs (o : list Heap.value) r s :
  h !! loc = Some (Heap.VRef <$> refs) →
  stamp_at h r s → stamp_at (<[loc := o]> h) r s.
Proof.
  unfold stamp_at. intros Hloc Hr. rewrite list_lookup_insert_ne; [done|].
  intros <-. rewrite Hloc in Hr. injection Hr as Hr.
  by apply refs_not_stamp in Hr.
Qed.

Lemma series_at_app h (ext : Heap.heap) loc ss :
  series_at h loc ss → series_at (h ++ ext) loc ss.
Proof.
  intros (refs & Hloc & Hall). exists refs. split.
  - by apply lookup_app_l_Some.
  - eapply Forall2_impl; [exact Hall|]. intros r s. apply slice_at_app.
Qed.

Lemma series_at_insert_ne h loc loc' refs' (o : list Heap.value) ss :
  h !! loc' = Some (Heap.VRef <$> refs') → loc ≠ loc' →
  series_at h loc ss → series_at (<[loc' := o]> h) loc ss.
Proof.
  intros Hloc' Hne (refs & Hloc & Hall). exists refs. split.
  - by rewrite list_lookup_insert_ne.
  - eapply Forall2_impl; [exact Hall|]. intros r s.
    by apply slice_at_insert with refs'.
Qed.

Lemma series_at_insert h loc refs0 refs ss :
  h !! loc = Some (Heap.VRef <$> refs0) →
  Forall2 (slice_at h) refs ss →
  series_at (<[loc := Heap.VRef <$> refs]> h) loc ss.
Proof.
  intros Hloc Hall. exists refs. split.
  - apply list_lookup_insert_eq. by apply lookup_lt_Some in Hloc.
  - eapply Forall2_impl; [exact Hall|]. intros r s.
    by apply slice_at_insert with refs0.
Qed.

(** *** The first loop on the store *)

Lemma groups_at_dom h0 h dic m g :
  groups_at h0 h dic m → (g ∈ keys dic ↔ g ∈ keys m).
Proof.
  intros (_ & _ & _ & Hg). specialize (Hg g). rewrite !elem_of_keys.
  destruct Hg; split; intros [? ?]; by eauto.
Qed.

Lemma groups_at_alloc h0 h dic m (o : list Heap.value) :
  groups_at h0 h dic m → groups_at h0 (h ++ [o]) dic m.
Proof.
  intros ([ext ->] & Hloc & Hinj & Hg). split; [|split; [done|split; [done|]]].
  - exists (ext ++ [o]). by rewrite app_assoc.
  - intros g. destruct (Hg g) as [loc ss (ss' & Hp & Hs)|]; constructor.
    exists ss'. split; [done|]. by apply series_at_app.
Qed.

Lemma groups_at_new h0 h dic m g :
  groups_at h0 h dic m → dic !! g = None →
  groups_at h0 (h ++ [[]]) (<[g := length h]> dic) (<[g := []]> m).
Proof.
  intros Hinv Hnone.
  pose proof (groups_at_alloc h0 h dic m [] Hinv) as (Hext & Hloc & Hinj & Hg).
  destruct Hinv as ([ext ->] & _ & _ & Hg0).
  assert (∀ g' loc, dic !! g' = Some loc → (loc < length (h0 ++ ext))%nat)
    as Hlt.
  { intros g' loc Hg'. specialize (Hg0 g'). rewrite Hg' in Hg0.
    inversion Hg0 as [? ? (? & _ & refs & Hl & _)|]; subst.
    by apply lookup_lt_Some in Hl. }
  split; [done|]. split; [|split].
  - intros g' loc. rewrite lookup_insert. case_decide; [|by apply Hloc].
    intros [= <-]. rewrite length_app. lia.
  - intros g1 g2 loc. rewrite !lookup_insert.
    repeat case_decide; subst; [done| | |by apply Hinj].
    + intros [= <-] ?%Hlt. lia.
    + intros ?%Hlt [= <-]. lia.
  - intros g'. rewrite !lookup_insert. case_decide; [|by apply Hg].
    constructor. exists []. split; [done|]. exists []. split; [|constructor].
    by apply list_lookup_middle.
Qed.

Lemma groups_at_append h0 h dic m g loc (l : list Heap.value) r s :
  groups_at h0 h dic m → dic !! g = Some loc → h !! loc = Some l →
  slice_at h r s →
  groups_at h0 (<[loc := l ++ [Heap.VRef r]]> h) dic
    (alter (λ series, series ++ [s]) g m).
Proof.
  intros ([ext ->] & Hloc & Hinj & Hg) Hdic Hl Hr.
  pose proof (Hg g) as Hgg. rewrite Hdic in Hgg.
  inversion Hgg as [? ss (ss' & Hp & refs & Hrefs & Hall) Heq1 Heq2|]; subst.
  rewrite Hl in Hrefs. injection Hrefs as ->.
  split; [|split; [done|split; [done|]]].
  - exists (<[(loc - length h0)%nat := (Heap.VRef <$> refs) ++ [Heap.VRef r]]> ext).
    apply insert_app_r_alt. by eapply Hloc.
  - intros g'. destruct (decide (g = g')) as [<-|Hne].
    + rewrite lookup_alter_eq, Hdic, <-Heq2. constructor.
      exists (ss' ++ [s]). split; [by rewrite Hp|].
      replace ((Heap.VRef <$> refs) ++ [Heap.VRef r])
        with (Heap.VRef <$> (refs ++ [r])) by (by rewrite fmap_app).
      apply series_at_insert with refs; [done|].
      apply Forall2_app; [done|]. by constructor.
    + rewrite lookup_alter_ne by done.
      pose proof (Hg g') as Hg'.
      destruct (dic !! g') as [loc'|] eqn:Hd;
        inversion Hg' as [? ss0 (ss0' & Hp0 & Hs0)|]; subst; [|constructor].
      constructor. exists ss0'. split; [done|].
      apply series_at_insert_ne with refs; [done| |done].
      intros ->. apply Hne. by apply (Hinj g g' loc).
Qed.

Lemma group_step_refines h0 h dic m a s :
  groups_at h0 h dic m → stamp_at h0 a s →
  ∃ h' dic',
    Heap.group_step (h, dic) (Heap.VRef a) = Some (h', dic') ∧
    groups_at h0 h' dic' (group_step m s).
Proof.
  intros Hinv Ha.
  assert (h !! a = Some [Heap.VStr (st_group s); Heap.VTime (st_time s);
                          Heap.VStr (st_stst s); Heap.VStr (st_text s)]) as Ha'.
  { destruct Hinv as ([ext ->] & _). by apply stamp_at_app. }
  unfold Heap.group_step, group_step. simpl. rewrite Ha'. simpl.
  set (sl := [Heap.VTime (st_time s); Heap.VStr (st_stst s);
              Heap.VStr (st_text s)]).
  assert (∀ h1 dic1 m1 loc,
    groups_at h0 h1 dic1 m1 → dic1 !! st_group s = Some loc →
    ∃ h' dic',
      (l ← (h1 ++ [sl]) !! loc;
       Some (<[loc := l ++ [Heap.VRef (length h1)]]> (h1 ++ [sl]), dic1))
        = Some (h', dic') ∧
      groups_at h0 h' dic'
        (alter (λ series, series ++ [slice1 s]) (st_group s) m1)) as Hrest.
  { intros h1 dic1 m1 loc Hinv1 Hdic1.
    pose proof (groups_at_alloc h0 h1 dic1 m1 sl Hinv1) as Hinv2.
    destruct Hinv2 as (Hx & Hy & Hz & Hg).
    pose proof (Hg (st_group s)) as Hgg. rewrite Hdic1 in Hgg.
    inversion Hgg as [? ss (ss' & Hp & refs & Hrefs & Hall)|]; subst.
    rewrite Hrefs. simpl. eexists _, _. split; [done|].
    apply groups_at_append; [done..|]. by apply list_lookup_middle. }
  rewrite (decide_ext _ _ _ _ (not_iff_compat (groups_at_dom h0 h dic m _ Hinv))).
  case_decide as Hk.
  - assert (dic !! st_group s = None) as Hnone.
    { apply eq_None_not_Some. rewrite <-elem_of_keys.
      by rewrite (groups_at_dom h0 h dic m _ Hinv). }
    rewrite lookup_insert_eq. simpl.
    apply Hrest; [by apply groups_at_new|by rewrite lookup_insert_eq].
  - rewrite <-(groups_at_dom h0 h dic m _ Hinv) in Hk.
    apply elem_of_keys in Hk as [loc Hloc]. rewrite Hloc. simpl.
    by apply Hrest.
Qed.

Lemma group_loop_refines h0 refs (l : list stamp) :
  Forall2 (stamp_at h0) refs l →
  ∀ h dic m, groups_at h0 h dic m →
  ∃ h' dic',
    foldlM Heap.group_step (h, dic) (Heap.VRef <$> refs) = Some (h', dic') ∧
    groups_at h0 h' dic' (foldl group_step m l).
Proof.
  induction 1 as [|a s refs l Ha _ IH]; intros h dic m Hinv.
  - exists h, dic. done.
  - destruct (group_step_refines h0 h dic m a s Hinv Ha)
      as (h1 & dic1 & Hstep & Hinv1).
    cbn [fmap list_fmap foldlM foldl]. rewrite Hstep. simpl.
    by apply IH.
Qed.

(** *** The second loop on the store *)

Lemma sort_refs_refines h refs ss :
  Forall2 (slice_at h) refs ss →
  ∃ refs',
    Heap.sort_refs h (Heap.VRef <$> refs) = Some (Heap.VRef <$> refs') ∧
    Forall2 (slice_at h) refs' (sort_slices ss).
Proof.
  intros Hall. unfold Heap.sort_refs.
  set (key := λ x y : slice * Heap.value, slice_le x.1 y.1).
  set (good := λ x : slice * Heap.value,
         ∃ r, x.2 = Heap.VRef r ∧ slice_at h r x.1).
  set (f := λ v, o ← Heap.deref h v; s ← Heap.decode_slice o; Some (s, v)).
  assert (∃ items,
    Forall2 (λ v it, f v = Some it) (Heap.VRef <$> refs) items ∧
    items.*1 = ss ∧ Forall good items) as (items & Hitems & Hfst & Hgood).
  { induction Hall as [|r s refs ss Hr _ (items & IH & Hfst & Hgood)].
    - exists []. by repeat split.
    - exists ((s, Heap.VRef r) :: items). split; [|split].
      + constructor; [|done]. unfold f. simpl. rewrite Hr. by destruct s.
      + rewrite fmap_cons. simpl. by f_equal.
      + constructor; [by exists r|done]. }
  rewrite (mapM_Some_2 _ _ _ Hitems).
  simpl.
  assert (Total key) as Htotal.
  { intros x y. apply (total slice_le). }
  assert ((merge_sort key items).*1 = sort_slices ss) as Hsorted.
  { symmetry. apply sort_slices_unique.
    - by rewrite merge_sort_Permutation, Hfst.
    - eapply Sorted_fmap; [|apply (Sorted_merge_sort key)]. done. }
  rewrite <-Hsorted.
  assert (Forall good (merge_sort key items)) as Hgood'.
  { by rewrite merge_sort_Permutation. }
  clear Hsorted. revert Hgood'. generalize (merge_sort key items).
  intros sorted Hgood'.
  induction Hgood' as [|[s v] sorted (r & Hv & Hr) _ (refs' & IH1 & IH2)].
  - by exists [].
  - simpl in Hv. subst v. exists (r :: refs'). split.
    + injection IH1 as IH1. rewrite !fmap_cons. simpl. by rewrite IH1.
    + rewrite fmap_cons. by constructor.
Qed.

Lemma walk_step_refines h refs ss (d : timedelta) (i : nat) :
  Forall2 (slice_at h) refs ss →
  Heap.walk_step h (Heap.VRef <$> refs) d i = walk_step ss d i.
Proof.
  intros Hall. unfold Heap.walk_step, walk_step.
  assert (∀ j, (Heap.VRef <$> refs) !! j ≫= Heap.deref h
    = (λ s, [Heap.VTime (sl_time s); Heap.VStr (sl_stst s);
             Heap.VStr (sl_text s)]) <$> ss !! j) as Hlook.
  { intros j. rewrite list_lookup_fmap.
    destruct (refs !! j) as [r|] eqn:Hr.
    - destruct (Forall2_lookup_l _ _ _ _ _ Hall Hr) as (s & -> & Hs). done.
    - apply lookup_ge_None in Hr. rewrite (Forall2_length _ _ _ Hall) in Hr.
      apply lookup_ge_None in Hr. by rewrite Hr. }
  rewrite !Hlook.
  destruct (ss !! i) as [a|]; [simpl|done].
  destruct (decide (sl_stst a = "start")) as [Ha|Ha].
  - rewrite decide_True by (by rewrite Ha).
    destruct (ss !! (i + 1)%nat) as [b|]; [simpl|done].
    destruct (decide (sl_stst b = "stop")) as [Hb|Hb].
    + by rewrite decide_True by (by rewrite Hb).
    + by rewrite decide_False by (by intros [= ?]).
  - by rewrite decide_False by (by intros [= ?]).
Qed.

Lemma foldlM_ext {A B} (f g : B → A → option B) (b : B) (l : list A) :
  (∀ b x, f b x = g b x) → foldlM f b l = foldlM g b l.
Proof.
  intros Hfg. revert b. induction l as [|x l IH]; intros b; [done|].
  simpl. rewrite Hfg. destruct (g b x); simpl; auto.
Qed.

Lemma pair_walk_refines h refs ss :
  Forall2 (slice_at h) refs ss →
  Heap.pair_walk h (Heap.VRef <$> refs) = pair_walk ss.
Proof.
  intros Hall. unfold Heap.pair_walk, pair_walk.
  rewrite length_fmap, (Forall2_length _ _ _ Hall).
  apply foldlM_ext. intros d i. by apply walk_step_refines.
Qed.

Lemma report_step_refines h0 h dic m g loc ss (d : gmap string string) :
  groups_at h0 h dic m → dic !! g = Some loc → m !! g = Some ss →
  ∃ h',
    Heap.report_step g loc (h, d)
      = Some (h', match line_of g ss with
                  | Some line => <[g := line]> d
                  | None => d
                  end) ∧
    groups_at h0 h' dic m.
Proof.
  intros Hinv Hdic Hm.
  pose proof Hinv as ([ext ->] & Hloc & Hinj & Hg).
  pose proof (Hg g) as Hgg. rewrite Hdic, Hm in Hgg.
  inversion Hgg as [? ? (ss' & Hp & refs & Hrefs & Hall)|]; subst.
  unfold Heap.report_step, line_of, duration. rewrite Hrefs. simpl.
  rewrite length_fmap, (Forall2_length _ _ _ Hall), (Permutation_length Hp).
  case_decide as Hodd; [by eexists|].
  destruct (sort_refs_refines _ _ _ Hall) as (refs' & -> & Hall').
  simpl.
  set (h' := <[loc := Heap.VRef <$> refs']> (h0 ++ ext)).
  assert (Forall2 (slice_at h') refs' (sort_slices ss')) as Hall''.
  { eapply Forall2_impl; [exact Hall'|]. intros r s.
    by apply slice_at_insert with refs. }
  rewrite (pair_walk_refines _ _ _ Hall'').
  rewrite pair_walk_even.
  2:{ rewrite (Permutation_length (sort_slices_perm ss')),
        (Permutation_length Hp). by apply mod2_cases. }
  simpl. exists h'. split.
  { rewrite (sort_slices_unique ss' (sort_slices ss)); [done| |].
    - by rewrite sort_slices_perm.
    - apply sort_slices_sorted. }
  split; [|split; [done|split; [done|]]].
  - exists (<[(loc - length h0)%nat := Heap.VRef <$> refs']> ext).
    apply insert_app_r_alt. by eapply Hloc.
  - intros g'. pose proof (Hg g') as Hg'.
    destruct (dic !! g') as [loc'|] eqn:Hd;
      inversion Hg' as [? ss0 (ss0' & Hp0 & Hs0)|]; subst; [|constructor].
    constructor. destruct (decide (loc' = loc)) as [->|Hne].
    + assert (g' = g) as -> by (by apply (Hinj g' g loc)).
      assert (ss0 = ss) as -> by congruence.
      exists (sort_slices ss'). split; [by rewrite sort_slices_perm|].
      by exists refs'; split;
        [apply list_lookup_insert_eq; apply lookup_lt_Some in Hrefs|].
    + exists ss0'. split; [done|].
      by apply series_at_insert_ne with refs.
Qed.

Lemma analyse_refines h0 h dic m :
  groups_at h0 h dic m →
  ∃ h',
    Heap.analyse h dic = Some (h', map_imap line_of m) ∧
    groups_at h0 h' dic m.
Proof.
  intros Hinv. unfold Heap.analyse.
  set (line := λ (g : string) (_ : nat), m !! g ≫= line_of g).
  assert (map_imap line dic = map_imap line_of m) as <-.
  { apply map_eq. intros g. rewrite !map_lookup_imap. unfold line.
    destruct Hinv as (_ & _ & _ & Hg). by destruct (Hg g). }
  cut (dic ⊆ dic → ∃ h',
    map_fold (λ group series acc, acc ≫= Heap.report_step group series)
      (Some (h, ∅)) dic = Some (h', map_imap line dic) ∧
    groups_at h0 h' dic m); [by auto|].
  generalize dic at 1 3 4 as dm.
  intros dm. apply (map_fold_weak_ind (λ r dm, dm ⊆ dic → ∃ h',
    r = Some (h', map_imap line dm) ∧ groups_at h0 h' dic m)).
  - intros _. exists h. by rewrite map_imap_empty.
  - intros g loc dm' r Hnone IH Hsub.
    destruct IH as (h1 & -> & Hinv1).
    { etrans; [|exact Hsub]. by apply insert_subseteq. }
    assert (dic !! g = Some loc) as Hdic.
    { eapply lookup_weaken; [|exact Hsub]. by rewrite lookup_insert_eq. }
    assert (∃ ss, m !! g = Some ss) as [ss Hm].
    { destruct Hinv as (_ & _ & _ & Hg). specialize (Hg g).
      rewrite Hdic in Hg. inversion Hg. by eauto. }
    destruct (report_step_refines h0 h1 dic m g loc ss (map_imap line dm')
                Hinv1 Hdic Hm) as (h2 & Hstep & Hinv2).
    cbn [mbind option_bind]. rewrite Hstep.
    exists h2. split; [|done]. f_equal. f_equal.
    rewrite map_imap_insert.
    assert (line g loc = line_of g ss) as -> by (unfold line; by rewrite Hm).
    destruct (line_of g ss); [done|].
    symmetry. apply delete_id. by rewrite map_lookup_imap, Hnone.
Qed.

(** *** The methods on the store *)

Lemma groups_at_empty h : groups_at h h ∅ ∅.
Proof.
  split; [|split; [|split]].
  - exists []. by rewrite app_nil_r.
  - intros g loc. by rewrite lookup_empty.
  - intros g1 g2 loc. by rewrite lookup_empty.
  - intros g. rewrite !lookup_empty. constructor.
Qed.

Lemma log_at_app h (ext : Heap.heap) self l :
  log_at h self l → log_at (h ++ ext) self l.
Proof.
  intros (refs & Hlst & Hall). exists refs. split.
  - by apply lookup_app_l_Some.
  - eapply Forall2_impl; [exact Hall|]. intros r s. apply stamp_at_app.
Qed.

Lemma time_report_refines h self l :
  log_at h self l →
  ∃ ext,
    Heap.time_report h self
      = Some (h ++ ext, join_lines (report_lines {| lst_time := l |}).*2).
Proof.
  intros (refs & Hlst & Hall). unfold Heap.time_report.
  rewrite Hlst. cbn [mbind option_bind].
  destruct (group_loop_refines h refs l Hall h ∅ ∅ (groups_at_empty h))
    as (h1 & dic & -> & Hinv1).
  cbn [mbind option_bind].
  destruct (analyse_refines h h1 dic _ Hinv1) as (h2 & -> & Hinv2).
  cbn [mbind option_bind]. rewrite compile_spec. cbn [mbind option_bind].
  destruct Hinv2 as ([ext ->] & _). by exists ext.
Qed.

Lemma time_stamp_refines now h self l (group stst text : string) :
  log_at h self l →
  ∃ h',
    Heap.time_stamp now h self group stst text = Some (h', 0) ∧
    log_at h' self
      (lst_time (time_stamp now {| lst_time := l |} group stst text).1).
Proof.
  intros (refs & Hlst & Hall). unfold Heap.time_stamp, time_stamp. simpl.
  set (phase := if decide (stst ∉ ["start"; "stop"]) then sentinel else stst).
  rewrite (lookup_app_l_Some _ _ _ _ Hlst). simpl.
  eexists. split; [done|]. exists (refs ++ [length h]). split.
  - rewrite fmap_app. apply list_lookup_insert_eq.
    rewrite length_app. apply lookup_lt_Some in Hlst. lia.
  - apply Forall2_app.
    + eapply Forall2_impl; [exact Hall|]. intros r s Hr.
      apply stamp_at_insert with refs; [by apply lookup_app_l_Some|].
      by apply stamp_at_app.
    + constructor; [|constructor].
      apply stamp_at_insert with refs; [by apply lookup_app_l_Some|].
      by apply list_lookup_middle.
Qed.

End store.

(** ** Properties of the timer and of the report *)

(** C1: the code breaks the claim on [tied].  In recording order the events
    of ["x"] are sorted by timestamp and form two (start, stop) pairs of 5
    and 4 seconds, so the claim gives 9 seconds.  [series.sort()] compares
    whole [[time, stst, text]] lists: the second start, which has the
    timestamp of the first stop, is sorted before it (['start'] is less than
    ['stop']), the walk finds the pairs (start, start) and (stop, stop), and
    the report gives 0.0 seconds. *)
Lemma exact_sum_tied_pairs_lost :
  Forall well_formed tied_pairs ∧
  entries "x" (lst_time tied) = flat_pairs tied_pairs ∧
  Sorted by_time (flat_pairs tied_pairs) ∧
  exact_sum tied_pairs = 9000000 ∧
  sort_slices (entries "x" (lst_time tied))
    = [Slice 0 "start" ""; Slice 5000000 "start" "";
       Slice 5000000 "stop" ""; Slice 9000000 "stop" ""] ∧
  duration_of tied "x" = Some 0 ∧
  duration_of tied "x" ≠ Some (exact_sum tied_pairs) ∧
  time_report tied = Some (tied, nl +:+ "group: x = 0.0 seconds").
Proof.
  split; [repeat constructor|].
  split; [reflexivity|].
  split; [repeat constructor; unfold by_time; simpl; lia|].
  split; [reflexivity|].
  split; [by vm_compute|].
  split; [by vm_compute|]. split; by vm_compute.
Qed.

(** C2, as stated, fails on the scenario of the claim: the text is not
    ["build: 5.0 seconds\ndeploy: 7.0 seconds"]. *)
Lemma scenario_text_differs :
  time_report scenario ≠
    Some (scenario, "build: 5.0 seconds" +:+ nl +:+ "deploy: 7.0 seconds").
Proof. by vm_compute. Qed.

(** C2 (amended): the text is, for every reported label in order, a newline
    followed by the line ["group: <label> = <total_seconds> seconds"]; for
    the recording of the claim it is
    ["\ngroup: build = 5.0 seconds\ngroup: deploy = 7.0 seconds"]. *)
Theorem report_text_format (self : ECtimes) :
  time_report self = Some (self, join_lines (report_lines self).*2) ∧
  Forall (λ kv, ∃ d, duration_of self kv.1 = Some d ∧
            kv.2 = "group: " +:+ kv.1 +:+ " = "
                     +:+ PyFloat.float_str (total_seconds d) +:+ " seconds")
    (report_lines self) ∧
  time_report scenario
    = Some (scenario, nl +:+ "group: build = 5.0 seconds"
                        +:+ nl +:+ "group: deploy = 7.0 seconds").
Proof.
  split; [apply time_report_spec|]. split; [|by vm_compute].
  apply Forall_forall. intros [g line] Hin.
  apply elem_of_report_lines in Hin as (d & Hd & ->). by exists d.
Qed.

(** C3, as stated, fails on [start_and_other]: the group of ["x"] holds an
    odd number (one) of start/stop events, and the report has a line for
    ["x"], because the event stored with the marker counts in
    [len(series)]. *)
Lemma odd_start_stop_reported :
  length (start_stop_events "x" start_and_other) = 1%nat ∧
  "x" ∈ (report_lines start_and_other).*1 ∧
  time_report start_and_other
    = Some (start_and_other, nl +:+ "group: x = 0.0 seconds").
Proof.
  split; [by vm_compute|]. split; [|by vm_compute].
  apply report_labels. exists 0. by vm_compute.
Qed.

(** C3 (amended): a label whose group holds an odd number of events, the
    events stored with the marker included, contributes no line to the
    text, and no error is raised. *)
Theorem odd_group_skipped (self : ECtimes) (g : string) :
  (length (filter (λ s, st_group s = g) (lst_time self)) `mod` 2 = 1)%nat →
  duration_of self g = None ∧
  (g ∉ (report_lines self).*1) ∧
  time_report self = Some (self, join_lines (report_lines self).*2).
Proof.
  intros Hodd.
  assert (duration_of self g = None) as Hd.
  { rewrite duration_of_entries. case_decide; [done|].
    unfold duration, entries. rewrite length_fmap. by rewrite decide_True. }
  split; [done|]. split; [|apply time_report_spec].
  rewrite report_labels, Hd. by intros [? ?].
Qed.

Lemma odd_group_skipped_witness :
  duration_of start_start_stop "x" = None ∧
  ("x" ∉ (report_lines start_start_stop).*1) ∧
  time_report start_start_stop
    = Some (start_start_stop, join_lines (report_lines start_start_stop).*2).
Proof. apply (odd_group_skipped start_start_stop "x"). reflexivity. Defined.

(** C4, as stated, fails on [two_others]: every event of ["x"] was recorded
    with a phase other than ['start'] and ['stop'], and the report has a
    line for ["x"]. *)
Lemma marker_only_reported :
  Forall (λ s, st_stst s = sentinel) (lst_time two_others) ∧
  "x" ∈ (report_lines two_others).*1 ∧
  time_report two_others = Some (two_others, nl +:+ "group: x = 0.0 seconds").
Proof.
  split; [repeat constructor|]. split; [|by vm_compute].
  apply report_labels. exists 0. by vm_compute.
Qed.

(** C4 (amended): the events of a label that were all stored with the marker
    add nothing to its duration and raise no error; the label has no line
    when the number of its events is odd, and the line
    ["group: <label> = 0.0 seconds"] when that number is even. *)
Theorem marker_only_group (self : ECtimes) (g : string) :
  entries g (lst_time self) ≠ [] →
  Forall (λ a, sl_stst a = sentinel) (entries g (lst_time self)) →
  time_report self = Some (self, join_lines (report_lines self).*2) ∧
  duration_of self g =
    (if decide (length (entries g (lst_time self)) `mod` 2 = 1)%nat
     then None else Some 0) ∧
  ∀ line, (g, line) ∈ report_lines self ↔
    (length (entries g (lst_time self)) `mod` 2 = 0)%nat ∧
    line = "group: " +:+ g +:+ " = 0.0 seconds".
Proof.
  intros Hne Hall. split; [apply time_report_spec|].
  assert (duration_of self g =
    (if decide (length (entries g (lst_time self)) `mod` 2 = 1)%nat
     then None else Some 0)) as Hd.
  { rewrite duration_of_entries, decide_False by done. unfold duration.
    case_decide; [done|]. do 2 f_equal.
    apply pair_sum_no_start. rewrite sort_slices_perm.
    eapply Forall_impl; [exact Hall|]. by intros a ->. }
  split; [done|]. intros line. rewrite elem_of_report_lines, Hd.
  case_decide as Hodd; split.
  - by intros (? & ? & _).
  - intros [Heven _]. rewrite Heven in Hodd. done.
  - intros (d & [= <-] & ->). split; [by apply mod2_cases|done].
  - intros [_ ->]. by exists 0.
Qed.

Lemma marker_only_group_witness :
  time_report two_others
    = Some (two_others, join_lines (report_lines two_others).*2) ∧
  duration_of two_others "x" =
    (if decide (length (entries "x" (lst_time two_others)) `mod` 2 = 1)%nat
     then None else Some 0) ∧
  ∀ line, ("x", line) ∈ report_lines two_others ↔
    (length (entries "x" (lst_time two_others)) `mod` 2 = 0)%nat ∧
    line = "group: " +:+ "x" +:+ " = 0.0 seconds".
Proof.
  apply (marker_only_group two_others "x").
  - discriminate.
  - repeat constructor.
Defined.

(** C5: in the walk over the sorted series of a label, a pair at an even
    index that is not (start, stop) adds nothing and raises nothing, a pair
    that is (start, stop) adds the difference of its timestamps; the other
    pairs are accumulated in both cases. *)
Theorem pair_walk_pair (self : ECtimes) (g : string)
    (pre post : list slice) (a b : slice) :
  sort_slices (entries g (lst_time self)) = pre ++ a :: b :: post →
  (length pre `mod` 2 = 0)%nat →
  (length post `mod` 2 = 0)%nat →
  ∃ d,
    pair_walk (pre ++ post) = Some d ∧
    pair_walk (pre ++ a :: b :: post)
      = Some (d + if decide (sl_stst a = "start" ∧ sl_stst b = "stop")
                  then sl_time b - sl_time a else 0) ∧
    duration_of self g = pair_walk (pre ++ a :: b :: post).
Proof.
  intros Hsort Hpre Hpost. exists (pair_sum pre + pair_sum post).
  assert (length (pre ++ a :: b :: post) `mod` 2 = 0)%nat as Hlen.
  { apply length_app_even; [done|]. cbn [length]. by rewrite mod2_SS. }
  rewrite !pair_walk_even by (done || by apply length_app_even).
  rewrite !pair_sum_app by done. cbn [pair_sum]. unfold pair_delta.
  split; [done|]. split; [case_decide; f_equal; lia|].
  rewrite duration_of_entries.
  assert (length (entries g (lst_time self)) `mod` 2 = 0)%nat as Hlen'.
  { by rewrite <-(Permutation_length (sort_slices_perm _)), Hsort. }
  rewrite decide_False.
  - unfold duration. rewrite decide_False by lia.
    by rewrite Hsort, pair_sum_app.
  - intros Hnil. rewrite Hnil in Hsort. by destruct pre.
Qed.

Lemma pair_walk_pair_witness :
  ∃ d,
    pair_walk ([] ++ [Slice 2000000 "start" ""; Slice 5000000 "stop" ""])
      = Some d ∧
    pair_walk ([] ++ Slice 0 "stop" "" :: Slice 1000000 "start" ""
                 :: [Slice 2000000 "start" ""; Slice 5000000 "stop" ""])
      = Some (d + if decide (sl_stst (Slice 0 "stop" "") = "start" ∧
                             sl_stst (Slice 1000000 "start" "") = "stop")
                  then sl_time (Slice 1000000 "start" "")
                       - sl_time (Slice 0 "stop" "") else 0) ∧
    duration_of stop_first "x"
      = pair_walk ([] ++ Slice 0 "stop" "" :: Slice 1000000 "start" ""
                      :: [Slice 2000000 "start" ""; Slice 5000000 "stop" ""]).
Proof.
  apply (pair_walk_pair stop_first "x" []
           [Slice 2000000 "start" ""; Slice 5000000 "stop" ""]
           (Slice 0 "stop" "") (Slice 1000000 "start" "")).
  - by vm_compute.
  - reflexivity.
  - reflexivity.
Defined.

(** C6: on every instance whose [lst_time] is a list of stamps,
    [time_stamp] does not raise and returns [0]; it creates one object, the
    stamp [[group, now, phase, text]], and appends a reference to it to the
    list [lst_time] of the instance; every other object of the store, so
    every earlier stamp and the log of every other instance, is as before.
    The phase stored is the phase of the call when that is ['start'] or
    ['stop'], and otherwise the marker, which is neither. *)
Theorem time_stamp_appends (now : datetime) (h : Heap.heap)
    (self : Heap.instance) (l : list stamp) (group stst text : string) :
  log_at h self l →
  ∃ phase refs h',
    ((stst = "start" ∨ stst = "stop") ∧ phase = stst ∨
     stst ≠ "start" ∧ stst ≠ "stop" ∧ phase = sentinel) ∧
    sentinel ≠ "start" ∧ sentinel ≠ "stop" ∧
    h !! Heap.self_lst_time self = Some (Heap.VRef <$> refs) ∧
    Heap.time_stamp now h self group stst text = Some (h', 0) ∧
    h' = <[Heap.self_lst_time self := Heap.VRef <$> (refs ++ [length h])]>
           (h ++ [[Heap.VStr group; Heap.VTime now; Heap.VStr phase;
                   Heap.VStr text]]) ∧
    log_at h' self (l ++ [Stamp group now phase text]) ∧
    time_stamp now {| lst_time := l |} group stst text
      = ({| lst_time := l ++ [Stamp group now phase text] |}, 0).
Proof.
  intros Hlog.
  destruct (time_stamp_refines now h self l group stst text Hlog)
    as (h' & Hcall & Hlog').
  destruct Hlog as (refs & Hlst & Hall).
  exists (if decide (stst ∉ ["start"; "stop"]) then sentinel else stst), refs, h'.
  split; [|split; [done|split; [done|split; [done|split; [done|]]]]].
  - case_decide as Hin.
    + right. rewrite !not_elem_of_cons in Hin. by destruct Hin as (? & ? & _).
    + left. rewrite !elem_of_cons, elem_of_nil in Hin.
      split; [|done]. by destruct Hin as [?|[?|?]]; [left|right|].
  - split; [|done].
    unfold Heap.time_stamp in Hcall. simpl in Hcall.
    rewrite (lookup_app_l_Some _ _ _ _ Hlst) in Hcall. simpl in Hcall.
    injection Hcall as <-. by rewrite fmap_app.
Qed.

Lemma time_stamp_appends_witness :
  ∃ phase refs h',
    (("pause" = "start" ∨ "pause" = "stop") ∧ phase = "pause" ∨
     "pause" ≠ "start" ∧ "pause" ≠ "stop" ∧ phase = sentinel) ∧
    sentinel ≠ "start" ∧ sentinel ≠ "stop" ∧
    heap_scenario.1 !! Heap.self_lst_time heap_scenario.2
      = Some (Heap.VRef <$> refs) ∧
    Heap.time_stamp 9500000 heap_scenario.1 heap_scenario.2
      "deploy" "pause" "" = Some (h', 0) ∧
    h' = <[Heap.self_lst_time heap_scenario.2
             := Heap.VRef <$> (refs ++ [length heap_scenario.1])]>
           (heap_scenario.1
              ++ [[Heap.VStr "deploy"; Heap.VTime 9500000; Heap.VStr phase;
                   Heap.VStr ""]]) ∧
    log_at h' heap_scenario.2
      (lst_time scenario ++ [Stamp "deploy" 9500000 phase ""]) ∧
    time_stamp 9500000 {| lst_time := lst_time scenario |} "deploy" "pause" ""
      = ({| lst_time := lst_time scenario
                          ++ [Stamp "deploy" 9500000 phase ""] |}, 0).
Proof.
  apply (time_stamp_appends 9500000 heap_scenario.1 heap_scenario.2
           (lst_time scenario) "deploy" "pause" "").
  exists [1; 2; 3; 4]%nat. split; [reflexivity|].
  repeat (constructor; [reflexivity|]). constructor.
Defined.

(** C7: in whatever order the events were recorded, the text is the same and
    its lines come by strictly ascending label. *)
Theorem report_sorted_by_label (self self' : ECtimes) :
  lst_time self ≡ₚ lst_time self' →
  time_report self' = Some (self', join_lines (report_lines self).*2) ∧
  StronglySorted (strict String.le) (report_lines self).*1.
Proof.
  intros Hp. split.
  - rewrite (report_lines_perm self self' Hp). apply time_report_spec.
  - rewrite report_lines_fst. apply rep_keys_sorted.
Qed.

Lemma report_sorted_by_label_witness :
  time_report scenario_deploy_first
    = Some (scenario_deploy_first, join_lines (report_lines scenario).*2) ∧
  StronglySorted (strict String.le) (report_lines scenario).*1.
Proof.
  apply (report_sorted_by_label scenario scenario_deploy_first).
  change (lst_time scenario) with
    ([Stamp "build" 0 "start" ""; Stamp "build" 5000000 "stop" ""]
       ++ [Stamp "deploy" 2000000 "start" ""; Stamp "deploy" 9000000 "stop" ""]).
  apply Permutation_app_comm.
Defined.

(** C8: on every instance whose [lst_time] is a list of stamps,
    [time_report] does not raise and changes no object that existed before
    the call (the objects it sorts in place are lists of its own), so
    [lst_time] and its stamps are as before; a second call right after the
    first returns the same text. *)
Theorem time_report_read_only (h : Heap.heap) (self : Heap.instance)
    (l : list stamp) :
  log_at h self l →
  ∃ ext ext' text,
    Heap.time_report h self = Some (h ++ ext, text) ∧
    log_at (h ++ ext) self l ∧
    Heap.time_report (h ++ ext) self = Some ((h ++ ext) ++ ext', text) ∧
    time_report {| lst_time := l |} = Some ({| lst_time := l |}, text).
Proof.
  intros Hlog.
  destruct (time_report_refines h self l Hlog) as (ext & Hfirst).
  pose proof (log_at_app h ext self l Hlog) as Hlog'.
  destruct (time_report_refines (h ++ ext) self l Hlog') as (ext' & Hsecond).
  exists ext, ext', (join_lines (report_lines {| lst_time := l |}).*2).
  split; [done|]. split; [done|]. split; [done|]. apply time_report_spec.
Qed.

Lemma time_report_read_only_witness :
  ∃ ext ext' text,
    Heap.time_report heap_scenario.1 heap_scenario.2
      = Some (heap_scenario.1 ++ ext, text) ∧
    log_at (heap_scenario.1 ++ ext) heap_scenario.2 (lst_time scenario) ∧
    Heap.time_report (heap_scenario.1 ++ ext) heap_scenario.2
      = Some ((heap_scenario.1 ++ ext) ++ ext', text) ∧
    time_report {| lst_time := lst_time scenario |}
      = Some ({| lst_time := lst_time scenario |}, text).
Proof.
  apply (time_report_read_only heap_scenario.1 heap_scenario.2
           (lst_time scenario)).
  exists [1; 2; 3; 4]%nat. split; [reflexivity|].
  repeat (constructor; [reflexivity|]). constructor.
Defined.

(** C9: the duration and the line of label [B] depend on the events of [B]
    alone: two logs with the same events of [B], however the events of other
    labels are interleaved with them, give [B] the same duration and the same
    line; so does the log that holds the events of [B] only. *)
Theorem label_isolation (self self' : ECtimes) (B : string) :
  filter (λ s, st_group s = B) (lst_time self)
    = filter (λ s, st_group s = B) (lst_time self') →
  time_report self = Some (self, join_lines (report_lines self).*2) ∧
  time_report self' = Some (self', join_lines (report_lines self').*2) ∧
  duration_of self B = duration_of self' B ∧
  duration_of self B = duration_of (only B self) B ∧
  ∀ line, (B, line) ∈ report_lines self ↔ (B, line) ∈ report_lines self'.
Proof.
  intros Heq. split; [apply time_report_spec|]. split; [apply time_report_spec|].
  assert (duration_of self B = duration_of self' B) as Hd.
  { apply duration_of_perm. unfold entries. by rewrite Heq. }
  split; [done|]. split.
  - apply duration_of_perm. by rewrite entries_only.
  - intros line. by rewrite !elem_of_report_lines, Hd.
Qed.

Lemma label_isolation_witness :
  time_report interleaved
    = Some (interleaved, join_lines (report_lines interleaved).*2) ∧
  time_report not_interleaved
    = Some (not_interleaved, join_lines (report_lines not_interleaved).*2) ∧
  duration_of interleaved "B" = duration_of not_interleaved "B" ∧
  duration_of interleaved "B" = duration_of (only "B" interleaved) "B" ∧
  ∀ line, ("B", line) ∈ report_lines interleaved
            ↔ ("B", line) ∈ report_lines not_interleaved.
Proof. apply (label_isolation interleaved not_interleaved "B"). reflexivity. Defined.

(** C10: an event recorded with an invalid phase is stored with the marker
    and stays in the group of its label.  It counts in [len(series)]: after
    one more such event the label has a line exactly when its number of
    events was odd before.  It has an index in the sorted series, and the
    pair of the walk that holds it adds nothing, whatever the other event
    of the pair is.  Hence a label with one start, one stop and one such
    event has no line, and a label with an even number of such events and
    no other has the line ["group: <label> = 0.0 seconds"]; each of the two
    holds whatever else is in the log. *)
Theorem marker_events_counted (self : ECtimes) (g : string) :
  let series := entries g (lst_time self) in
  (∀ s, s ∈ lst_time self → st_group s = g → st_stst s = sentinel →
     group_stamps (lst_time self) !! g = Some series ∧
     slice1 s ∈ series ∧
     ∃ i, sort_slices series !! i = Some (slice1 s)) ∧
  (∀ now stst text, stst ∉ ["start"; "stop"] →
     let self' := (time_stamp now self g stst text).1 in
     entries g (lst_time self') = series ++ [Slice now sentinel text] ∧
     (g ∈ (report_lines self').*1 ↔ (length series `mod` 2 = 1)%nat)) ∧
  (∀ pre a b post,
     sort_slices series = pre ++ a :: b :: post →
     (length pre `mod` 2 = 0)%nat → (length post `mod` 2 = 0)%nat →
     sl_stst a = sentinel ∨ sl_stst b = sentinel →
     pair_walk (sort_slices series) = Some (pair_sum pre + pair_sum post) ∧
     duration_of self g = Some (pair_sum pre + pair_sum post)) ∧
  (∀ a b c,
     series ≡ₚ [a; b; c] →
     sl_stst a = "start" → sl_stst b = "stop" → sl_stst c = sentinel →
     duration_of self g = None ∧ g ∉ (report_lines self).*1) ∧
  (series ≠ [] →
   Forall (λ e, sl_stst e = sentinel) series →
   (length series `mod` 2 = 0)%nat →
   duration_of self g = Some 0 ∧
   (g, "group: " +:+ g +:+ " = 0.0 seconds") ∈ report_lines self) ∧
  time_report self = Some (self, join_lines (report_lines self).*2).
Proof.
  intros series.
  split; [|split; [|split; [|split; [|split; [|apply time_report_spec]]]]].
  - intros s Hs Hg Hm.
    assert (slice1 s ∈ series) as Hin
      by (apply list_elem_of_fmap_2, list_elem_of_filter; by split).
    split; [|split; [done|]].
    + rewrite group_stamps_lookup, decide_False; [done|].
      fold series. intros Hnil. rewrite Hnil in Hin. by inv Hin.
    + apply list_elem_of_lookup. by rewrite sort_slices_perm.
  - intros now stst text Hst self'.
    assert (entries g (lst_time self') = series ++ [Slice now sentinel text])
      as Hent.
    { unfold self', time_stamp. rewrite decide_True by done.
      cbn [fst lst_time]. unfold series, entries.
      rewrite filter_app, filter_cons_True by done.
      by rewrite filter_nil, fmap_app. }
    split; [done|].
    rewrite report_labels, duration_of_entries, Hent.
    rewrite decide_False by (by destruct series).
    unfold duration. rewrite length_app, Nat.add_1_r.
    case_decide as Hodd.
    + apply mod2_S in Hodd. split; [by intros [? ?]|done].
    + split; [intros _|done]. apply dec_stable. intros Hs.
      by apply Hodd, mod2_S.
  - intros pre a b post Hsort Hpre Hpost Hm.
    assert (length (pre ++ a :: b :: post) `mod` 2 = 0)%nat as Hlen.
    { apply length_app_even; [done|]. cbn [length]. by rewrite mod2_SS. }
    assert (pair_sum (pre ++ a :: b :: post) = pair_sum pre + pair_sum post)
      as Hsum.
    { rewrite pair_sum_app by done. cbn [pair_sum].
      rewrite pair_delta_marker by done. lia. }
    split.
    + by rewrite Hsort, pair_walk_even, Hsum.
    + rewrite duration_of_entries. fold series.
      rewrite decide_False
        by (intros Hnil; rewrite Hnil in Hsort; by destruct pre).
      unfold duration.
      rewrite <-(Permutation_length (sort_slices_perm series)), Hsort.
      rewrite decide_False by lia. by rewrite Hsum.
  - intros a b c Hp _ _ _.
    assert (duration_of self g = None) as Hd.
    { rewrite duration_of_entries. fold series. case_decide; [done|].
      unfold duration. by rewrite (Permutation_length Hp). }
    split; [done|]. rewrite report_labels, Hd. by intros [? ?].
  - intros Hne Hall Heven.
    assert (duration_of self g = Some 0) as Hd.
    { rewrite duration_of_entries. fold series. rewrite decide_False by done.
      unfold duration. rewrite decide_False by lia. f_equal.
      apply pair_sum_no_start. rewrite sort_slices_perm.
      eapply Forall_impl; [exact Hall|]. by intros e ->. }
    split; [done|]. apply elem_of_report_lines. by exists 0.
Qed.

Lemma marker_events_counted_witness :
  (duration_of start_pause_stop "x" = None ∧
   "x" ∉ (report_lines start_pause_stop).*1) ∧
  (duration_of two_others "x" = Some 0 ∧
   ("x", "group: " +:+ "x" +:+ " = 0.0 seconds") ∈ report_lines two_others) ∧
  ("x" ∈ (report_lines (time_stamp 3000000 start_pause_stop
                          "x" "pause" "").1).*1
   ↔ (length (entries "x" (lst_time start_pause_stop)) `mod` 2 = 1)%nat) ∧
  duration_of marker_between "x"
    = Some (pair_sum []
            + pair_sum [Slice 2000000 "stop" ""; Slice 3000000 sentinel ""]).
Proof.
  split; [|split; [|split]].
  - destruct (marker_events_counted start_pause_stop "x")
      as (_ & _ & _ & H & _).
    apply (H (Slice 0 "start" "") (Slice 2000000 "stop" "")
             (Slice 1000000 sentinel ""));
      [apply perm_skip, perm_swap|done..].
  - destruct (marker_events_counted two_others "x") as (_ & _ & _ & _ & H & _).
    apply H; [discriminate|repeat constructor|reflexivity].
  - destruct (marker_events_counted start_pause_stop "x") as (_ & H & _).
    apply (H 3000000 "pause" ""). apply (bool_decide_unpack _). by vm_compute.
  - destruct (marker_events_counted marker_between "x") as (_ & _ & H & _).
    apply (H [] (Slice 0 "start" "") (Slice 1000000 sentinel "")
             [Slice 2000000 "stop" ""; Slice 3000000 sentinel ""]);
      [by vm_compute|reflexivity|reflexivity|by right].
Defined.

(** ** The maintenance script: what a run does to the world outside *)

Section steps.

Context (R : relation world) `{!PreOrder R}.

Lemma steps_ret {A} (a : A) : steps R (ret_M a).
Proof. intros w w' r [= <- _]. reflexivity. Qed.

Lemma steps_raise {A} (e : exn) : steps R (@raise A e).
Proof. intros w w' r [= <- _]. reflexivity. Qed.

Lemma steps_bind {A B} (m : M A) (k : A → M B) :
  steps R m → (∀ a, steps R (k a)) → steps R (bind_M m k).
Proof.
  intros Hm Hk w w' r. unfold bind_M.
  destruct (m w) as [w1 [a|e]] eqn:Hrun.
  - intros Hrun'. etrans; [by eapply Hm|by eapply Hk].
  - intros [= <- _]. by eapply Hm.
Qed.

Lemma steps_try {A} (body : M A) (handler : exn → M A) :
  steps R body → (∀ e, steps R (handler e)) → steps R (try_except body handler).
Proof.
  intros Hm Hk w w' r. unfold try_except.
  destruct (body w) as [w1 [a|e]] eqn:Hrun.
  - intros [= <- _]. by eapply Hm.
  - intros Hrun'. etrans; [by eapply Hm|by eapply Hk].
Qed.

Lemma steps_for_each {A} (l : list A) (body : A → M unit) :
  (∀ x, x ∈ l → steps R (body x)) → steps R (for_each l body).
Proof.
  induction l as [|x l IH]; intros Hbody; simpl.
  - apply steps_ret.
  - apply steps_bind; [apply Hbody; left|].
    intros _. apply IH. intros y Hy. apply Hbody. by right.
Qed.

Lemma steps_fold {A B} (f : B → A → M B) (b : B) (l : list A) :
  (∀ b x, x ∈ l → steps R (f b x)) → steps R (fold_M f b l).
Proof.
  revert b. induction l as [|x l IH]; intros b Hbody; simpl.
  - apply steps_ret.
  - apply steps_bind; [apply Hbody; left|].
    intros b'. apply IH. intros b'' y Hy. apply Hbody. by right.
Qed.

End steps.

Global Instance emits_preorder (φ : event → Prop) : PreOrder (emits φ).
Proof.
  split.
  - intros w. exists []. by rewrite app_nil_r.
  - intros w1 w2 w3 (n1 & H1 & Hn1) (n2 & H2 & Hn2). exists (n1 ++ n2).
    split; [by rewrite H2, H1, app_assoc|by apply Forall_app].
Qed.

Section primitives.

Variable E : env.

Lemma emits_one (φ : event → Prop) (e : event) (w : world) :
  φ e →
  emits φ w (World (w_trace w ++ [e]) (w_ticks w) (w_workspace w) (w_timer w)).
Proof. intros He. exists [e]. split; [done|]. by constructor. Qed.

Lemma emits_none (φ : event → Prop) (w : world) (n : nat) (ws : string)
    (t : ECtimes) :
  emits φ w (World (w_trace w) n ws t).
Proof. exists []. split; [by rewrite app_nil_r|constructor]. Qed.

Lemma emits_emit φ e : φ e → steps (emits φ) (emit e).
Proof. intros He w w' r [= <- _]. by apply emits_one. Qed.

Lemma emits_log φ level msg : φ (Log level msg) → steps (emits φ) (log level msg).
Proof. apply emits_emit. Qed.

Lemma emits_print φ msg : φ (Print msg) → steps (emits φ) (print msg).
Proof. apply emits_emit. Qed.

Lemma emits_now φ : steps (emits φ) (now E).
Proof. intros w w' r [= <- _]. apply emits_none. Qed.

Lemma emits_set_workspace φ ws :
  φ (SetWorkspace ws) → steps (emits φ) (set_workspace ws).
Proof.
  intros He w w' r [= <- _]. exists [SetWorkspace ws].
  split; [done|]. by constructor.
Qed.

Lemma emits_get_workspace φ : steps (emits φ) get_workspace.
Proof. intros w w' r [= <- _]. reflexivity. Qed.

Lemma emits_describe φ ws :
  φ (Arcpy "Describe" [PStr ws] []) → steps (emits φ) (describe E ws).
Proof. intros He w w' r [= <- _]. by apply emits_one. Qed.

Lemma emits_arcpy_List φ name args kwargs :
  φ (Arcpy name args kwargs) → steps (emits φ) (arcpy_List E name args kwargs).
Proof. intros He w w' r [= <- _]. by apply emits_one. Qed.

Lemma emits_ListVersions φ con :
  φ (Arcpy "da.ListVersions" [PStr con] []) → steps (emits φ) (ListVersions E con).
Proof. intros He w w' r [= <- _]. by apply emits_one. Qed.

Lemma emits_arcpy_tool φ name args :
  φ (Arcpy name args []) → steps (emits φ) (arcpy_tool E name args).
Proof. intros He w w' r [= <- _]. by apply emits_one. Qed.

Lemma emits_GetMessages φ :
  φ (Arcpy "GetMessages" [] []) → steps (emits φ) (GetMessages E).
Proof. intros He w w' r [= <- _]. by apply emits_one. Qed.

Lemma emits_new_timer φ : steps (emits φ) new_timer.
Proof. intros w w' r [= <- _]. apply emits_none. Qed.

Lemma emits_timer_stamp φ group stst text :
  steps (emits φ) (timer_stamp E group stst text).
Proof. intros w w' r [= <- _]. apply emits_none. Qed.

Lemma emits_timer_report φ : steps (emits φ) timer_report.
Proof.
  intros w w' r. unfold timer_report.
  destruct (time_report (w_timer w)) as [[self text]|].
  - intros [= <- _]. apply emits_none.
  - intros [= <- _]. reflexivity.
Qed.

End primitives.

(** One step of the decomposition of a piece of script, chosen by the head
    of the piece. *)
Ltac steps_step :=
  lazymatch goal with
  | |- steps _ (bind_M _ _) => apply steps_bind; [apply _| |intros ?]
  | |- steps _ (try_except _ _) => apply steps_try; [apply _| |intros ?]
  | |- steps _ (for_each _ _) => apply steps_for_each; [apply _|intros ? ?]
  | |- steps _ (fold_M _ _ _) => apply steps_fold; [apply _|intros ? ? ?]
  | |- steps _ (ret_M _) => apply steps_ret; apply _
  | |- steps _ (raise _) => apply steps_raise; apply _
  | |- steps _ (now _) => apply emits_now
  | |- steps _ get_workspace => apply emits_get_workspace
  | |- steps _ new_timer => apply emits_new_timer
  | |- steps _ (timer_stamp _ _ _ _) => apply emits_timer_stamp
  | |- steps _ timer_report => apply emits_timer_report
  | |- steps _ (log _ _) => apply emits_log
  | |- steps _ (print _) => apply emits_print
  | |- steps _ (set_workspace _) => apply emits_set_workspace
  | |- steps _ (describe _ _) => apply emits_describe
  | |- steps _ (arcpy_List _ _ _ _) => apply emits_arcpy_List
  | |- steps _ (ListVersions _ _) => apply emits_ListVersions
  | |- steps _ (arcpy_tool _ _ _) => apply emits_arcpy_tool
  | |- steps _ (GetMessages _) => apply emits_GetMessages
  | |- steps _ (match ?x with _ => _ end) => destruct x
  | |- steps _ (if ?x then _ else _) => destruct x
  end.

(** Pieces of script are taken apart down to the calls they make. *)
Ltac unfold_script :=
  unfold pm_greet, pm_block, pm_list_data, pm_analyze1, pm_compress,
    pm_rebuild, pm_analyze2, pm_unblock, pm_report, pm_done,
    analyze_data_owner, analyze_sde, compress, rebuild_indexes,
    list_datasets, add_lists, iter,
    get_sde_id, lookup_data, concat_str, since, in_mode, or_M.

Ltac script_tac :=
  unfold_script; repeat steps_step;
  first [reflexivity | split; reflexivity | idtac].

Section chunks.

Variable E : env.

Lemma quiet_pm_greet dba geo mode : steps (emits quiet) (pm_greet E dba geo mode).
Proof. script_tac. Qed.

Lemma quiet_pm_block dba mode : steps (emits quiet) (pm_block E dba mode).
Proof. script_tac. Qed.

Lemma quiet_pm_list_data cons mode : steps (emits quiet) (pm_list_data E cons mode).
Proof. script_tac. Qed.

Lemma quiet_pm_analyze1 dba cons mode pat d :
  steps (emits quiet) (pm_analyze1 E dba cons mode pat d).
Proof. script_tac. Qed.

Lemma quiet_pm_compress dba mode : steps (emits quiet) (pm_compress E dba mode).
Proof. script_tac. Qed.

Lemma quiet_pm_rebuild dba cons mode pat d :
  steps (emits quiet) (pm_rebuild E dba cons mode pat d).
Proof. script_tac. Qed.

Lemma quiet_pm_analyze2 dba cons mode pat d :
  steps (emits quiet) (pm_analyze2 E dba cons mode pat d).
Proof. script_tac. Qed.

(** Before the block: the versions of the connections and nothing else. *)
Lemma versions_pm_greet dba geo mode :
  steps (emits (λ ev, arcpy_in ["da.ListVersions"] ev = true))
    (pm_greet E dba geo mode).
Proof. script_tac. Qed.

(** Between the block and its release. *)
Lemma blocked_pm_list_data cons mode :
  steps (emits (λ ev, arcpy_in blocked_calls ev = true))
    (pm_list_data E cons mode).
Proof. script_tac. Qed.

Lemma blocked_pm_analyze1 dba cons mode pat d :
  steps (emits (λ ev, arcpy_in blocked_calls ev = true))
    (pm_analyze1 E dba cons mode pat d).
Proof. script_tac. Qed.

Lemma blocked_pm_compress dba mode :
  steps (emits (λ ev, arcpy_in blocked_calls ev = true))
    (pm_compress E dba mode).
Proof. script_tac. Qed.

Lemma blocked_pm_rebuild dba cons mode pat d :
  steps (emits (λ ev, arcpy_in blocked_calls ev = true))
    (pm_rebuild E dba cons mode pat d).
Proof. script_tac. Qed.

Lemma blocked_pm_analyze2 dba cons mode pat d :
  steps (emits (λ ev, arcpy_in blocked_calls ev = true))
    (pm_analyze2 E dba cons mode pat d).
Proof. script_tac. Qed.

(** After the release: records only. *)
Lemma silent_pm_report mode :
  steps (emits (λ ev, arcpy_in [] ev = true)) (pm_report mode).
Proof. script_tac. Qed.

Lemma silent_pm_done t0 :
  steps (emits (λ ev, arcpy_in [] ev = true)) (pm_done E t0).
Proof. script_tac. Qed.

End chunks.

Section raises.

Variable E : env.

Lemma emits_run {A} (φ : event → Prop) (m : M A) w w' r :
  steps (emits φ) m → m w = (w', r) → emits φ w w'.
Proof. intros Hm Hrun. by eapply Hm. Qed.

Lemma py_in_Ok kw kw' mode b :
  py_in kw mode = Ok b → ∃ b', py_in kw' mode = Ok b'.
Proof. destruct mode; simpl; intros [= <-]; eauto. Qed.

Lemma quiet_no_report new text :
  Forall quiet new → Log "info" ("Time profile report:" +:+ text) ∉ new.
Proof.
  intros Hall Hin. rewrite Forall_forall in Hall.
  destruct (Hall _ Hin) as [_ Hrep]. discriminate Hrep.
Qed.

Lemma pm_report_Ok mode b w :
  py_in "report" mode = Ok b → ∃ w', pm_report mode w = (w', Ok tt).
Proof.
  intros Hb. unfold pm_report, bind_M, in_mode. rewrite Hb. unfold ret_M.
  destruct b; [|eexists; reflexivity]. simpl. unfold timer_report.
  rewrite time_report_spec. eexists. reflexivity.
Qed.

Lemma pm_done_Ok t0 w : ∃ w', pm_done E t0 w = (w', Ok tt).
Proof. unfold pm_done, bind_M, now, log, emit. by eexists. Qed.

Ltac chain H :=
  unfold bind_M in H at 1;
  match type of H with
  | context [match ?m ?w with _ => _ end] =>
      let Hrun := fresh "Hrun" in
      destruct (m w) as [? [?|?]] eqn:Hrun
  end.

(** X8: a run that raises has logged no time profile and has not released
    the block: [arcpy.AcceptConnections(con_dba, True)] was not called, or
    it was the last call of the run and is what raised. *)
Theorem perform_maintenance_raises dba geo mode pat w w' e :
  perform_maintenance E dba geo mode pat w = (w', Raise e) →
  ∃ new,
    w_trace w' = w_trace w ++ new ∧
    (∀ text, Log "info" ("Time profile report:" +:+ text) ∉ new) ∧
    (Forall (λ ev, releases ev = false) new ∨
     ∃ pre,
       new = pre ++ [Arcpy "AcceptConnections" [PStr dba; PBool true] []] ∧
       Forall (λ ev, releases ev = false) pre ∧
       arcpy_run E (w_trace w ++ pre) "AcceptConnections"
         [PStr dba; PBool true] = Some e).
Proof.
  intros H. unfold perform_maintenance in H.
  assert (∀ w1, emits quiet w w1 → w' = w1 →
    ∃ new, w_trace w' = w_trace w ++ new ∧
      (∀ text, Log "info" ("Time profile report:" +:+ text) ∉ new) ∧
      (Forall (λ ev, releases ev = false) new ∨
       ∃ pre,
         new = pre ++ [Arcpy "AcceptConnections" [PStr dba; PBool true] []] ∧
         Forall (λ ev, releases ev = false) pre ∧
         arcpy_run E (w_trace w ++ pre) "AcceptConnections"
           [PStr dba; PBool true] = Some e)) as Hquiet.
  { intros w1 (new & Htrace & Hall) ->. exists new. split; [done|].
    split; [intros text; by apply quiet_no_report|].
    left. eapply Forall_impl; [exact Hall|]. by intros ev [? _]. }
  chain H; [|injection H as <- <-; eapply Hquiet; [|done];
             eapply emits_run; [apply quiet_pm_greet|done]].
  pose proof (emits_run _ _ _ _ _ (quiet_pm_greet E dba geo mode) Hrun) as Q1.
  destruct a as [t0 cons].
  chain H; [|injection H as <- <-; eapply Hquiet; [|done];
             etrans; [exact Q1|];
             eapply emits_run; [apply quiet_pm_block|done]].
  pose proof (emits_run _ _ _ _ _ (quiet_pm_block E dba mode) Hrun0) as Q2.
  assert (emits quiet w w1) as Q by (by etrans). clear Q1 Q2.
  chain H; [|injection H as <- <-; eapply Hquiet; [|done];
             etrans; [exact Q|];
             eapply emits_run; [apply emits_timer_stamp|done]].
  assert (emits quiet w w2) as Q'.
  { etrans; [exact Q|]. eapply emits_run; [apply emits_timer_stamp|done]. }
  clear Q. rename Q' into Q.
  chain H; [|injection H as <- <-; eapply Hquiet; [|done];
             etrans; [exact Q|];
             eapply emits_run; [apply quiet_pm_list_data|done]].
  assert (emits quiet w w3) as Q'.
  { etrans; [exact Q|]. eapply emits_run; [apply quiet_pm_list_data|done]. }
  clear Q. rename Q' into Q.
  chain H; [|injection H as <- <-; eapply Hquiet; [|done];
             etrans; [exact Q|];
             eapply emits_run; [apply quiet_pm_analyze1|done]].
  assert (emits quiet w w4) as Q'.
  { etrans; [exact Q|]. eapply emits_run; [apply quiet_pm_analyze1|done]. }
  clear Q. rename Q' into Q.
  chain H; [|injection H as <- <-; eapply Hquiet; [|done];
             etrans; [exact Q|];
             eapply emits_run; [apply quiet_pm_compress|done]].
  assert (emits quiet w w5) as Q'.
  { etrans; [exact Q|]. eapply emits_run; [apply quiet_pm_compress|done]. }
  clear Q. rename Q' into Q.
  chain H; [|injection H as <- <-; eapply Hquiet; [|done];
             etrans; [exact Q|];
             eapply emits_run; [apply quiet_pm_rebuild|done]].
  assert (emits quiet w w6) as Q'.
  { etrans; [exact Q|]. eapply emits_run; [apply quiet_pm_rebuild|done]. }
  clear Q. rename Q' into Q.
  chain H; [|injection H as <- <-; eapply Hquiet; [|done];
             etrans; [exact Q|];
             eapply emits_run; [apply quiet_pm_analyze2|done]].
  assert (emits quiet w w7) as Q'.
  { etrans; [exact Q|]. eapply emits_run; [apply quiet_pm_analyze2|done]. }
  clear Q. rename Q' into Q.
  chain H; [|injection H as <- <-; eapply Hquiet; [|done];
             etrans; [exact Q|];
             eapply emits_run; [apply emits_timer_stamp|done]].
  assert (emits quiet w w8) as Q'.
  { etrans; [exact Q|]. eapply emits_run; [apply emits_timer_stamp|done]. }
  clear Q. rename Q' into Q.
  assert (∃ b, py_in "block" mode = Ok b) as [b Hb].
  { unfold pm_block, bind_M, in_mode in Hrun0.
    destruct (py_in "block" mode) as [b|]; [eauto|discriminate]. }
  destruct (py_in_Ok "block" "report" mode b Hb) as [b' Hb'].
  chain H.
  - chain H.
    + destruct (pm_done_Ok t0 w10) as [w11 Hdone]. congruence.
    + destruct (pm_report_Ok mode b' w9 Hb') as [w11 Hrep]. congruence.
  - injection H as <- <-.
    unfold pm_unblock, bind_M, in_mode in Hrun8. rewrite Hb in Hrun8.
    unfold ret_M in Hrun8. destruct b; [|discriminate].
    unfold arcpy_tool, answer in Hrun8. injection Hrun8 as <- Hrel.
    destruct Q as (new & Htrace & Hall).
    exists (new ++ [Arcpy "AcceptConnections" [PStr dba; PBool true] []]).
    simpl. rewrite Htrace, app_assoc. split; [done|]. split.
    + intros text [Hin|Hin]%elem_of_app.
      * by apply (quiet_no_report new text).
      * apply list_elem_of_singleton in Hin. discriminate Hin.
    + right. exists new. split; [done|]. split.
      * eapply Forall_impl; [exact Hall|]. by intros ev [? _].
      * rewrite <-Htrace.
        by destruct (arcpy_run E (w_trace w8) "AcceptConnections"
                       [PStr dba; PBool true]); simplify_eq.
Qed.

End raises.

Section bracket.

Variable E : env.

Lemma bind_Ok_inv {A B} (m : M A) (k : A → M B) w w' b :
  bind_M m k w = (w', Ok b) →
  ∃ w1 a, m w = (w1, Ok a) ∧ k a w1 = (w', Ok b).
Proof.
  unfold bind_M. destruct (m w) as [w1 [a|e]]; [|discriminate].
  intros H. by exists w1, a.
Qed.

(** The chunks of a run of [perform_maintenance] that returns. *)
Lemma perform_maintenance_Ok_inv dba geo mode pat w w' :
  perform_maintenance E dba geo mode pat w = (w', Ok tt) →
  ∃ t0 cons d w1 w2 w3 w4 w5 w6 w7 w8 w9 w10 w11,
    pm_greet E dba geo mode w = (w1, Ok (t0, cons)) ∧
    pm_block E dba mode w1 = (w2, Ok tt) ∧
    timer_stamp E "main" "start" "" w2 = (w3, Ok tt) ∧
    pm_list_data E cons mode w3 = (w4, Ok d) ∧
    pm_analyze1 E dba cons mode pat d w4 = (w5, Ok tt) ∧
    pm_compress E dba mode w5 = (w6, Ok tt) ∧
    pm_rebuild E dba cons mode pat d w6 = (w7, Ok tt) ∧
    pm_analyze2 E dba cons mode pat d w7 = (w8, Ok tt) ∧
    timer_stamp E "main" "stop" "" w8 = (w9, Ok tt) ∧
    pm_unblock E dba mode w9 = (w10, Ok tt) ∧
    pm_report mode w10 = (w11, Ok tt) ∧
    pm_done E t0 w11 = (w', Ok tt).
Proof.
  unfold perform_maintenance. intros H.
  apply bind_Ok_inv in H as (w1 & [t0 cons] & H1 & H).
  apply bind_Ok_inv in H as (w2 & [] & H2 & H).
  apply bind_Ok_inv in H as (w3 & [] & H3 & H).
  apply bind_Ok_inv in H as (w4 & d & H4 & H).
  apply bind_Ok_inv in H as (w5 & [] & H5 & H).
  apply bind_Ok_inv in H as (w6 & [] & H6 & H).
  apply bind_Ok_inv in H as (w7 & [] & H7 & H).
  apply bind_Ok_inv in H as (w8 & [] & H8 & H).
  apply bind_Ok_inv in H as (w9 & [] & H9 & H).
  apply bind_Ok_inv in H as (w10 & [] & H10 & H).
  apply bind_Ok_inv in H as (w11 & [] & H11 & H).
  exists t0, cons, d, w1, w2, w3, w4, w5, w6, w7, w8, w9, w10, w11.
  repeat (split; [assumption|]). assumption.
Qed.

(** With ['block'] in the mode, the first thing [pm_block] does is the
    block; what may follow is the kick. *)
Lemma pm_block_run dba mode w w' r :
  py_in "block" mode = Ok true →
  pm_block E dba mode w = (w', r) →
  ∃ rest,
    w_trace w' = w_trace w
      ++ Arcpy "AcceptConnections" [PStr dba; PBool false] [] :: rest ∧
    Forall (λ ev, arcpy_in blocked_calls ev = true) rest.
Proof.
  intros Hb. unfold pm_block, in_mode. rewrite Hb.
  destruct (py_in_Ok "block" "kick" mode true Hb) as [b' ->].
  unfold bind_M, ret_M, arcpy_tool, answer, called. simpl.
  destruct (arcpy_run E (w_trace w) "AcceptConnections" _).
  - intros [= <- _]. exists []. by split.
  - destruct b'; simpl.
    + destruct (arcpy_run E _ "DisconnectUser" _); intros [= <- _]; simpl;
        rewrite <-app_assoc; eexists; (split; [done|]); by repeat constructor.
    + intros [= <- _]. exists []. by split.
Qed.

Lemma pm_unblock_run dba mode w w' :
  py_in "block" mode = Ok true →
  pm_unblock E dba mode w = (w', Ok tt) →
  w_trace w' = w_trace w
    ++ [Arcpy "AcceptConnections" [PStr dba; PBool true] []].
Proof.
  intros Hb. unfold pm_unblock, in_mode. rewrite Hb.
  unfold bind_M, ret_M, arcpy_tool, answer, called. simpl.
  by intros [= <-].
Qed.

(** X9: a run with ['block'] in the mode that returns has blocked the
    connections once and released them once; before the block it has called
    nothing of [arcpy] but [da.ListVersions], every listing and every tool
    was called between the block and the release, and nothing of [arcpy]
    after the release. *)
Theorem perform_maintenance_bracket dba geo mode pat w w' :
  py_in "block" mode = Ok true →
  perform_maintenance E dba geo mode pat w = (w', Ok tt) →
  ∃ pre mid post,
    w_trace w' = w_trace w ++ pre
      ++ Arcpy "AcceptConnections" [PStr dba; PBool false] [] :: mid
      ++ Arcpy "AcceptConnections" [PStr dba; PBool true] [] :: post ∧
    Forall (λ ev, arcpy_in ["da.ListVersions"] ev = true) pre ∧
    Forall (λ ev, arcpy_in blocked_calls ev = true) mid ∧
    Forall (λ ev, arcpy_in [] ev = true) post.
Proof.
  intros Hb H.
  apply perform_maintenance_Ok_inv in H
    as (t0 & cons & d & w1 & w2 & w3 & w4 & w5 & w6 & w7 & w8 & w9 & w10 & w11
        & H1 & H2 & H3 & H4 & H5 & H6 & H7 & H8 & H9 & H10 & H11 & H12).
  apply (emits_run _ _ _ _ _ (versions_pm_greet E dba geo mode)) in H1
    as (pre & T1 & Hpre).
  apply (pm_block_run dba mode _ _ _ Hb) in H2 as (kick & T2 & Hkick).
  assert (emits (λ ev, arcpy_in blocked_calls ev = true) w2 w9)
    as (mid & Tmid & Hmid).
  { etrans; [eapply emits_run; [apply emits_timer_stamp|exact H3]|].
    etrans; [eapply emits_run; [apply blocked_pm_list_data|exact H4]|].
    etrans; [eapply emits_run; [apply blocked_pm_analyze1|exact H5]|].
    etrans; [eapply emits_run; [apply blocked_pm_compress|exact H6]|].
    etrans; [eapply emits_run; [apply blocked_pm_rebuild|exact H7]|].
    etrans; [eapply emits_run; [apply blocked_pm_analyze2|exact H8]|].
    eapply emits_run; [apply emits_timer_stamp|exact H9]. }
  apply (pm_unblock_run dba mode _ _ Hb) in H10.
  assert (emits (λ ev, arcpy_in [] ev = true) w10 w') as (post & Tpost & Hpost).
  { etrans; [eapply emits_run; [apply silent_pm_report|exact H11]|].
    eapply emits_run; [apply silent_pm_done|exact H12]. }
  exists pre, (kick ++ mid), post. split; [|split; [done|split; [|done]]].
  - rewrite Tpost, H10, Tmid, T2, T1. by simplify_list_eq.
  - by apply Forall_app.
Qed.

End bracket.

(** ** The mode [['report']] and the modes of the command line *)

Section report_only.

Variable E : env.

Lemma report_only_skips dba cons pat :
  pm_block E dba (PList ["report"]) = ret_M tt ∧
  pm_list_data E cons (PList ["report"]) = ret_M None ∧
  (∀ d, pm_analyze1 E dba cons (PList ["report"]) pat d = ret_M tt) ∧
  pm_compress E dba (PList ["report"]) = ret_M tt ∧
  (∀ d, pm_rebuild E dba cons (PList ["report"]) pat d = ret_M tt) ∧
  (∀ d, pm_analyze2 E dba cons (PList ["report"]) pat d = ret_M tt) ∧
  pm_unblock E dba (PList ["report"]) = ret_M tt.
Proof. repeat split; reflexivity. Qed.

Lemma report_only_steps dba geo pat :
  steps (emits (λ ev, arcpy_in ["da.ListVersions"] ev = true))
    (perform_maintenance E dba geo (PList ["report"]) pat).
Proof.
  unfold perform_maintenance.
  apply steps_bind; [apply _|apply versions_pm_greet|]. intros [t0 cons].
  destruct (report_only_skips dba cons pat)
    as (-> & -> & H1 & -> & H2 & H3 & ->).
  repeat steps_step. rewrite H1. repeat steps_step.
  rewrite H2. repeat steps_step. rewrite H3. repeat steps_step.
  all: script_tac.
Qed.

(** X10: with the mode [['report']] a run calls nothing of [arcpy] but
    [da.ListVersions], whether it returns or raises: no data set is listed
    and no tool is run. *)
Theorem perform_maintenance_report_only dba geo pat w w' r :
  perform_maintenance E dba geo (PList ["report"]) pat w = (w', r) →
  ∃ new,
    w_trace w' = w_trace w ++ new ∧
    Forall (λ ev, arcpy_in ["da.ListVersions"] ev = true) new.
Proof. apply report_only_steps. Qed.

(** What [pm_greet] returns for a connection given as a string. *)
Lemma pm_greet_cons dba geo mode w w' t0 cons :
  pm_greet E dba (PStr geo) mode w = (w', Ok (t0, cons)) → cons = [geo].
Proof.
  unfold pm_greet. intros H.
  do 9 (apply bind_Ok_inv in H as (? & ? & _ & H)).
  apply bind_Ok_inv in H as (? & ? & [= _ <-] & H).
  do 2 (apply bind_Ok_inv in H as (? & ? & _ & H)).
  by injection H as _ _ <-.
Qed.

(** Step 1 for a mode given as a string and one connection. *)
Lemma pm_list_data_str geo mode w w' d :
  pm_list_data E [geo] (PStr mode) w = (w', Ok d) →
  ∃ new,
    w_trace w' = w_trace w ++ new ∧
    Log "info" "   1. Get List Of Data Sets" ∈ new ∧
    SetWorkspace geo ∈ new.
Proof.
  unfold pm_list_data. rewrite decide_True by done. intros H.
  apply bind_Ok_inv in H as (w1 & [] & [= <-] & H).
  apply bind_Ok_inv in H as (w2 & [] & [= <-] & H).
  apply bind_Ok_inv in H as (w3 & m & H & [w4 [[] [[= <-] [= <- _]]]]%bind_Ok_inv).
  simpl in H.
  apply bind_Ok_inv in H as (w5 & m' & H & [= <- _]).
  apply bind_Ok_inv in H as (w6 & l & H & [= <- _]).
  unfold list_datasets in H.
  apply bind_Ok_inv in H as (w7 & [] & Hs & H).
  assert (emits (λ _, True) w7 w6) as (rest & Hrest & _).
  { eapply emits_run; [|exact H]. script_tac. }
  injection Hs as <-. simpl in Hrest. simpl. rewrite Hrest.
  exists (Log "info" "   1. Get List Of Data Sets" :: SetWorkspace geo :: rest).
  split; [by rewrite <-!app_assoc|]. set_solver.
Qed.

(** A run that returns: the trace up to step 1 and from step 1b on. *)
Lemma perform_maintenance_Ok_grows dba geo mode pat w w' :
  perform_maintenance E dba geo mode pat w = (w', Ok tt) →
  ∃ t0 cons d w1 w3 w4,
    pm_greet E dba geo mode w = (w1, Ok (t0, cons)) ∧
    emits (λ _, True) w w3 ∧
    pm_list_data E cons mode w3 = (w4, Ok d) ∧
    emits (λ _, True) w4 w'.
Proof.
  intros H.
  apply perform_maintenance_Ok_inv in H
    as (t0 & cons & d & w1 & w2 & w3 & w4 & w5 & w6 & w7 & w8 & w9 & w10 & w11
        & H1 & H2 & H3 & H4 & H5 & H6 & H7 & H8 & H9 & H10 & H11 & H12).
  exists t0, cons, d, w1, w3, w4. split; [done|].
  split; [|split; [done|]].
  - etrans; [eapply emits_run; [|exact H1]; script_tac|].
    etrans; [eapply emits_run; [|exact H2]; script_tac|].
    eapply emits_run; [|exact H3]; script_tac.
  - etrans; [eapply emits_run; [|exact H5]; script_tac|].
    etrans; [eapply emits_run; [|exact H6]; script_tac|].
    etrans; [eapply emits_run; [|exact H7]; script_tac|].
    etrans; [eapply emits_run; [|exact H8]; script_tac|].
    etrans; [eapply emits_run; [|exact H9]; script_tac|].
    etrans; [eapply emits_run; [|exact H10]; script_tac|].
    etrans; [eapply emits_run; [|exact H11]; script_tac|].
    eapply emits_run; [|exact H12]; script_tac.
Qed.

(** X11: [main] with other than four arguments prints the usage and calls
    nothing; with four, a run that returns has listed the data sets of the
    connection, whatever the mode: a mode from the command line is a string
    and never equal to [['report']]. *)
Theorem main_lists_data file argv w w' :
  main E file argv w = (w', Ok tt) →
  ∃ new,
    w_trace w' = w_trace w ++ new ∧
    if decide (length argv = 5%nat) then
      Log "info" "   1. Get List Of Data Sets" ∈ new ∧
      ∃ geo, argv !! 2%nat = Some geo ∧ SetWorkspace geo ∈ new
    else new = [Print ("Usage: " +:+ file +:+ " CONN_SDE CONN_DO MODE ID_REGEX")].
Proof.
  destruct argv as [|a0 [|dba [|geo [|mode [|pat [|extra argv]]]]]];
    [intros [= <-]; by eexists..| |intros [= <-]; by eexists].
  unfold main. intros H.
  apply perform_maintenance_Ok_grows in H
    as (t0 & cons & d & w1 & w3 & w4 & H1 & (pre & T1 & _) & H4
        & (post & T2 & _)).
  apply pm_greet_cons in H1 as ->.
  apply pm_list_data_str in H4 as (mid & Tmid & Hlog & Hset).
  exists (pre ++ mid ++ post). split.
  - rewrite T2, Tmid, T1. by rewrite <-!app_assoc.
  - simpl. split; [set_solver|]. exists geo. split; [done|set_solver].
Qed.


End report_only.

(** ** The data sets of the connections are there when they are read *)

Section never.

Variable E : env.
Variable e : exn.

Lemma never_ret {A} (a : A) : never e (ret_M a).
Proof. by intros w w'. Qed.

Lemma never_raise {A} (e' : exn) : e' ≠ e → never e (@raise A e').
Proof. intros Hne w w' [= _ ->]. done. Qed.

(** What follows may rely on what the first piece returns. *)
Lemma never_bind {A B} (Q : A → Prop) (m : M A) (k : A → M B) :
  never e m →
  (∀ w w' a, m w = (w', Ok a) → Q a) →
  (∀ a, Q a → never e (k a)) →
  never e (bind_M m k).
Proof.
  intros Hm HQ Hk w w'. unfold bind_M.
  destruct (m w) as [w1 [a|e']] eqn:Hrun.
  - eapply Hk, HQ, Hrun.
  - intros [= <- ->]. by eapply Hm.
Qed.

Lemma never_seq {A B} (m : M A) (k : A → M B) :
  never e m → (∀ a, never e (k a)) → never e (bind_M m k).
Proof.
  intros Hm Hk. apply never_bind with (Q := λ _, True); [done|done|].
  intros a _. apply Hk.
Qed.

Lemma never_try {A} (body : M A) (handler : exn → M A) :
  (∀ x, never e (handler x)) → never e (try_except body handler).
Proof.
  intros Hk w w'. unfold try_except.
  destruct (body w) as [w1 [a|e']]; [done|]. apply Hk.
Qed.

Lemma never_for_each {A} (l : list A) (body : A → M unit) :
  (∀ x, x ∈ l → never e (body x)) → never e (for_each l body).
Proof.
  induction l as [|x l IH]; intros Hbody; simpl.
  - apply never_ret.
  - apply never_seq; [apply Hbody; left|].
    intros _. apply IH. intros y Hy. apply Hbody. by right.
Qed.

Lemma never_fold {A B} (f : B → A → M B) (b : B) (l : list A) :
  (∀ b x, never e (f b x)) → never e (fold_M f b l).
Proof.
  revert b. induction l as [|x l IH]; intros b Hbody; simpl.
  - apply never_ret.
  - apply never_seq; [apply Hbody|]. intros b'. by apply IH.
Qed.

Lemma never_emit ev : never e (emit ev).
Proof. by intros w w'. Qed.

Lemma never_now : never e (now E).
Proof. by intros w w'. Qed.

Lemma never_timer_stamp group stst text : never e (timer_stamp E group stst text).
Proof. by intros w w'. Qed.

Lemma never_timer_report : never e timer_report.
Proof.
  intros w w'. unfold timer_report. by rewrite time_report_spec.
Qed.

Lemma never_in_mode kw mode : e ≠ TypeError → never e (in_mode kw mode).
Proof.
  intros Hne w w'. unfold in_mode.
  destruct mode; simpl; unfold ret_M, raise; intros H; by simplify_eq.
Qed.

Lemma never_lookup_data d cons con :
  covers d cons → con ∈ cons → never e (lookup_data d con).
Proof.
  intros (m & -> & Hm) Hcon w w'. unfold lookup_data.
  by destruct (Hm con Hcon) as [l ->].
Qed.

Hypothesis world_never : env_never E e.

Lemma never_describe ws : never e (describe E ws).
Proof.
  intros w w' [= _ H]. by apply world_never in H.
Qed.

Lemma never_arcpy_List name args kwargs :
  never e (arcpy_List E name args kwargs).
Proof.
  intros w w' [= _ H]. by apply world_never in H.
Qed.

Lemma never_ListVersions con : never e (ListVersions E con).
Proof.
  intros w w' [= _ H]. by apply world_never in H.
Qed.

Lemma never_arcpy_tool name args : never e (arcpy_tool E name args).
Proof.
  intros w w'. unfold arcpy_tool, answer.
  destruct (arcpy_run E (w_trace w) name args) as [e'|] eqn:Hrun; [|done].
  intros [= _ ->]. by apply world_never in Hrun.
Qed.

Lemma never_GetMessages : never e (GetMessages E).
Proof.
  intros w w' [= _ H]. by apply world_never in H.
Qed.

End never.

(** The exceptions of the statement are not the ones the script raises
    elsewhere. *)
Ltac own_ne :=
  let H := fresh in
  intros H;
  match goal with
  | Ho : _ = UnboundLocalError ∨ _ = KeyError |- _ => destruct Ho; congruence
  end.

Ltac never_step :=
  lazymatch goal with
  | |- never _ (bind_M _ _) => apply never_seq; [|intros ?]
  | |- never _ (try_except _ _) => apply never_try; intros ?
  | |- never _ (for_each _ _) => apply never_for_each; intros ? ?
  | |- never _ (fold_M _ _ _) => apply never_fold; intros ? ?
  | |- never _ (ret_M _) => apply never_ret
  | |- never _ (raise _) => apply never_raise; own_ne
  | |- never _ (now _) => apply never_now
  | |- never _ get_workspace => by intros ??
  | |- never _ new_timer => by intros ??
  | |- never _ (timer_stamp _ _ _ _) => apply never_timer_stamp
  | |- never _ timer_report => apply never_timer_report
  | |- never _ (log _ _) => apply never_emit
  | |- never _ (print _) => apply never_emit
  | |- never _ (set_workspace _) => by intros ??
  | |- never _ (in_mode _ _) => apply never_in_mode; own_ne
  | |- never _ (lookup_data _ _) => eapply never_lookup_data; eassumption
  | |- never _ (describe _ _) => by apply never_describe
  | |- never _ (arcpy_List _ _ _ _) => by apply never_arcpy_List
  | |- never _ (ListVersions _ _) => by apply never_ListVersions
  | |- never _ (arcpy_tool _ _ _) => by apply never_arcpy_tool
  | |- never _ (GetMessages _) => by apply never_GetMessages
  | |- never _ (match ?x with _ => _ end) => destruct x
  | |- never _ (if ?x then _ else _) => destruct x
  end.

Ltac never_tac :=
  unfold pm_greet, pm_block, pm_list_data, pm_analyze1, pm_compress,
    pm_rebuild, pm_analyze2, pm_unblock, pm_report, pm_done,
    analyze_data_owner, analyze_sde, compress, rebuild_indexes,
    list_datasets, add_lists, iter,
    get_sde_id, concat_str, since, or_M;
  repeat never_step.

Section data_bound.

Variable E : env.
Variable e : exn.
Hypothesis own : e = UnboundLocalError ∨ e = KeyError.
Hypothesis world_never : env_never E e.

(** Once step 1 is over every connection has its key. *)
Lemma list_data_fold cons (d0 : gmap string (list string)) w w' m :
  fold_M (λ d con,
            data_lst ←← list_datasets E con ;;
            ret_M (<[con := data_lst]> d)) d0 cons w = (w', Ok m) →
  ∀ con, con ∈ cons ∨ is_Some (d0 !! con) → is_Some (m !! con).
Proof.
  revert d0 w. induction cons as [|c cons IH]; intros d0 w; simpl.
  - intros [= _ <-] con [Hin|?]; [|done]. by apply elem_of_nil in Hin.
  - intros H.
    apply bind_Ok_inv in H as (w1 & d1 & H1 & H).
    apply bind_Ok_inv in H1 as (w2 & l & _ & [= _ <-]).
    intros con Hcon. apply (IH _ _ H).
    destruct (decide (con = c)) as [->|Hne].
    + right. by rewrite lookup_insert_eq.
    + rewrite lookup_insert_ne by done.
      destruct Hcon as [Hin|?]; [|by right]. left.
      apply elem_of_cons in Hin as [?|?]; [done|done].
Qed.

Lemma pm_list_data_covers cons mode w w' d :
  pm_list_data E cons mode w = (w', Ok d) →
  mode = PList ["report"] ∨ covers d cons.
Proof.
  unfold pm_list_data. case_decide as Hmode.
  - intros H. right.
    do 2 (apply bind_Ok_inv in H as (? & ? & _ & H)).
    apply bind_Ok_inv in H as (w1 & m & H & H').
    apply bind_Ok_inv in H' as (? & ? & _ & [= _ <-]).
    exists m. split; [done|]. intros con Hcon.
    apply (list_data_fold _ _ _ _ _ H). by left.
  - intros _. left. by destruct (decide (mode = PList ["report"])).
Qed.

Lemma never_rest dba cons mode pat d t0 :
  mode = PList ["report"] ∨ covers d cons →
  never e
    (pm_analyze1 E dba cons mode pat d ;;;
     pm_compress E dba mode ;;;
     pm_rebuild E dba cons mode pat d ;;;
     pm_analyze2 E dba cons mode pat d ;;;
     timer_stamp E "main" "stop" "" ;;;
     pm_unblock E dba mode ;;;
     pm_report mode ;;;
     pm_done E t0).
Proof.
  intros [->|Hd].
  - destruct (report_only_skips E dba cons pat)
      as (_ & _ & -> & -> & -> & -> & ->).
    never_tac.
  - never_tac.
Qed.

Lemma perform_maintenance_never dba geo mode pat :
  never e (perform_maintenance E dba geo mode pat).
Proof.
  unfold perform_maintenance.
  apply never_seq; [never_tac|]. intros [t0 cons].
  apply never_seq; [never_tac|]. intros _.
  apply never_seq; [apply never_timer_stamp|]. intros _.
  eapply never_bind; [|intros ???; by apply pm_list_data_covers|].
  - never_tac.
  - intros d Hd. by apply never_rest.
Qed.

End data_bound.

(** X12: [dict_conn2versions], which is bound only when the mode is not
    [['report']], is never read unbound, and never at a key it does not
    have: unless the world outside raises them, no run raises
    [UnboundLocalError] or [KeyError]. *)
Theorem perform_maintenance_data_bound (E : env) (e : exn)
    (dba : string) (geo mode : pyval) (pat : string) (w w' : world) :
  e = UnboundLocalError ∨ e = KeyError →
  env_never E e →
  perform_maintenance E dba geo mode pat w ≠ (w', Raise e).
Proof. intros own Hnever. by apply (perform_maintenance_never E e own Hnever). Qed.

(** ** [rebuild_indexes] *)

Section rebuild.

Variable E : env.

(** What one call of [rebuild_indexes] does. *)
Lemma rebuild_indexes_run ws data w w' r :
  rebuild_indexes E ws data w = (w', r) →
  let tr := w_trace w ++ [Log "debug" ("rebuild: " +:+ ws +:+ ", " +:+ fmt E data)] in
  let args :=
    if decide (data = PStr "" ∨ data = PList [])
    then [PStr ws; PStr "SYSTEM"; PStr ""; PStr "ALL"]
    else [PStr ws; PStr "NO_SYSTEM"; data; PStr "ALL"] in
  ∃ rest,
    w_trace w' = tr ++ Arcpy "RebuildIndexes_management" args [] :: rest ∧
    tool_calls rest = [] ∧
    w_timer w' = w_timer w ∧ w_workspace w' = w_workspace w ∧
    (r = Ok 0 ↔ arcpy_run E tr "RebuildIndexes_management" args = None) ∧
    (r = Ok 0 ∨ r = Ok 1 ∨
     ∃ e tr', r = Raise e ∧ arcpy_messages E tr' = Raise e ∧
       arcpy_run E tr "RebuildIndexes_management" args ≠ Some ExecuteError ∧
       w_trace w' = tr' ++ [Arcpy "GetMessages" [] []]).
Proof.
  intros H tr args.
  assert (rebuild_indexes E ws data w
          = try_except
              (log "debug" ("rebuild: " +:+ ws +:+ ", " +:+ fmt E data) ;;;
               arcpy_tool E "RebuildIndexes_management" args ;;;
               log "info" ("      > Rebuild successful: " +:+ fmt E data) ;;;
               ret_M 0)
              (λ x,
                 if decide (x = ExecuteError) then
                   log "error" ("      > ExecuteError is: " +:+ repr_exn E x) ;;;
                   ret_M 1
                 else
                   log "error" ("      > Non-arcpy problem with: " +:+ fmt E data
                                   +:+ repr_exn E x) ;;;
                   msgs ←← GetMessages E ;;
                   log "error" msgs ;;;
                   ret_M 1) w) as Heq.
  { unfold rebuild_indexes, args. by case_decide. }
  rewrite Heq in H. clear Heq.
  unfold try_except, bind_M, log, emit, arcpy_tool, answer, called, ret_M in H.
  simpl in H. fold tr in H.
  destruct (arcpy_run E tr "RebuildIndexes_management" args) as [x|] eqn:Hrun.
  - destruct (decide (x = ExecuteError)) as [->|Hx].
    + injection H as <- <-. simpl. rewrite <-app_assoc. eexists.
      split; [reflexivity|]. repeat split; try done. by right; left.
    + unfold GetMessages, answer, called in H. simpl in H.
      destruct (arcpy_messages E _) as [msgs|e] eqn:Hmsgs.
      * injection H as <- <-. simpl. rewrite <-!app_assoc. eexists.
        split; [reflexivity|]. repeat split; try done. by right; left.
      * injection H as <- <-. simpl. rewrite <-!app_assoc. eexists.
        split; [reflexivity|]. repeat split; try done.
        right; right. eexists e, _. split; [done|]. split; [exact Hmsgs|].
        split; [congruence|]. by rewrite <-!app_assoc.
  - injection H as <- <-. simpl. rewrite <-app_assoc. eexists.
    split; [reflexivity|]. repeat split; try done. by left.
Qed.

(** X7: [rebuild_indexes] calls the tool once, with ["SYSTEM"] for the empty
    string or list and with ["NO_SYSTEM"] and the data otherwise; it returns
    0 exactly when the tool returned, 1 when the tool raised; the exception
    of the tool never leaves it, and the only exception that does is one that
    [arcpy.GetMessages()] raised in the handler.  The timer and the workspace
    are as before. *)
Theorem rebuild_indexes_outcome ws data w w' r :
  rebuild_indexes E ws data w = (w', r) →
  let tr := w_trace w ++ [Log "debug" ("rebuild: " +:+ ws +:+ ", " +:+ fmt E data)] in
  let args :=
    if decide (data = PStr "" ∨ data = PList [])
    then [PStr ws; PStr "SYSTEM"; PStr ""; PStr "ALL"]
    else [PStr ws; PStr "NO_SYSTEM"; data; PStr "ALL"] in
  ∃ rest,
    w_trace w' = tr ++ Arcpy "RebuildIndexes_management" args [] :: rest ∧
    tool_calls rest = [] ∧
    w_timer w' = w_timer w ∧ w_workspace w' = w_workspace w ∧
    (r = Ok 0 ↔ arcpy_run E tr "RebuildIndexes_management" args = None) ∧
    (r = Ok 0 ∨ r = Ok 1 ∨
     ∃ e tr', r = Raise e ∧ arcpy_messages E tr' = Raise e ∧
       arcpy_run E tr "RebuildIndexes_management" args ≠ Some ExecuteError ∧
       w_trace w' = tr' ++ [Arcpy "GetMessages" [] []]).
Proof. apply rebuild_indexes_run. Qed.

End rebuild.

(** ** [list_datasets] *)

Section listing.

Variable E : env.
Variable db : string → list pyval → list (string * pyval) → list string.
Hypothesis listings :
  ∀ tr name args kwargs,
    arcpy_list E tr name args kwargs = Ok (Some (db name args kwargs)).

Lemma fold_feature_datasets (datasets acc : list string) (w : world) :
  fold_M (λ data_lst dataset,
            more ←← arcpy_List E "ListFeatureClasses" []
                      [("feature_dataset", PStr dataset)] ;;
            add_lists (Some data_lst) more) acc datasets w
  = (World (w_trace w
              ++ ((λ dataset, Arcpy "ListFeatureClasses" []
                                [("feature_dataset", PStr dataset)])
                    <$> datasets))
       (w_ticks w) (w_workspace w) (w_timer w),
     Ok (acc ++ (datasets ≫= λ dataset,
                   db "ListFeatureClasses" [] [("feature_dataset", PStr dataset)]))).
Proof.
  revert acc w. induction datasets as [|ds datasets IH]; intros acc w.
  - simpl. unfold ret_M. rewrite !app_nil_r. by destruct w.
  - cbn [fold_M]. unfold bind_M at 1. unfold bind_M at 1.
    unfold arcpy_List at 1, answer, called. rewrite listings. simpl.
    rewrite IH. simpl. by rewrite <-!app_assoc.
Qed.

Lemma bind_run {A B} (m : M A) (k : A → M B) w w1 a :
  m w = (w1, Ok a) → bind_M m k w = k a w1.
Proof. unfold bind_M. by intros ->. Qed.

Lemma list_datasets_run ws dtype user w :
  (∀ tr, arcpy_describe E tr ws = Ok (dtype, Some user)) →
  list_datasets E ws w
  = (World (w_trace w ++ listing_calls db ws dtype user) (w_ticks w) ws
       (w_timer w),
     Ok (datasets_of db user)).
Proof.
  intros Hd. unfold list_datasets, datasets_of, listing_calls.
  do 3 (erewrite bind_run
          by (unfold describe, answer; simpl; rewrite ?Hd; reflexivity)).
  simpl.
  destruct (decide (dtype ≠ "Workspace"));
    (erewrite bind_run by reflexivity);
    do 2 (erewrite bind_run
            by (unfold describe, answer; simpl; rewrite ?Hd; reflexivity));
    simpl; (erewrite bind_run by reflexivity);
    do 7 (erewrite bind_run
            by (unfold arcpy_List, add_lists, iter, answer;
                rewrite ?listings; reflexivity));
    rewrite fold_feature_datasets; simpl; by rewrite <-!app_assoc.
Qed.

Lemma list_datasets_no_user_run ws dtype w :
  (∀ tr, arcpy_describe E tr ws = Ok (dtype, None)) →
  list_datasets E ws w
  = (World (w_trace w
              ++ [SetWorkspace ws; Arcpy "Describe" [PStr ws] []]
              ++ (if decide (dtype ≠ "Workspace")
                  then [Log "error" "Workspace not recognised - something is wrong. Please check your TNS settings."]
                  else [])
              ++ [Arcpy "Describe" [PStr ws] []])
       (w_ticks w) ws (w_timer w),
     Raise AttributeError).
Proof.
  intros Hd. unfold list_datasets.
  do 3 (erewrite bind_run
          by (unfold describe, answer; simpl; rewrite ?Hd; reflexivity)).
  simpl.
  destruct (decide (dtype ≠ "Workspace"));
    (erewrite bind_run by reflexivity);
    do 2 (erewrite bind_run
            by (unfold describe, answer; simpl; rewrite ?Hd; reflexivity));
    simpl; unfold bind_M, raise, called; simpl; by rewrite <-!app_assoc.
Qed.

End listing.

(** X5: when the workspace is connected as [user] and the listings answer by
    [db], [list_datasets] returns the tables, the feature classes and the
    rasters of the user, then the feature classes of each feature dataset of
    the user, in this order; it has set the workspace, described it twice
    and called the listings in the order of [listing_calls]; a data type
    other than ['Workspace'] is logged as an error and stops nothing; the
    clock and the timer are as before. *)
Theorem list_datasets_result (E : env)
    (db : string → list pyval → list (string * pyval) → list string)
    (ws dtype user : string) (w : world) :
  (∀ tr name args kwargs,
     arcpy_list E tr name args kwargs = Ok (Some (db name args kwargs))) →
  (∀ tr, arcpy_describe E tr ws = Ok (dtype, Some user)) →
  list_datasets E ws w
  = (World (w_trace w ++ listing_calls db ws dtype user) (w_ticks w) ws
       (w_timer w),
     Ok (datasets_of db user)).
Proof. intros Hl Hd. by apply list_datasets_run. Qed.

(** X6: on a connection without a [user] property (operating system
    authentication) [list_datasets] raises [AttributeError]: it has set the
    workspace and described it twice, and has called no listing. *)
Theorem list_datasets_no_user (E : env) (ws dtype : string) (w : world) :
  (∀ tr, arcpy_describe E tr ws = Ok (dtype, None)) →
  ∃ w',
    list_datasets E ws w = (w', Raise AttributeError) ∧
    w_workspace w' = ws ∧
    w_trace w'
    = w_trace w
        ++ [SetWorkspace ws; Arcpy "Describe" [PStr ws] []]
        ++ (if decide (dtype ≠ "Workspace")
            then [Log "error" "Workspace not recognised - something is wrong. Please check your TNS settings."]
            else [])
        ++ [Arcpy "Describe" [PStr ws] []].
Proof.
  intros Hd. eexists. split; [by apply list_datasets_no_user_run|]. done.
Qed.

(** ** One feature class at a time *)

Section calls.

Lemma calls_refl w : calls [] w w.
Proof. exists []. by rewrite app_nil_r. Qed.

Lemma calls_trans ts1 ts2 w1 w2 w3 :
  calls ts1 w1 w2 → calls ts2 w2 w3 → calls (ts1 ++ ts2) w1 w3.
Proof.
  intros (n1 & H1 & Hn1) (n2 & H2 & Hn2). exists (n1 ++ n2). split.
  - by rewrite H2, H1, app_assoc.
  - unfold tool_calls in *. by rewrite filter_app, Hn1, Hn2.
Qed.

Lemma calls_emits w w' :
  emits (λ ev, is_tool ev = false) w w' → calls [] w w'.
Proof.
  intros (new & Htrace & Hall). exists new. split; [done|].
  clear Htrace. unfold tool_calls.
  induction Hall as [|ev new Hev _ IH]; [done|].
  rewrite filter_cons_False; [exact IH|]. rewrite Hev. exact id.
Qed.

End calls.

Section by_fc.

Variable E : env.

Lemma py_index_nat {A} (l : list A) (i : Z) :
  0 ≤ i → py_index l i = l !! Z.to_nat i.
Proof. intros Hi. unfold py_index. by rewrite (proj2 (Z.leb_le 0 i)). Qed.

Lemma by_fc_round_run what tool call conn l i fc w :
  tool_returns tool call →
  0 ≤ i → l !! Z.to_nat i = Some fc →
  ∃ w', by_fc_round E what tool conn l i w = (w', Ok tt) ∧
        calls [call fc] w w'.
Proof.
  intros Htool Hi Hfc. unfold by_fc_round.
  erewrite bind_run by reflexivity.
  rewrite py_index_nat, Hfc by done.
  do 3 (erewrite bind_run by reflexivity).
  match goal with
  | |- context [bind_M (tool fc) ?k ?w] =>
      destruct (Htool fc w) as (w1 & z & Hrun & Hcalls);
      rewrite (bind_run (tool fc) k w w1 z Hrun)
  end.
  erewrite bind_run by reflexivity. eexists. split; [reflexivity|].
  destruct Hcalls as (new & Htrace & Hnew). simpl in Htrace.
  eexists (Print _ :: new ++ [Print _]). simpl. split.
  - rewrite Htrace, <-!app_assoc. reflexivity.
  - unfold tool_calls in *. rewrite filter_cons_False by exact id.
    rewrite filter_app, Hnew. reflexivity.
Qed.

Lemma rounds_run what tool call conn l (n : nat) (a : Z) w :
  tool_returns tool call →
  0 ≤ a → (n ≠ 0%nat → a + Z.of_nat n ≤ Z.of_nat (length l)) →
  ∃ w',
    for_each ((λ k, a + Z.of_nat k) <$> seq 0 n)
      (by_fc_round E what tool conn l) w = (w', Ok tt) ∧
    calls (call <$> take n (drop (Z.to_nat a) l)) w w'.
Proof.
  intros Htool. revert a w. induction n as [|n IH]; intros a w Ha Hn.
  - exists w. split; [done|]. apply calls_refl.
  - cbn [seq fmap list_fmap for_each].
    specialize (Hn ltac:(done)).
    destruct (lookup_lt_is_Some_2 l (Z.to_nat a)) as [fc Hfc]; [lia|].
    destruct (by_fc_round_run what tool call conn l (a + Z.of_nat 0) fc w Htool)
      as (w1 & Hrun & Hcalls); [lia|by rewrite Z.add_0_r|].
    erewrite bind_run by exact Hrun.
    destruct (IH (a + 1) w1) as (w2 & Hrun2 & Hcalls2); [lia..|].
    exists w2. split.
    + rewrite <-Hrun2. f_equal. rewrite <-fmap_S_seq, <-list_fmap_compose.
      apply list_fmap_ext. intros _ k _. simpl. lia.
    + rewrite (drop_S _ _ _ Hfc). cbn [take fmap list_fmap].
      replace (Z.to_nat (a + 1)) with (S (Z.to_nat a)) in Hcalls2 by lia.
      exact (calls_trans [call fc] _ _ _ _ Hcalls Hcalls2).
Qed.

(** The head of [by_fc]: up to the sorted list of the data sets. *)
Lemma by_fc_head intro what tool conn dtype user db first last w :
  (∀ tr, arcpy_describe E tr conn = Ok (dtype, Some user)) →
  (∀ tr name args kwargs,
     arcpy_list E tr name args kwargs = Ok (Some (db name args kwargs))) →
  ∃ w1 t0,
    calls [] w w1 ∧
    by_fc E intro what tool conn first last w
    = (by_fc_rounds E what tool conn (sort_strings (datasets_of db user))
         first last ;;;
       tz ←← now E ;;
       let duration := tz - t0 in
       log "info" ("End time: " +:+ str_datetime E tz) ;;;
       log "info" ("Python script duration (h:mm:ss.dddd): "
                     +:+ drop_last2 (str_timedelta E duration))) w1.
Proof.
  intros Hd Hl. unfold by_fc.
  do 3 (erewrite bind_run by reflexivity).
  erewrite bind_run by (by apply list_datasets_run).
  eexists _, _. split; [|reflexivity].
  apply calls_emits. eexists. split; [simpl; rewrite <-!app_assoc; reflexivity|].
  unfold listing_calls. rewrite !Forall_app. repeat split.
  1-3, 5: by repeat constructor.
  - case_decide; by repeat constructor.
  - apply Forall_fmap, Forall_true. done.
Qed.

(** The last index of the rounds. *)
Lemma last_index_run (l : list string) (first last : Z) w :
  ∃ w1,
    (if decide (last = -1) then
       let last := Z.of_nat (length l) - 1 in
       print ("  Indexes " +:+ str_int first +:+ "-" +:+ str_int last) ;;;
       ret_M last
     else ret_M last) w
    = (w1, Ok (if decide (last = -1) then Z.of_nat (length l) - 1 else last)) ∧
    calls [] w w1.
Proof.
  case_decide.
  - cbv zeta. unfold bind_M, print, emit, ret_M.
    eexists. split; [reflexivity|]. apply calls_emits.
    eexists [_]. split; [reflexivity|]. by repeat constructor.
  - eexists. split; [reflexivity|]. apply calls_refl.
Qed.

Lemma by_fc_rounds_run what tool call conn l first last w :
  tool_returns tool call →
  0 ≤ first → last < Z.of_nat (length l) →
  ∃ w',
    by_fc_rounds E what tool conn l first last w = (w', Ok tt) ∧
    calls (call <$> planned l first last) w w'.
Proof.
  intros Htool Hfirst Hlast. unfold by_fc_rounds, planned.
  case_decide as Hlen.
  - destruct (last_index_run l first last w) as (w1 & Hrun & Hcalls).
    set (last' := if decide (last = -1) then Z.of_nat (length l) - 1 else last)
      in *.
    assert (last' < Z.of_nat (length l)) as Hlast'.
    { unfold last'. case_decide; lia. }
    erewrite bind_run by exact Hrun.
    destruct (rounds_run what tool call conn l
                (Z.to_nat (1 + last' - first)) first w1 Htool Hfirst)
      as (w2 & Hrun2 & Hcalls2); [lia|].
    exists w2. split; [exact Hrun2|].
    exact (calls_trans [] _ _ _ _ Hcalls Hcalls2).
  - exists w. split; [done|].
    destruct l; [|simpl in Hlen; lia]. rewrite drop_nil, take_nil.
    apply calls_refl.
Qed.

Lemma by_fc_run intro what tool call conn dtype user db first last w :
  (∀ tr, arcpy_describe E tr conn = Ok (dtype, Some user)) →
  (∀ tr name args kwargs,
     arcpy_list E tr name args kwargs = Ok (Some (db name args kwargs))) →
  tool_returns tool call →
  0 ≤ first → last < Z.of_nat (length (datasets_of db user)) →
  ∃ w',
    by_fc E intro what tool conn first last w = (w', Ok tt) ∧
    calls (call <$> planned (sort_strings (datasets_of db user)) first last)
      w w'.
Proof.
  intros Hd Hl Htool Hfirst Hlast.
  destruct (by_fc_head intro what tool conn dtype user db first last w Hd Hl)
    as (w1 & t0 & Hcalls1 & ->).
  destruct (by_fc_rounds_run what tool call conn
              (sort_strings (datasets_of db user)) first last w1 Htool Hfirst)
    as (w2 & Hrun & Hcalls2).
  { unfold sort_strings. by rewrite merge_sort_Permutation. }
  erewrite bind_run by exact Hrun. erewrite bind_run by reflexivity.
  cbv zeta. unfold bind_M, log, emit. eexists. split; [reflexivity|].
  rewrite <-(app_nil_l (call <$> _)), <-(app_nil_r (call <$> _)).
  eapply calls_trans; [exact Hcalls1|].
  eapply calls_trans; [exact Hcalls2|].
  apply calls_emits. eexists [_; _].
  split; [simpl; rewrite <-!app_assoc; reflexivity|]. by repeat constructor.
Qed.

Lemma analyze_returns conn :
  (∀ tr args, arcpy_run E tr "AnalyzeDatasets_management" args = None) →
  tool_returns (λ fc, analyze_data_owner E conn (PStr fc)) (analyze_call conn).
Proof.
  intros Hrun fc w. unfold analyze_data_owner, bind_M, arcpy_tool, answer.
  rewrite Hrun. eexists _, _. split; [reflexivity|].
  by exists [analyze_call conn fc].
Qed.

Lemma rebuild_returns conn :
  (∀ tr, ∃ msgs, arcpy_messages E tr = Ok msgs) →
  tool_returns (λ fc, rebuild_indexes E conn (PList [fc])) (rebuild_call conn).
Proof.
  intros Hmsgs fc w.
  destruct (rebuild_indexes E conn (PList [fc]) w) as [w' r] eqn:Hrun.
  apply rebuild_indexes_run in Hrun
    as (rest & Htrace & Hrest & _ & _ & _ & Hr).
  rewrite decide_False in Htrace by (by intros [|]).
  assert (∃ z, r = Ok z) as [z ->].
  { destruct Hr as [->|[->|(e & tr' & _ & He & _)]]; [by eexists..|].
    destruct (Hmsgs tr') as [msgs Hm]. congruence. }
  exists w', z. split; [done|]. eexists (_ :: _ :: rest).
  split; [by rewrite Htrace, <-app_assoc|].
  unfold tool_calls in *. rewrite filter_cons_False by exact id.
  rewrite filter_cons_True by exact I. by rewrite Hrest.
Qed.

Lemma bind_raise {A B} (m : M A) (k : A → M B) w w1 e :
  m w = (w1, Raise e) → bind_M m k w = (w1, Raise e).
Proof. unfold bind_M. by intros ->. Qed.

Lemma by_fc_round_fails conn l i fc e w :
  (∀ tr args, arcpy_run E tr "AnalyzeDatasets_management" args = Some e) →
  0 ≤ i → l !! Z.to_nat i = Some fc →
  ∃ w',
    by_fc_round E "Analyze" (λ fc, analyze_data_owner E conn (PStr fc))
      conn l i w = (w', Raise e) ∧
    calls [analyze_call conn fc] w w'.
Proof.
  intros Hrun Hi Hfc. unfold by_fc_round.
  erewrite bind_run by reflexivity.
  rewrite py_index_nat, Hfc by done.
  do 3 (erewrite bind_run by reflexivity).
  unfold analyze_data_owner, arcpy_tool, answer, bind_M. rewrite Hrun.
  eexists. split; [reflexivity|].
  eexists [_; _]. split; [simpl; rewrite <-!app_assoc; reflexivity|].
  reflexivity.
Qed.

(** X16: when the tool raises, [analyze_by_fc] stops at the first data set
    of its range: the exception leaves it after that one call. *)
Theorem analyze_by_fc_stops conn dtype user db first last fc rest e w :
  (∀ tr, arcpy_describe E tr conn = Ok (dtype, Some user)) →
  (∀ tr name args kwargs,
     arcpy_list E tr name args kwargs = Ok (Some (db name args kwargs))) →
  (∀ tr args, arcpy_run E tr "AnalyzeDatasets_management" args = Some e) →
  0 ≤ first →
  planned (sort_strings (datasets_of db user)) first last = fc :: rest →
  ∃ w',
    analyze_by_fc E conn first last w = (w', Raise e) ∧
    calls [analyze_call conn fc] w w'.
Proof.
  intros Hd Hl Hrun Hfirst Hplan. unfold analyze_by_fc.
  destruct (by_fc_head "Analyzing data sets" "Analyze"
              (λ fc, analyze_data_owner E conn (PStr fc)) conn dtype user db
              first last w Hd Hl) as (w1 & t0 & Hcalls1 & ->).
  set (l := sort_strings (datasets_of db user)) in *.
  unfold planned in Hplan.
  destruct (last_index_run l first last w1) as (w2 & Hrun2 & Hcalls2).
  set (last' := if decide (last = -1) then Z.of_nat (length l) - 1 else last)
    in *.
  destruct (Z.to_nat (1 + last' - first)) as [|n] eqn:Hn; [done|].
  destruct (drop (Z.to_nat first) l) as [|fc' tl] eqn:Hdrop; [done|].
  injection Hplan as -> _.
  assert (l !! Z.to_nat first = Some fc) as Hfc.
  { rewrite <-(Nat.add_0_r (Z.to_nat first)), <-lookup_drop. by rewrite Hdrop. }
  destruct (by_fc_round_fails conn l first fc e w2 Hrun Hfirst Hfc)
    as (w3 & Hrun3 & Hcalls3).
  exists w3. split.
  - apply bind_raise. unfold by_fc_rounds.
    rewrite decide_True by (apply lookup_lt_Some in Hfc; lia).
    erewrite bind_run by exact Hrun2.
    unfold py_range. rewrite Hn. cbn [seq fmap list_fmap for_each].
    rewrite Z.add_0_r. by apply bind_raise.
  - exact (calls_trans [] _ _ _ _ Hcalls1
             (calls_trans [] _ _ _ _ Hcalls2 Hcalls3)).
Qed.

Lemma for_each_app {A} (l1 l2 : list A) (body : A → M unit) w w1 :
  for_each l1 body w = (w1, Ok tt) →
  for_each (l1 ++ l2) body w = for_each l2 body w1.
Proof.
  revert w. induction l1 as [|x l1 IH]; intros w; simpl.
  - by intros [= <-].
  - intros H. apply bind_Ok_inv in H as (w2 & [] & H1 & H2).
    erewrite bind_run by exact H1. by apply IH.
Qed.

(** X17: with a last index past the end of a list that is not empty,
    [analyze_by_fc] analyzes every data set from [first] on and then raises
    [IndexError]. *)
Theorem analyze_by_fc_overrun conn dtype user db first last w :
  (∀ tr, arcpy_describe E tr conn = Ok (dtype, Some user)) →
  (∀ tr name args kwargs,
     arcpy_list E tr name args kwargs = Ok (Some (db name args kwargs))) →
  (∀ tr args, arcpy_run E tr "AnalyzeDatasets_management" args = None) →
  0 ≤ first ≤ Z.of_nat (length (datasets_of db user)) →
  0 < Z.of_nat (length (datasets_of db user)) ≤ last →
  ∃ w',
    analyze_by_fc E conn first last w = (w', Raise IndexError) ∧
    calls (analyze_call conn
             <$> drop (Z.to_nat first) (sort_strings (datasets_of db user)))
      w w'.
Proof.
  intros Hd Hl Hrun Hfirst Hlast. unfold analyze_by_fc.
  destruct (by_fc_head "Analyzing data sets" "Analyze"
              (λ fc, analyze_data_owner E conn (PStr fc)) conn dtype user db
              first last w Hd Hl) as (w1 & t0 & Hcalls1 & ->).
  set (l := sort_strings (datasets_of db user)) in *.
  assert (length l = length (datasets_of db user)) as Hlen.
  { unfold l, sort_strings. by rewrite merge_sort_Permutation. }
  rewrite <-Hlen in Hfirst, Hlast.
  set (n1 := (length l - Z.to_nat first)%nat).
  destruct (rounds_run "Analyze"
              (λ fc, analyze_data_owner E conn (PStr fc)) (analyze_call conn)
              conn l n1 first w1 (analyze_returns conn Hrun))
    as (w2 & Hrun2 & Hcalls2); [lia|lia|].
  rewrite take_ge in Hcalls2 by (rewrite length_drop; lia).
  eexists. split.
  - apply bind_raise. unfold by_fc_rounds.
    rewrite decide_True by lia. rewrite decide_False by lia.
    erewrite bind_run by reflexivity.
    unfold py_range.
    replace (Z.to_nat (1 + last - first))
      with (n1 + S (Z.to_nat (last - Z.of_nat (length l))))%nat by lia.
    rewrite seq_app, fmap_app.
    erewrite for_each_app by exact Hrun2.
    cbn [seq fmap list_fmap for_each]. apply bind_raise.
    unfold by_fc_round. erewrite bind_run by reflexivity.
    rewrite py_index_nat by lia.
    rewrite (lookup_ge_None_2 l) by lia. reflexivity.
  - rewrite <-(app_nil_l (_ <$> _)), <-(app_nil_r (_ <$> _)).
    eapply calls_trans; [exact Hcalls1|].
    eapply calls_trans; [exact Hcalls2|]. simpl.
    apply calls_emits. exists []. by rewrite app_nil_r.
Qed.

(** X14: when the tool returns on every data set, [analyze_by_fc] returns,
    and has analyzed, one call each and in sorted order, the data sets of
    indexes [first] to [last] of the sorted list, to the end of the list for
    [last = -1]. *)
Theorem analyze_by_fc_runs conn dtype user db first last w :
  (∀ tr, arcpy_describe E tr conn = Ok (dtype, Some user)) →
  (∀ tr name args kwargs,
     arcpy_list E tr name args kwargs = Ok (Some (db name args kwargs))) →
  (∀ tr args, arcpy_run E tr "AnalyzeDatasets_management" args = None) →
  0 ≤ first → last < Z.of_nat (length (datasets_of db user)) →
  ∃ w',
    analyze_by_fc E conn first last w = (w', Ok tt) ∧
    calls (analyze_call conn
             <$> planned (sort_strings (datasets_of db user)) first last)
      w w'.
Proof.
  intros Hd Hl Hrun Hfirst Hlast. unfold analyze_by_fc.
  eapply by_fc_run; [exact Hd|exact Hl|by apply analyze_returns|done..].
Qed.

(** X15: [rebuild_by_fc] goes on after a data set whose rebuild failed: as
    long as [arcpy.GetMessages()] returns, it returns whatever the tool
    does, and has called the tool once for every data set of its range, in
    sorted order. *)
Theorem rebuild_by_fc_attempts_all conn dtype user db first last w :
  (∀ tr, arcpy_describe E tr conn = Ok (dtype, Some user)) →
  (∀ tr name args kwargs,
     arcpy_list E tr name args kwargs = Ok (Some (db name args kwargs))) →
  (∀ tr, ∃ msgs, arcpy_messages E tr = Ok msgs) →
  0 ≤ first → last < Z.of_nat (length (datasets_of db user)) →
  ∃ w',
    rebuild_by_fc E conn first last w = (w', Ok tt) ∧
    calls (rebuild_call conn
             <$> planned (sort_strings (datasets_of db user)) first last)
      w w'.
Proof.
  intros Hd Hl Hmsgs Hfirst Hlast. unfold rebuild_by_fc.
  eapply by_fc_run; [exact Hd|exact Hl|by apply rebuild_returns|done..].
Qed.

End by_fc.

(** ** More on the timer *)

Section timer.

Lemma join_lines_nil (lines : list string) : join_lines lines = "" ↔ lines = [].
Proof.
  split; [|by intros ->]. destruct lines as [|line lines]; [done|].
  discriminate.
Qed.

(** X1: the text of the report is empty exactly when no label is reported,
    that is when every label stamped has an odd number of stamps (or none
    was stamped). *)
Theorem time_report_empty (self : ECtimes) :
  time_report self = Some (self, "") ↔ ∀ g, duration_of self g = None.
Proof.
  rewrite time_report_spec. split.
  - intros [= Htext]. apply join_lines_nil, fmap_nil_inv in Htext.
    intros g. apply eq_None_not_Some. rewrite <-report_labels.
    rewrite Htext. apply not_elem_of_nil.
  - intros Hnone. do 2 f_equal. apply join_lines_nil.
    destruct (report_lines self) as [|[g line] lines] eqn:Hlines; [done|].
    assert (g ∈ (report_lines self).*1) as Hg by (rewrite Hlines; left).
    apply report_labels in Hg. rewrite Hnone in Hg. by destruct Hg.
Qed.

Lemma entries_times (g : string) (l : list stamp) (P : Z → Prop) :
  Forall (λ s, st_group s = g → P (st_time s)) l →
  Forall (λ a, P (sl_time a)) (entries g l).
Proof.
  intros Hall. unfold entries. apply Forall_fmap, Forall_forall.
  intros s [Hg Hs]%list_elem_of_filter. rewrite Forall_forall in Hall.
  by apply Hall.
Qed.

(** X2: the duration reported for a label is never negative and never more
    than the span of the timestamps of the label, in whatever order and with
    whatever phases its events were recorded: the pairs of the sorted series
    are disjoint intervals. *)
Theorem duration_within_span (self : ECtimes) (g : string) (lo hi d : Z) :
  Forall (λ s, st_group s = g → lo ≤ st_time s ≤ hi) (lst_time self) →
  duration_of self g = Some d →
  0 ≤ d ≤ hi - lo.
Proof.
  intros Hall. rewrite duration_of_entries. case_decide as Hne; [done|].
  unfold duration. case_decide; [done|]. intros [= <-].
  apply (entries_times g _ (λ t, lo ≤ t ≤ hi)) in Hall.
  apply pair_sum_bounds.
  - destruct (entries g (lst_time self)) as [|a es]; [done|].
    apply Forall_cons in Hall as [? _]. lia.
  - apply sort_slices_sorted.
  - by rewrite sort_slices_perm.
Qed.

Lemma entries_app (g : string) (l1 l2 : list stamp) :
  entries g (l1 ++ l2) = entries g l1 ++ entries g l2.
Proof. unfold entries. by rewrite filter_app, fmap_app. Qed.

Lemma sort_slices_later (es : list slice) (a b : slice) :
  Forall (λ x, sl_time x < sl_time a) es →
  slice_le a b →
  sort_slices (es ++ [a; b]) = sort_slices es ++ [a; b].
Proof.
  intros Hes Hab. apply sort_slices_unique.
  - by rewrite sort_slices_perm.
  - apply StronglySorted_Sorted, StronglySorted_app_2.
    + intros x1 x2 Hx1 Hx2. rewrite sort_slices_perm in Hx1.
      rewrite Forall_forall in Hes. specialize (Hes x1 Hx1).
      assert (slice_le x1 a) by (apply slice_le_spec; by left).
      apply elem_of_cons in Hx2 as [->|Hx2]; [done|].
      apply list_elem_of_singleton in Hx2 as ->. by etrans.
    + apply Sorted_StronglySorted; [apply _|apply sort_slices_sorted].
    + repeat constructor. done.
Qed.

Lemma entries_snoc (g : string) (l : list stamp) (t : datetime)
    (stst text : string) :
  entries g (l ++ [Stamp g t stst text]) = entries g l ++ [Slice t stst text].
Proof.
  rewrite entries_app. f_equal. unfold entries.
  by rewrite filter_cons_True, filter_nil by done.
Qed.

(** X3: on a label with an even number of events, a start and then a stop
    stamped later than every event of the label add exactly the time between
    them to the duration of the label (0 before the first pair). *)
Theorem later_pair_adds (self : ECtimes) (g : string) (t1 t2 : datetime)
    (x1 x2 : string) :
  (length (entries g (lst_time self)) `mod` 2 = 0)%nat →
  Forall (λ s, st_group s = g → st_time s < t1) (lst_time self) →
  t1 ≤ t2 →
  duration_of
    (time_stamp t2 (time_stamp t1 self g "start" x1).1 g "stop" x2).1 g
  = Some (default 0 (duration_of self g) + (t2 - t1)).
Proof.
  intros Heven Hall Ht. rewrite !duration_of_entries. simpl.
  rewrite !entries_snoc, <-app_assoc. simpl.
  set (es := entries g (lst_time self)) in *.
  rewrite decide_False by (by destruct es).
  unfold duration.
  rewrite decide_False by (rewrite length_app_even; [lia|done..]).
  rewrite sort_slices_later.
  - rewrite pair_sum_app.
    2:{ rewrite (Permutation_length (sort_slices_perm es)). done. }
    cbn [pair_sum]. unfold pair_delta. cbn [sl_stst sl_time].
    rewrite decide_True by done. apply (f_equal (@Some Z)).
    case_decide as Hes; [rewrite Hes; cbn; lia|].
    rewrite decide_False by (rewrite Heven; done). cbn [default]. unfold id. lia.
  - by apply (entries_times g _ (λ t, t < t1)) in Hall.
  - apply slice_le_spec. simpl.
    destruct (decide (t1 = t2)); [|left; lia]. right. split; [done|].
    left. split; [apply start_le_stop|done].
Qed.

(** X4: [ECtimes()] gives the new instance a list of its own: its log is
    empty, the log of every instance that exists is as before, and a stamp
    on the new instance goes to its log alone. *)
Theorem new_instance_isolated (h : Heap.heap) (other : Heap.instance) (l : list stamp)
    (now : datetime) (group stst text : string) :
  log_at h other l →
  ∃ h1 self h2,
    Heap.init h = (h1, self) ∧
    log_at h1 self [] ∧
    log_at h1 other l ∧
    Heap.time_stamp now h1 self group stst text = Some (h2, 0) ∧
    log_at h2 self
      [Stamp group now
         (if decide (stst ∉ ["start"; "stop"]) then sentinel else stst) text] ∧
    log_at h2 other l.
Proof.
  intros Hother.
  pose proof Hother as (refs & Hlst & Hall).
  assert (Heap.self_lst_time other < length h)%nat as Hlt
    by (by apply lookup_lt_Some in Hlst).
  set (h1 := h ++ [[]]). set (self := {| Heap.self_lst_time := length h |}).
  assert (log_at h1 self []) as Hself.
  { exists []. split; [|constructor]. by apply list_lookup_middle. }
  assert (log_at h1 other l) as Hother1 by (by apply log_at_app).
  destruct (time_stamp_refines now h1 self [] group stst text Hself)
    as (h2 & Hstamp & Hself2).
  exists h1, self, h2. split; [done|]. split; [done|]. split; [done|].
  split; [done|]. split; [exact Hself2|].
  unfold Heap.time_stamp, Heap.alloc in Hstamp. simpl in Hstamp.
  rewrite (lookup_app_l_Some _ _ _ [] (list_lookup_middle h [] [] _ eq_refl))
    in Hstamp.
  simpl in Hstamp. injection Hstamp as <-.
  exists refs. split.
  - rewrite list_lookup_insert_ne by lia.
    by apply lookup_app_l_Some, lookup_app_l_Some.
  - eapply Forall2_impl; [exact Hall|]. intros r s Hr.
    apply stamp_at_insert with [].
    + apply lookup_app_l_Some. by apply list_lookup_middle.
    + by apply stamp_at_app, stamp_at_app.
Qed.

(** X19: when the events of a label, sorted the way [series.sort()] sorts
    them (by timestamp, then phase, then note), form a sequence of
    (start, stop) pairs, the duration accumulated for the label is the exact
    sum of [stop_i - start_i], whatever the gaps between the pairs and
    whatever was recorded under other labels, and the report has the line
    of the label formatted from that sum. *)
Theorem duration_exact_sum (self : ECtimes) (g : string)
    (ps : list (slice * slice)) :
  ps ≠ [] →
  Forall well_formed ps →
  entries g (lst_time self) ≡ₚ flat_pairs ps →
  Sorted slice_le (flat_pairs ps) →
  duration_of self g = Some (exact_sum ps) ∧
  (g, format_line g (exact_sum ps)) ∈ report_lines self ∧
  time_report self = Some (self, join_lines (report_lines self).*2).
Proof.
  intros Hne Hwf Hperm Hsorted.
  assert (duration_of self g = Some (exact_sum ps)) as Hd
    by by apply duration_of_pairs.
  split; [done|]. split; [|apply time_report_spec].
  apply elem_of_report_lines. eauto.
Qed.

End timer.

(** ** The timer of a run *)

(** *** Starts and stops in turn *)







Section triples.

Variable E : env.




















End triples.






Section balance.

Variable E : env.


















End balance.

(** ** The steps of a run *)

Section plan.

Variable E : env.

(** The tests of the mode change nothing and give what [has_any] gives. *)
Lemma wanted_analyze1 mode w w' b :
  or_M (in_mode "acra" mode) (in_mode "aca" mode) w = (w', Ok b) →
  w' = w ∧ b = has_any ["acra"; "aca"] mode.
Proof.
  unfold or_M, in_mode, bind_M, has_any, has.
  destruct mode as [s|l| |]; cbn; [| |done..].
  - repeat (destruct (contains_str _ s)); cbn; by intros [= <- <-].
  - repeat (destruct (bool_decide (_ ∈ l))); cbn; by intros [= <- <-].
Qed.

Lemma wanted_compress mode w w' b :
  or_M (in_mode "cra" mode)
    (or_M (in_mode "acra" mode)
       (or_M (in_mode "aca" mode) (in_mode "compress" mode))) w = (w', Ok b) →
  w' = w ∧ b = has_any ["cra"; "acra"; "aca"; "compress"] mode.
Proof.
  unfold or_M, in_mode, bind_M, has_any, has.
  destruct mode as [s|l| |]; cbn; [| |done..].
  - repeat (destruct (contains_str _ s)); cbn; by intros [= <- <-].
  - repeat (destruct (bool_decide (_ ∈ l))); cbn; by intros [= <- <-].
Qed.

Lemma wanted_rebuild mode w w' b :
  or_M (in_mode "cra" mode)
    (or_M (in_mode "acra" mode) (in_mode "rebuild" mode)) w = (w', Ok b) →
  w' = w ∧ b = has_any ["cra"; "acra"; "rebuild"] mode.
Proof.
  unfold or_M, in_mode, bind_M, has_any, has.
  destruct mode as [s|l| |]; cbn; [| |done..].
  - repeat (destruct (contains_str _ s)); cbn; by intros [= <- <-].
  - repeat (destruct (bool_decide (_ ∈ l))); cbn; by intros [= <- <-].
Qed.

Lemma wanted_analyze2 mode w w' b :
  or_M (in_mode "cra" mode)
    (or_M (in_mode "acra" mode)
       (or_M (in_mode "aca" mode) (in_mode "analyze" mode))) w = (w', Ok b) →
  w' = w ∧ b = has_any ["cra"; "acra"; "aca"; "analyze"] mode.
Proof.
  unfold or_M, in_mode, bind_M, has_any, has.
  destruct mode as [s|l| |]; cbn; [| |done..].
  - repeat (destruct (contains_str _ s)); cbn; by intros [= <- <-].
  - repeat (destruct (bool_decide (_ ∈ l))); cbn; by intros [= <- <-].
Qed.

Lemma grows_last w w1 w' a x rest :
  emits (λ _, True) w w1 →
  w_trace w' = w_trace w1 ++ x :: rest →
  is_tool x = true → tool_calls rest = [] →
  w_trace w' = w_trace w ++ a →
  last (tool_calls a) = Some x.
Proof.
  intros (pre & Tpre & _) Tx Hx Hrest Ta.
  rewrite Tx, Tpre, <-app_assoc in Ta. apply app_inv_head in Ta as <-.
  unfold tool_calls in *. rewrite filter_app, filter_cons_True by (by rewrite Hx).
  by rewrite Hrest, last_snoc.
Qed.

Lemma no_events w a : w_trace w = w_trace w ++ a → a = [].
Proof.
  intros Ha. rewrite <-(app_nil_r (w_trace w)) in Ha at 1.
  by apply app_inv_head in Ha.
Qed.

Lemma timer_stamp_trace g s x w w' r :
  timer_stamp E g s x w = (w', r) → w_trace w' = w_trace w.
Proof. by intros [= <- _]. Qed.

Lemma tool_run name args w w' :
  arcpy_tool E name args w = (w', Ok tt) →
  w_trace w' = w_trace w ++ [Arcpy name args []].
Proof. unfold arcpy_tool, answer. by intros [= <- _]. Qed.

Lemma pm_analyze1_plan dba cons mode pat d w w' :
  pm_analyze1 E dba cons mode pat d w = (w', Ok tt) →
  ∃ a1,
    w_trace w' = w_trace w ++ a1 ∧
    Forall (λ ev, arcpy_in ["AnalyzeDatasets_management"] ev = true) a1 ∧
    if has_any ["acra"; "aca"] mode
    then last (tool_calls a1) = Some (sde_analyze dba) else a1 = [].
Proof.
  intros H.
  assert (emits (λ ev, arcpy_in ["AnalyzeDatasets_management"] ev = true) w w')
    as (a1 & Ta & Ha)
    by (eapply emits_run; [|exact H]; script_tac).
  exists a1. split; [done|]. split; [done|].
  unfold pm_analyze1 in H.
  apply bind_Ok_inv in H as (w0 & b & [-> ->]%wanted_analyze1 & H).
  destruct (has_any _ mode); [|injection H as <-; by apply no_events in Ta].
  apply bind_Ok_inv in H as (w1 & [] & H1 & H).
  apply bind_Ok_inv in H as (w2 & [] & H2 & H).
  apply bind_Ok_inv in H as (w3 & [] & H3%timer_stamp_trace & H).
  apply bind_Ok_inv in H as (w4 & z & H4 & H5%timer_stamp_trace).
  unfold analyze_sde in H4.
  apply bind_Ok_inv in H4 as (w5 & [] & H4%tool_run & [= <- _]).
  apply (grows_last w w2 w' a1 (sde_analyze dba) []); try done.
  - etrans; [eapply emits_run; [|exact H1]; script_tac|].
    eapply emits_run; [|exact H2]; script_tac.
  - by rewrite H5, H4, H3.
Qed.

Lemma pm_compress_plan dba mode w w' :
  pm_compress E dba mode w = (w', Ok tt) →
  ∃ c,
    w_trace w' = w_trace w ++ c ∧
    Forall (λ ev, arcpy_in ["Compress_management"] ev = true) c ∧
    if has_any ["cra"; "acra"; "aca"; "compress"] mode
    then tool_calls c = [sde_compress dba] else c = [].
Proof.
  intros H.
  assert (emits (λ ev, arcpy_in ["Compress_management"] ev = true) w w')
    as (c & Tc & Hc)
    by (eapply emits_run; [|exact H]; script_tac).
  exists c. split; [done|]. split; [done|].
  unfold pm_compress in H.
  apply bind_Ok_inv in H as (w0 & b & [-> ->]%wanted_compress & H).
  destruct (has_any _ mode); [|injection H as <-; by apply no_events in Tc].
  apply bind_Ok_inv in H as (w1 & [] & [= <-] & H).
  apply bind_Ok_inv in H as (w2 & [] & H2%timer_stamp_trace & H).
  apply bind_Ok_inv in H as (w3 & z & H3 & H4%timer_stamp_trace).
  unfold compress in H3.
  apply bind_Ok_inv in H3 as (w4 & [] & H3%tool_run & [= <- _]).
  assert (w_trace w ++ c
          = w_trace w ++ [Log "info" "   2. Compress"; sde_compress dba])
    as Heq by (rewrite <-Tc, H4, H3, H2; simpl; by rewrite <-app_assoc).
  by apply app_inv_head in Heq as ->.
Qed.

Lemma pm_rebuild_plan dba cons mode pat d w w' :
  pm_rebuild E dba cons mode pat d w = (w', Ok tt) →
  ∃ r,
    w_trace w' = w_trace w ++ r ∧
    Forall (λ ev, arcpy_in ["RebuildIndexes_management"; "GetMessages"] ev
                  = true) r ∧
    if has_any ["cra"; "acra"; "rebuild"] mode
    then last (tool_calls r) = Some (sde_rebuild dba) else r = [].
Proof.
  intros H.
  assert (emits (λ ev, arcpy_in ["RebuildIndexes_management"; "GetMessages"] ev = true) w w')
    as (r & Tr & Hr)
    by (eapply emits_run; [|exact H]; script_tac).
  exists r. split; [done|]. split; [done|].
  unfold pm_rebuild in H.
  apply bind_Ok_inv in H as (w0 & b & [-> ->]%wanted_rebuild & H).
  destruct (has_any _ mode); [|injection H as <-; by apply no_events in Tr].
  apply bind_Ok_inv in H as (w1 & [] & H1 & H).
  apply bind_Ok_inv in H as (w2 & [] & H2 & H).
  apply bind_Ok_inv in H as (w3 & [] & H3%timer_stamp_trace & H).
  apply bind_Ok_inv in H as (w4 & z & H4 & H5%timer_stamp_trace).
  apply rebuild_indexes_run in H4 as (rest & H4 & Hrest & _).
  rewrite decide_True in H4 by (by left). rewrite <-app_assoc in H4.
  assert (emits (λ _, True) w
            (World (w_trace w3 ++ [Log "debug"
                      ("rebuild: " +:+ dba +:+ ", " +:+ fmt E (PStr ""))])
               (w_ticks w3) (w_workspace w3) (w_timer w3))) as Hgrow.
  { etrans; [eapply emits_run; [|exact H1]; script_tac|].
    etrans; [eapply emits_run; [|exact H2]; script_tac|].
    eexists [_]. simpl. rewrite H3. split; [reflexivity|by repeat constructor]. }
  apply (grows_last _ _ w' r (sde_rebuild dba) rest Hgrow); try done.
  simpl. by rewrite H5, H4, <-app_assoc.
Qed.

Lemma pm_analyze2_plan dba cons mode pat d w w' :
  pm_analyze2 E dba cons mode pat d w = (w', Ok tt) →
  ∃ a2,
    w_trace w' = w_trace w ++ a2 ∧
    Forall (λ ev, arcpy_in ["AnalyzeDatasets_management"] ev = true) a2 ∧
    if has_any ["cra"; "acra"; "aca"; "analyze"] mode
    then last (tool_calls a2) = Some (sde_analyze dba) else a2 = [].
Proof.
  intros H.
  assert (emits (λ ev, arcpy_in ["AnalyzeDatasets_management"] ev = true) w w')
    as (a2 & Ta & Ha)
    by (eapply emits_run; [|exact H]; script_tac).
  exists a2. split; [done|]. split; [done|].
  unfold pm_analyze2 in H.
  apply bind_Ok_inv in H as (w0 & b & [-> ->]%wanted_analyze2 & H).
  destruct (has_any _ mode); [|injection H as <-; by apply no_events in Ta].
  apply bind_Ok_inv in H as (w1 & [] & H1 & H).
  apply bind_Ok_inv in H as (w2 & [] & H2 & H).
  apply bind_Ok_inv in H as (w3 & [] & H3%timer_stamp_trace & H).
  apply bind_Ok_inv in H as (w4 & z & H4 & H5%timer_stamp_trace).
  unfold analyze_sde in H4.
  apply bind_Ok_inv in H4 as (w5 & [] & H4%tool_run & [= <- _]).
  apply (grows_last w w2 w' a2 (sde_analyze dba) []); try done.
  - etrans; [eapply emits_run; [|exact H1]; script_tac|].
    eapply emits_run; [|exact H2]; script_tac.
  - by rewrite H5, H4, H3.
Qed.

(** X18: the steps of a run that returns come in the order of the script and
    are those the mode asks for: the calls of the tools are the first
    analyze (for ['acra'] or ['aca']), the compress (for ['cra'], ['acra'],
    ['aca'] or ['compress']), the rebuild of the indexes (for ['cra'],
    ['acra'] or ['rebuild']) and the second analyze (for ['cra'], ['acra'],
    ['aca'] or ['analyze']), in this order.  In a step the mode asks for,
    the last call of a tool is the one on the connection of the
    administrator (the only call, for the compress); a step it does not ask
    for leaves no trace at all. *)
Theorem perform_maintenance_plan dba geo mode pat w w' :
  perform_maintenance E dba geo mode pat w = (w', Ok tt) →
  ∃ head a1 c r a2 tail,
    w_trace w' = w_trace w ++ head ++ a1 ++ c ++ r ++ a2 ++ tail ∧
    tool_calls head = [] ∧ tool_calls tail = [] ∧
    Forall (λ ev, arcpy_in ["AnalyzeDatasets_management"] ev = true) a1 ∧
    Forall (λ ev, arcpy_in ["Compress_management"] ev = true) c ∧
    Forall (λ ev, arcpy_in ["RebuildIndexes_management"; "GetMessages"] ev
                  = true) r ∧
    Forall (λ ev, arcpy_in ["AnalyzeDatasets_management"] ev = true) a2 ∧
    (if has_any ["acra"; "aca"] mode
     then last (tool_calls a1) = Some (sde_analyze dba) else a1 = []) ∧
    (if has_any ["cra"; "acra"; "aca"; "compress"] mode
     then tool_calls c = [sde_compress dba] else c = []) ∧
    (if has_any ["cra"; "acra"; "rebuild"] mode
     then last (tool_calls r) = Some (sde_rebuild dba) else r = []) ∧
    (if has_any ["cra"; "acra"; "aca"; "analyze"] mode
     then last (tool_calls a2) = Some (sde_analyze dba) else a2 = []).
Proof.
  intros H.
  apply perform_maintenance_Ok_inv in H
    as (t0 & cons & d & w1 & w2 & w3 & w4 & w5 & w6 & w7 & w8 & w9 & w10 & w11
        & H1 & H2 & H3 & H4 & H5 & H6 & H7 & H8 & H9 & H10 & H11 & H12).
  assert (calls [] w w4) as (head & Thead & Hhead).
  { apply calls_emits.
    etrans; [eapply emits_run; [|exact H1]; script_tac|].
    etrans; [eapply emits_run; [|exact H2]; script_tac|].
    etrans; [eapply emits_run; [|exact H3]; script_tac|].
    eapply emits_run; [|exact H4]; script_tac. }
  assert (calls [] w8 w') as (tail & Ttail & Htail).
  { apply calls_emits.
    etrans; [eapply emits_run; [|exact H9]; script_tac|].
    etrans; [eapply emits_run; [|exact H10]; script_tac|].
    etrans; [eapply emits_run; [|exact H11]; script_tac|].
    eapply emits_run; [|exact H12]; script_tac. }
  apply pm_analyze1_plan in H5 as (a1 & T1 & Ha1 & Hp1).
  apply pm_compress_plan in H6 as (c & Tc & Hc & Hpc).
  apply pm_rebuild_plan in H7 as (r & Tr & Hr & Hpr).
  apply pm_analyze2_plan in H8 as (a2 & T2 & Ha2 & Hp2).
  exists head, a1, c, r, a2, tail.
  split; [rewrite Ttail, T2, Tr, Tc, T1, Thead; by rewrite <-!app_assoc|].
  repeat (split; [assumption|]). assumption.
Qed.

End plan.

(** ** The properties above in the sample world *)

Lemma duration_within_span_witness : 0 ≤ 5000000 ≤ 9000000 - 0.
Proof.
  apply (duration_within_span scenario "build" 0 9000000 5000000).
  - repeat constructor; simpl; lia.
  - reflexivity.
Defined.

Lemma duration_exact_sum_witness :
  duration_of gapped "x" = Some (exact_sum gapped_pairs) ∧
  ("x", format_line "x" (exact_sum gapped_pairs)) ∈ report_lines gapped ∧
  time_report gapped = Some (gapped, join_lines (report_lines gapped).*2).
Proof.
  apply (duration_exact_sum gapped "x" gapped_pairs).
  - done.
  - repeat constructor.
  - reflexivity.
  - repeat constructor; by vm_compute.
Defined.

Lemma later_pair_adds_witness :
  duration_of
    (time_stamp 12000000 (time_stamp 10000000 scenario "build" "start" "").1
       "build" "stop" "").1 "build"
  = Some (default 0 (duration_of scenario "build") + (12000000 - 10000000)).
Proof.
  apply (later_pair_adds scenario "build" 10000000 12000000 "" "").
  - reflexivity.
  - repeat constructor; simpl; lia.
  - lia.
Defined.

Lemma new_instance_isolated_witness :
  ∃ h1 self h2,
    Heap.init heap_scenario.1 = (h1, self) ∧
    log_at h1 self [] ∧
    log_at h1 heap_scenario.2 (lst_time scenario) ∧
    Heap.time_stamp 10000000 h1 self "build" "begin" "" = Some (h2, 0) ∧
    log_at h2 self
      [Stamp "build" 10000000
         (if decide ("begin" ∉ ["start"; "stop"]) then sentinel else "begin")
         ""] ∧
    log_at h2 heap_scenario.2 (lst_time scenario).
Proof.
  apply (new_instance_isolated heap_scenario.1 heap_scenario.2
           (lst_time scenario) 10000000 "build" "begin" "").
  exists [1; 2; 3; 4]%nat. split; [reflexivity|].
  repeat (constructor; [reflexivity|]). constructor.
Defined.

Lemma list_datasets_result_witness :
  list_datasets sample_env "c1" sample_world
  = (World (w_trace sample_world
              ++ listing_calls sample_db "c1" "Workspace" "GEO")
       (w_ticks sample_world) "c1" (w_timer sample_world),
     Ok (datasets_of sample_db "GEO")).
Proof.
  apply (list_datasets_result sample_env sample_db "c1" "Workspace" "GEO"
           sample_world); intros; reflexivity.
Defined.

Lemma list_datasets_no_user_witness :
  ∃ w',
    list_datasets os_auth_env "c1" sample_world = (w', Raise AttributeError) ∧
    w_workspace w' = "c1" ∧
    w_trace w'
    = w_trace sample_world
        ++ [SetWorkspace "c1"; Arcpy "Describe" [PStr "c1"] []]
        ++ (if decide ("Workspace" ≠ "Workspace")
            then [Log "error" "Workspace not recognised - something is wrong. Please check your TNS settings."]
            else [])
        ++ [Arcpy "Describe" [PStr "c1"] []].
Proof.
  apply (list_datasets_no_user os_auth_env "c1" "Workspace" sample_world).
  intros; reflexivity.
Defined.

Lemma rebuild_indexes_outcome_witness :
  let w := sample_world in
  let run := rebuild_indexes failing_env "c1" (PList ["GEO.ROADS"]) w in
  let tr :=
    w_trace w ++ [Log "debug" ("rebuild: " +:+ "c1" +:+ ", "
                                 +:+ fmt failing_env (PList ["GEO.ROADS"]))] in
  let args :=
    if decide (PList ["GEO.ROADS"] = PStr "" ∨ PList ["GEO.ROADS"] = PList [])
    then [PStr "c1"; PStr "SYSTEM"; PStr ""; PStr "ALL"]
    else [PStr "c1"; PStr "NO_SYSTEM"; PList ["GEO.ROADS"]; PStr "ALL"] in
  ∃ rest,
    w_trace run.1 = tr ++ Arcpy "RebuildIndexes_management" args [] :: rest ∧
    tool_calls rest = [] ∧
    w_timer run.1 = w_timer w ∧ w_workspace run.1 = w_workspace w ∧
    (run.2 = Ok 0
       ↔ arcpy_run failing_env tr "RebuildIndexes_management" args = None) ∧
    (run.2 = Ok 0 ∨ run.2 = Ok 1 ∨
     ∃ e tr', run.2 = Raise e ∧ arcpy_messages failing_env tr' = Raise e ∧
       arcpy_run failing_env tr "RebuildIndexes_management" args
         ≠ Some ExecuteError ∧
       w_trace run.1 = tr' ++ [Arcpy "GetMessages" [] []]).
Proof.
  intros w run.
  apply (rebuild_indexes_outcome failing_env "c1" (PList ["GEO.ROADS"]) w
           run.1 run.2).
  reflexivity.
Defined.

Lemma perform_maintenance_raises_witness :
  let run :=
    perform_maintenance failing_env "dba" (PList ["c1"])
      (PList ["cra"; "block"; "report"]) "pat" sample_world in
  ∃ new,
    w_trace run.1 = w_trace sample_world ++ new ∧
    (∀ text, Log "info" ("Time profile report:" +:+ text) ∉ new) ∧
    (Forall (λ ev, releases ev = false) new ∨
     ∃ pre,
       new = pre ++ [Arcpy "AcceptConnections" [PStr "dba"; PBool true] []] ∧
       Forall (λ ev, releases ev = false) pre ∧
       arcpy_run failing_env (w_trace sample_world ++ pre) "AcceptConnections"
         [PStr "dba"; PBool true] = Some ExecuteError).
Proof.
  intros run.
  apply (perform_maintenance_raises failing_env "dba" (PList ["c1"])
           (PList ["cra"; "block"; "report"]) "pat" sample_world run.1
           ExecuteError).
  vm_compute. reflexivity.
Defined.

Lemma perform_maintenance_bracket_witness :
  let run :=
    perform_maintenance sample_env "dba" (PList ["c1"])
      (PList ["cra"; "block"; "report"]) "pat" sample_world in
  ∃ pre mid post,
    w_trace run.1 = w_trace sample_world ++ pre
      ++ Arcpy "AcceptConnections" [PStr "dba"; PBool false] [] :: mid
      ++ Arcpy "AcceptConnections" [PStr "dba"; PBool true] [] :: post ∧
    Forall (λ ev, arcpy_in ["da.ListVersions"] ev = true) pre ∧
    Forall (λ ev, arcpy_in blocked_calls ev = true) mid ∧
    Forall (λ ev, arcpy_in [] ev = true) post.
Proof.
  intros run.
  apply (perform_maintenance_bracket sample_env "dba" (PList ["c1"])
           (PList ["cra"; "block"; "report"]) "pat" sample_world run.1).
  - reflexivity.
  - vm_compute. reflexivity.
Defined.

Lemma perform_maintenance_report_only_witness :
  let run :=
    perform_maintenance sample_env "dba" (PList ["c1"]) (PList ["report"])
      "pat" sample_world in
  ∃ new,
    w_trace run.1 = w_trace sample_world ++ new ∧
    Forall (λ ev, arcpy_in ["da.ListVersions"] ev = true) new.
Proof.
  intros run.
  apply (perform_maintenance_report_only sample_env "dba" (PList ["c1"]) "pat"
           sample_world run.1 run.2).
  vm_compute. reflexivity.
Defined.

Lemma main_lists_data_witness :
  let argv := ["SDE_CRA.py"; "dba"; "c1"; "report"; "pat"] in
  let run := main sample_env "SDE_CRA.py" argv sample_world in
  ∃ new,
    w_trace run.1 = w_trace sample_world ++ new ∧
    if decide (length argv = 5%nat) then
      Log "info" "   1. Get List Of Data Sets" ∈ new ∧
      ∃ geo, argv !! 2%nat = Some geo ∧ SetWorkspace geo ∈ new
    else new = [Print ("Usage: " +:+ "SDE_CRA.py"
                         +:+ " CONN_SDE CONN_DO MODE ID_REGEX")].
Proof.
  intros argv run.
  apply (main_lists_data sample_env "SDE_CRA.py" argv sample_world run.1).
  vm_compute. reflexivity.
Defined.

Lemma perform_maintenance_data_bound_witness :
  perform_maintenance sample_env "dba" (PList ["c1"]) (PList ["acra"]) "pat"
    sample_world
  ≠ (sample_world, Raise KeyError).
Proof.
  apply (perform_maintenance_data_bound sample_env KeyError "dba" (PList ["c1"])
           (PList ["acra"]) "pat" sample_world sample_world).
  - by right.
  - repeat split; intros; simpl; try discriminate. by case_match.
Defined.


Lemma analyze_by_fc_runs_witness :
  ∃ w',
    analyze_by_fc sample_env "c1" 1 (-1) sample_world = (w', Ok tt) ∧
    calls (analyze_call "c1"
             <$> planned (sort_strings (datasets_of sample_db "GEO")) 1 (-1))
      sample_world w'.
Proof.
  apply (analyze_by_fc_runs sample_env "c1" "Workspace" "GEO" sample_db 1 (-1)
           sample_world); try (intros; reflexivity). lia.
Defined.

Lemma rebuild_by_fc_attempts_all_witness :
  ∃ w',
    rebuild_by_fc failing_env "c1" 0 (-1) sample_world = (w', Ok tt) ∧
    calls (rebuild_call "c1"
             <$> planned (sort_strings (datasets_of sample_db "GEO")) 0 (-1))
      sample_world w'.
Proof.
  apply (rebuild_by_fc_attempts_all failing_env "c1" "Workspace" "GEO"
           sample_db 0 (-1) sample_world); try (intros; reflexivity).
  intros tr. by exists "messages".
Defined.

Lemma analyze_by_fc_stops_witness :
  ∃ w',
    analyze_by_fc failing_env "c1" 0 (-1) sample_world
      = (w', Raise ExecuteError) ∧
    calls [analyze_call "c1" "GEO.ADDRESSES"] sample_world w'.
Proof.
  apply (analyze_by_fc_stops failing_env "c1" "Workspace" "GEO" sample_db
           0 (-1) "GEO.ADDRESSES" ["GEO.BUILDINGS"; "GEO.ROADS"] ExecuteError
           sample_world); intros; reflexivity.
Defined.

Lemma analyze_by_fc_overrun_witness :
  ∃ w',
    analyze_by_fc sample_env "c1" 1 3 sample_world = (w', Raise IndexError) ∧
    calls (analyze_call "c1"
             <$> drop (Z.to_nat 1) (sort_strings (datasets_of sample_db "GEO")))
      sample_world w'.
Proof.
  apply (analyze_by_fc_overrun sample_env "c1" "Workspace" "GEO" sample_db 1 3
           sample_world); try (intros; reflexivity).
  - split; [lia|]. by vm_compute.
  - split; by vm_compute.
Defined.

Lemma perform_maintenance_plan_witness :
  let mode := PList ["cra"; "report"] in
  let run :=
    perform_maintenance sample_env "dba" (PList ["c1"]) mode "pat"
      sample_world in
  ∃ head a1 c r a2 tail,
    w_trace run.1 = w_trace sample_world ++ head ++ a1 ++ c ++ r ++ a2 ++ tail ∧
    tool_calls head = [] ∧ tool_calls tail = [] ∧
    Forall (λ ev, arcpy_in ["AnalyzeDatasets_management"] ev = true) a1 ∧
    Forall (λ ev, arcpy_in ["Compress_management"] ev = true) c ∧
    Forall (λ ev, arcpy_in ["RebuildIndexes_management"; "GetMessages"] ev
                  = true) r ∧
    Forall (λ ev, arcpy_in ["AnalyzeDatasets_management"] ev = true) a2 ∧
    (if has_any ["acra"; "aca"] mode
     then last (tool_calls a1) = Some (sde_analyze "dba") else a1 = []) ∧
    (if has_any ["cra"; "acra"; "aca"; "compress"] mode
     then tool_calls c = [sde_compress "dba"] else c = []) ∧
    (if has_any ["cra"; "acra"; "rebuild"] mode
     then last (tool_calls r) = Some (sde_rebuild "dba") else r = []) ∧
    (if has_any ["cra"; "acra"; "aca"; "analyze"] mode
     then last (tool_calls a2) = Some (sde_analyze "dba") else a2 = []).
Proof.
  intros mode run.
  apply (perform_maintenance_plan sample_env "dba" (PList ["c1"]) mode "pat"
           sample_world run.1).
  vm_compute. reflexivity.
Defined.
